(** * fbuild.db: the persistent memoization core

    A shallow embedding of [lib/fbuild/db/__init__.py]: the backend tables
    ([DatabaseBackend]), the file probe, the frontend [Database.call], the
    stack walk of [add_external_dependencies_to_call] and the save/load
    dance, followed by the properties of the specification that were
    checked against it. *)

From Corelib Require Import PrimFloat.
From stdpp Require Import gmap strings list fin_maps.

Open Scope string_scope.
Open Scope list_scope.

(** ** Python values, dictionary keys and exceptions *)

(** The exceptions the modelled code can raise. [UserError] stands for
    whatever a user function raises. *)
Inductive exn :=
  | OSError | KeyError | IndexError | TypeError | ValueError
  | UnpicklingError
  | UserError (msg : string).

(** The outcome of a Python call: a value or a raised exception. *)
Inductive res (A : Type) :=
  | Ok (a : A)
  | Raise (e : exn).
Arguments Ok {A} a.
Arguments Raise {A} e.

(** A dictionary key as the backend uses them: [None], an index into a call
    list, or a string (a function name). Python dictionaries take any
    hashable object, so one table can hold keys of several of these kinds,
    and the code relies on it (see [_check_external_files]). *)
Inductive pykey :=
  | KNone
  | KInt (n : nat)
  | KStr (s : string).

#[global] Instance pykey_eq_dec : EqDecision pykey.
Proof. solve_decision. Defined.

Definition pykey_to_sum (k : pykey) : unit + (nat + string) :=
  match k with
  | KNone => inl tt
  | KInt n => inr (inl n)
  | KStr s => inr (inr s)
  end.

Definition pykey_of_sum (k : unit + (nat + string)) : pykey :=
  match k with
  | inl _ => KNone
  | inr (inl n) => KInt n
  | inr (inr s) => KStr s
  end.

#[global] Instance pykey_countable : Countable pykey.
Proof.
  apply (inj_countable' pykey_to_sum pykey_of_sum).
  intros []; reflexivity.
Defined.

(** A [call_id] as [_check_call] returns it: [None] or an index. *)
Definition key_of_call_id (c : option nat) : pykey :=
  match c with
  | None => KNone
  | Some n => KInt n
  end.

(** Argument and result values: [None], an integer, a string, or a list
    of strings. Only their equality and, for values in a role, what the
    role makes of them matter to the cache. *)
Inductive value :=
  | VNone
  | VInt (z : Z)
  | VStr (s : string)
  | VList (l : list string).

#[global] Instance value_eq_dec : EqDecision value.
Proof. solve_decision. Defined.

Definition value_to_sum (v : value) : unit + (Z + (string + list string)) :=
  match v with
  | VNone => inl tt
  | VInt z => inr (inl z)
  | VStr s => inr (inr (inl s))
  | VList l => inr (inr (inr l))
  end.

Definition value_of_sum (v : unit + (Z + (string + list string))) : value :=
  match v with
  | inl _ => VNone
  | inr (inl z) => VInt z
  | inr (inr (inl s)) => VStr s
  | inr (inr (inr l)) => VList l
  end.

(** The sets of [Database.call] hold values. *)
#[global] Instance value_countable : Countable value.
Proof.
  apply (inj_countable' value_to_sum value_of_sum).
  intros []; reflexivity.
Defined.

(** ** The six tables of [DatabaseBackend] *)

Record backend := Backend {
  _functions : gmap string string;
  _function_calls : gmap string (list (gmap string value * value));
  _files : gmap string (float * string);
  _call_files : gmap string (gmap pykey (gmap pykey string));
  _external_srcs : gmap pykey (gmap pykey (gset string));
  _external_dsts : gmap pykey (gmap pykey (gset string))
}.

(** [DatabaseBackend.__init__] *)
Definition empty_backend : backend :=
  Backend ∅ ∅ ∅ ∅ ∅ ∅.

(** ** The world around the tables *)

(** What the cache can observe of a file: its [getmtime] and the digest of
    its content. *)
Record file_stat := FileStat {
  st_mtime : float;
  st_digest : string
}.

(** The locals of an in-flight [Database.call] that
    [add_external_dependencies_to_call] reads from the frame. *)
Record call_locals := CallLocals {
  l_function_name : string;
  l_call_id : option nat;
  l_external_digests : list (string * string);
  l_external_srcs : gset string;
  l_external_dsts : gset string
}.

(** A frame of the Python stack: one of [Database.call], or any other. *)
Inductive frame :=
  | CallFrame (l : call_locals)
  | OtherFrame.

(** The two effects the cache exists to avoid are logged: hashing a file
    and running a user function. *)
Inductive event :=
  | EvDigest (filename : string)
  | EvRun (name : string).

Record world := World {
  db : backend;
  fs : gmap string file_stat;
  now : float;
  stack : list frame;
  trace : list event
}.

Definition set_db (f : backend → backend) (w : world) : world :=
  World (f (db w)) (fs w) (now w) (stack w) (trace w).

Definition set_stack (f : list frame → list frame) (w : world) : world :=
  World (db w) (fs w) (now w) (f (stack w)) (trace w).

Definition log (e : event) (w : world) : world :=
  World (db w) (fs w) (now w) (stack w) (trace w ++ [e]).

(** ** A state and exception monad

    State survives a raised exception, as Python's does. *)
Definition ST (S A : Type) : Type := S → res A * S.

Definition ret {S A} (a : A) : ST S A := fun w => (Ok a, w).

Definition raise {S A} (e : exn) : ST S A := fun w => (Raise e, w).

Definition bind {S A B} (m : ST S A) (k : A → ST S B) : ST S B :=
  fun w =>
    match m w with
    | (Ok a, w') => k a w'
    | (Raise e, w') => (Raise e, w')
    end.

(** [try: m except e: h e] *)
Definition catch {S A} (m : ST S A) (h : exn → ST S A) : ST S A :=
  fun w =>
    match m w with
    | (Ok a, w') => (Ok a, w')
    | (Raise e, w') => h e w'
    end.

(** A computation that does not touch the state. *)
Definition lift {S A} (r : res A) : ST S A := fun w => (r, w).

Definition gets {S A} (f : S → A) : ST S A := fun w => (Ok (f w), w).

Definition modify {S} (f : S → S) : ST S unit := fun w => (Ok tt, f w).

(** The backend and the frontend run over the [world]. *)
Abbreviation M := (ST world).

Notation "x <- c1 ;; c2" := (bind c1 (fun x => c2))
  (at level 62, c1 at next level, right associativity).
Notation "c1 ;;; c2" := (bind c1 (fun _ => c2))
  (at level 62, right associativity).

(** A [for] loop over a list that threads an accumulator. *)
Fixpoint for_each {W A S} (l : list A) (body : A → S → ST W S) (s : S)
    : ST W S :=
  match l with
  | [] => ret s
  | x :: l' => s' <- body x s ;; for_each l' body s'
  end.

(** ** File system and clock

    [fbuild.path] is not among the sources at hand. The backend uses
    [Path] through [getmtime], [digest] and [exists]; each is modelled as
    the specification describes the probe of a file. *)

(** Modelled from the spec: [Path(filename).getmtime()], missing with
    [fbuild.path]. "Stat the file"; a file that is not on disk makes the
    probe "surface a not-found error". *)
Definition getmtime (filename : string) : M float :=
  fun w =>
    match fs w !! filename with
    | Some st => (Ok (st_mtime st), w)
    | None => (Raise OSError, w)
    end.

(** Modelled from the spec: [Path.digest(filename)], missing with
    [fbuild.path]. "Any fixed content hash"; a file is seen through the
    digest of its content, and hashing it is logged. *)
Definition digest (filename : string) : M string :=
  fun w =>
    match fs w !! filename with
    | Some st => (Ok (st_digest st), log (EvDigest filename) w)
    | None => (Raise OSError, w)
    end.

(** Modelled from the spec: [Path(filename).exists()], missing with
    [fbuild.path]: whether the file "still exists on disk". *)
Definition exists_ (filename : string) : M bool :=
  gets (fun w => bool_decide (is_Some (fs w !! filename))).

(** Modelled from the spec: [fbuild.path.Path(x)] for an object [x] that
    [Database.call] hands over as a file name, missing with [fbuild.path].
    "A role converts its argument value into a possibly-empty list of
    filenames": a file name is a string, and an object that is not a
    string names no file. *)
Definition filename_of (x : value) : option string :=
  match x with
  | VStr s => Some s
  | _ => None
  end.

(** The file on disk that an object names, if it names one. *)
Definition file_at (w : world) (x : value) : option file_stat :=
  filename_of x ≫= (fun s => fs w !! s).

(** Modelled from the spec: [Path(x).exists()] for an object [x], missing
    with [fbuild.path]: an object that names no file is not "on disk". *)
Definition exists_object (x : value) : M bool :=
  match filename_of x with
  | Some filename => exists_ filename
  | None => ret false
  end.

(** [time.time()] *)
Definition time_time : M float := gets now.

(** ** File registry *)

(** [DatabaseBackend.clear_file] *)
Definition clear_file (filename : string) : M bool :=
  files <- gets (fun w => _files (db w)) ;;
  let file_existed := bool_decide (is_Some (files !! filename)) in
  modify (set_db (fun d =>
    Backend (_functions d) (_function_calls d) (delete filename (_files d))
            (_call_files d) (_external_srcs d) (_external_dsts d))) ;;;
  call_files <- gets (fun w => _call_files (db w)) ;;
  let file_existed :=
    file_existed || bool_decide (is_Some (call_files !! filename)) in
  modify (set_db (fun d =>
    Backend (_functions d) (_function_calls d) (_files d)
            (delete filename (_call_files d))
            (_external_srcs d) (_external_dsts d))) ;;;
  ret file_existed.

(** [self._files[filename] = data] *)
Definition store_file (filename : string) (data : float * string) : M unit :=
  modify (set_db (fun d =>
    Backend (_functions d) (_function_calls d) (<[filename := data]> (_files d))
            (_call_files d) (_external_srcs d) (_external_dsts d))).

(** [DatabaseBackend._add_file] *)
Definition _add_file (filename : string) : M (bool * (float * string)) :=
  mtime <- getmtime filename ;;
  files <- gets (fun w => _files (db w)) ;;
  match files !! filename with
  | None =>
      d <- digest filename ;;
      store_file filename (mtime, d) ;;;
      ret (true, (mtime, d))
  | Some (old_mtime, old_digest) =>
      fresh <- (if PrimFloat.eqb mtime old_mtime
                then t <- time_time ;;
                     ret (PrimFloat.ltb 1%float (PrimFloat.sub t mtime))
                else ret false) ;;
      if (fresh : bool) then ret (false, (old_mtime, old_digest))
      else
        d <- digest filename ;;
        if bool_decide (d = old_digest) then
          store_file filename (mtime, old_digest) ;;;
          ret (false, (old_mtime, old_digest))
        else
          clear_file filename ;;;
          store_file filename (mtime, d) ;;;
          ret (true, (mtime, d))
  end.

(** ** Function registry *)

(** [DatabaseBackend._check_function] *)
Definition _check_function (function_name function_digest : string) : M bool :=
  functions <- gets (fun w => _functions (db w)) ;;
  match functions !! function_name with
  | None => ret true
  | Some old_digest =>
      if bool_decide (function_digest = old_digest) then ret false
      else ret true
  end.

(** The loop of [clear_function] over [self._call_files.items()]: the
    function's records are deleted from every per-file map, and the file
    names whose map is then empty are dropped. *)
Definition prune_call_files (name : pykey)
    (cf : gmap string (gmap pykey (gmap pykey string)))
    : gmap string (gmap pykey (gmap pykey string)) :=
  filter (fun kv => kv.2 ≠ ∅) (delete name <$> cf).

(** Whether that loop sets [function_existed]: some per-file map held the
    name, or some key was removed. *)
Definition call_files_touched (name : pykey)
    (cf : gmap string (gmap pykey (gmap pykey string))) : bool :=
  bool_decide
    (map_Exists (fun _ v => is_Some (v !! name) ∨ delete name v = ∅) cf).

(** [DatabaseBackend.clear_function] *)
Definition clear_function (name : string) : M bool :=
  d <- gets db ;;
  let function_existed :=
    bool_decide (is_Some (_functions d !! name))
    || bool_decide (is_Some (_function_calls d !! name))
    || bool_decide (is_Some (_external_srcs d !! KStr name))
    || bool_decide (is_Some (_external_dsts d !! KStr name))
    || call_files_touched (KStr name) (_call_files d) in
  modify (set_db (fun d =>
    Backend (delete name (_functions d))
            (delete name (_function_calls d))
            (_files d)
            (prune_call_files (KStr name) (_call_files d))
            (delete (KStr name) (_external_srcs d))
            (delete (KStr name) (_external_dsts d)))) ;;;
  ret function_existed.

(** [DatabaseBackend._update_function] *)
Definition _update_function (function digest : string) : M unit :=
  clear_function function ;;;
  modify (set_db (fun d =>
    Backend (<[function := digest]> (_functions d)) (_function_calls d)
            (_files d) (_call_files d) (_external_srcs d) (_external_dsts d))).

(** ** Call table *)

(** The scan of [_check_call]: the first index whose bound arguments are
    equal to [bound], with its result. *)
Fixpoint find_call (bound : gmap string value)
    (datas : list (gmap string value * value)) (index : nat)
    : option (nat * value) :=
  match datas with
  | [] => None
  | (old_bound, result) :: rest =>
      if bool_decide (bound = old_bound) then Some (index, result)
      else find_call bound rest (S index)
  end.

(** [DatabaseBackend._check_call]; the pair [(None, None)] is
    [(None, VNone)]. *)
Definition _check_call (function : string) (bound : gmap string value)
    : M (option nat * value) :=
  calls <- gets (fun w => _function_calls (db w)) ;;
  match calls !! function with
  | None => ret (None, VNone)
  | Some datas =>
      match find_call bound datas 0 with
      | Some (index, result) => ret (Some index, result)
      | None => ret (None, VNone)
      end
  end.

(** [self._function_calls[function] = datas] *)
Definition store_calls (function : string)
    (datas : list (gmap string value * value)) : M unit :=
  modify (set_db (fun d =>
    Backend (_functions d) (<[function := datas]> (_function_calls d))
            (_files d) (_call_files d) (_external_srcs d) (_external_dsts d))).

(** [DatabaseBackend._update_call]. Assigning past the end of a Python list
    raises [IndexError]. *)
Definition _update_call (function : string) (call_id : option nat)
    (bound : gmap string value) (result : value) : M nat :=
  calls <- gets (fun w => _function_calls (db w)) ;;
  match calls !! function with
  | None =>
      store_calls function [(bound, result)] ;;;
      ret 0
  | Some datas =>
      match call_id with
      | None =>
          store_calls function (datas ++ [(bound, result)]) ;;;
          ret (length (datas ++ [(bound, result)]) - 1)
      | Some i =>
          if bool_decide (i < length datas) then
            store_calls function (<[i := (bound, result)]> datas) ;;;
            ret i
          else raise IndexError
      end
  end.

(** ** Call-file index *)

(** [DatabaseBackend._check_call_file]. The two keys are taken as the
    caller passes them: [prepare] hands them over in one order through
    [_check_call_files] and in the other through [_check_external_files]. *)
Definition _check_call_file (call_id function_name : pykey)
    (filename : string) : M (bool * string) :=
  r <- _add_file filename ;;
  let dirty := r.1 in
  let digest := r.2.2 in
  match call_id with
  | KNone => ret (true, digest)
  | _ =>
      call_files <- gets (fun w => _call_files (db w)) ;;
      match call_files !! filename with
      | None => ret (true, digest)
      | Some datas =>
          match datas !! function_name ≫= (fun m => m !! call_id) with
          | None => ret (true, digest)
          | Some old_digest =>
              if bool_decide (digest = old_digest) then ret (dirty, digest)
              else ret (true, digest)
          end
      end
  end.

(** [setdefault(k1, {}).setdefault(k2, {})[k3] = v] on a three-level
    dictionary. *)
Definition upsert3 {K1 K2 K3 V} `{Countable K1, Countable K2, Countable K3}
    (k1 : K1) (k2 : K2) (k3 : K3) (v : V)
    (m : gmap K1 (gmap K2 (gmap K3 V))) : gmap K1 (gmap K2 (gmap K3 V)) :=
  let m1 := default ∅ (m !! k1) in
  let m2 := default ∅ (m1 !! k2) in
  <[k1 := <[k2 := <[k3 := v]> m2]> m1]> m.

(** [setdefault(k1, {})[k2] = v] on a two-level dictionary. *)
Definition upsert2 {K1 K2 V} `{Countable K1, Countable K2}
    (k1 : K1) (k2 : K2) (v : V)
    (m : gmap K1 (gmap K2 V)) : gmap K1 (gmap K2 V) :=
  <[k1 := <[k2 := v]> (default ∅ (m !! k1))]> m.

(** [DatabaseBackend._update_call_file] *)
Definition _update_call_file (call_id function_name : pykey)
    (filename digest : string) : M unit :=
  modify (set_db (fun d =>
    Backend (_functions d) (_function_calls d) (_files d)
            (upsert3 filename function_name call_id digest (_call_files d))
            (_external_srcs d) (_external_dsts d))).

(** One turn of the loop of [_check_call_files]. *)
Definition check_one_call_file (call_id function_name : pykey)
    (filename : string) (digests : list (string * string))
    : M (list (string * string)) :=
  r <- _check_call_file call_id function_name filename ;;
  if r.1 then ret (digests ++ [(filename, r.2)]) else ret digests.

(** [DatabaseBackend._check_call_files] *)
Definition _check_call_files (call_id function_name : pykey)
    (filenames : list string) : M (list (string * string)) :=
  for_each filenames (check_one_call_file call_id function_name) [].

(** [DatabaseBackend._update_call_files] *)
Definition _update_call_files (call_id function_name : pykey)
    (digests : list (string * string)) : M unit :=
  for_each digests (fun sd _ =>
    _update_call_file call_id function_name sd.1 sd.2) tt.

(** ** External-dependency index *)

(** One turn of the loop of [_check_external_files] over the recorded
    sources: the pair is [(external_dirty, digests)]. *)
Definition check_one_external_src (call_id function_name : pykey)
    (src : string) (acc : bool * list (string * string))
    : M (bool * list (string * string)) :=
  catch
    (c <- _check_call_file call_id function_name src ;;
     if c.1 then ret (acc.1, acc.2 ++ [(src, c.2)]) else ret acc)
    (fun e =>
       match e with
       | OSError => ret (true, acc.2)
       | _ => raise e
       end).

(** [DatabaseBackend._check_external_files]. The parameter names are the
    source's; [prepare] passes the function name first. *)
Definition _check_external_files (call_id function_name : pykey)
    : M (bool * gset string * gset string * list (string * string)) :=
  d <- gets db ;;
  r <- match _external_srcs d !! function_name ≫= (fun m => m !! call_id) with
       | None => ret (false, ∅, [])
       | Some srcs =>
           r <- for_each (elements srcs)
                  (check_one_external_src call_id function_name)
                  (false, []) ;;
           ret (r.1, srcs, r.2)
       end ;;
  d <- gets db ;;
  let dsts :=
    default ∅ (_external_dsts d !! function_name ≫= (fun m => m !! call_id)) in
  ret (r.1.1, r.1.2, dsts, r.2).

(** [DatabaseBackend._update_external_files]; again the parameter names are
    the source's, and [cache] passes the function name first. *)
Definition _update_external_files (call_id function_name : pykey)
    (srcs dsts : gset string) (digests : list (string * string)) : M unit :=
  modify (set_db (fun d =>
    Backend (_functions d) (_function_calls d) (_files d) (_call_files d)
            (upsert2 function_name call_id srcs (_external_srcs d))
            (upsert2 function_name call_id dsts (_external_dsts d)))) ;;;
  for_each digests (fun sd _ =>
    _update_call_file call_id function_name sd.1 sd.2) tt.

(** ** The backend's two entry points *)

(** The tuple [prepare] returns. *)
Record prepared := Prepared {
  function_dirty : bool;
  call_id : option nat;
  old_result : value;
  call_file_digests : list (string * string);
  external_dirty : bool;
  external_srcs : gset string;
  external_dsts : gset string;
  external_digests : list (string * string)
}.

(** [DatabaseBackend.prepare] *)
Definition prepare (function_name function_digest : string)
    (bound : gmap string value) (srcs dsts : gset string) : M prepared :=
  function_dirty <- _check_function function_name function_digest ;;
  c <- _check_call function_name bound ;;
  let call_id := c.1 in
  let old_result := c.2 in
  call_file_digests <-
    _check_call_files (key_of_call_id call_id) (KStr function_name)
      (elements srcs) ;;
  e <- _check_external_files (KStr function_name) (key_of_call_id call_id) ;;
  ret (Prepared function_dirty call_id old_result call_file_digests
         e.1.1.1 e.1.1.2 e.1.2 e.2).

(** [DatabaseBackend.cache] *)
Definition cache (function_dirty : bool)
    (function_name function_digest : string) (call_id : option nat)
    (bound : gmap string value) (result : value)
    (call_file_digests : list (string * string))
    (external_srcs external_dsts : gset string)
    (external_digests : list (string * string)) : M unit :=
  (if function_dirty then _update_function function_name function_digest
   else ret tt) ;;;
  call_id <- _update_call function_name call_id bound result ;;
  _update_call_files (KInt call_id) (KStr function_name) call_file_digests ;;;
  _update_external_files (KStr function_name) (KInt call_id)
    external_srcs external_dsts external_digests.

(** ** Argument roles *)

(** The annotation of a parameter or of the return value: one of the six
    role classes, or any other class. *)
Inductive role :=
  | SRC | SRCS | OPTIONAL_SRC
  | DST | DSTS | OPTIONAL_DST
  | OTHER.

(** [issubclass(avalue, SRC)] *)
Definition is_src (r : role) : bool :=
  match r with
  | SRC | SRCS | OPTIONAL_SRC => true
  | _ => false
  end.

(** [issubclass(avalue, DST)] *)
Definition is_dst (r : role) : bool :=
  match r with
  | DST | DSTS | OPTIONAL_DST => true
  | _ => false
  end.

(** What a [convert] method returns: a list that it builds, or its
    argument as it was given. *)
Inductive converted :=
  | Built (l : list value)
  | Given (v : value).

(** The [convert] static methods of the six role classes: [SRC] and [DST]
    wrap their argument in a list, [SRCS] and [DSTS] return it as it is,
    the optional roles return the empty list for [None] and wrap any other
    argument. None of them looks at the argument otherwise, and none
    raises. [OTHER] stands for the classes without the method; the code
    converts with a role class only. *)
Definition convert (r : role) (v : value) : converted :=
  match r with
  | SRC | DST => Built [v]
  | SRCS | DSTS => Given v
  | OPTIONAL_SRC | OPTIONAL_DST =>
      match v with
      | VNone => Built []
      | _ => Built [v]
      end
  | OTHER => Built []
  end.

(** The characters of a string, as iterating over it yields them. *)
Definition characters (s : string) : list value :=
  (fun c => VStr (String c "")) <$> String.list_ascii_of_string s.

(** Iterating over what [convert] returned, as [set.update] and
    [itertools.chain] do: a list yields its elements and a string its
    characters; [None] and an integer are not iterable, and Python raises
    [TypeError]. *)
Definition iterate (c : converted) : res (list value) :=
  match c with
  | Built l => Ok l
  | Given (VList l) => Ok (VStr <$> l)
  | Given (VStr s) => Ok (characters s)
  | Given (VNone | VInt _) => Raise TypeError
  end.

(** Whether [hash(v)] returns: a list is not hashable. *)
Definition hashable (v : value) : bool :=
  match v with
  | VList _ => false
  | _ => true
  end.

(** [s.update(c)] on a set: the elements of [c] are added, and Python
    raises [TypeError] when [c] is not iterable or an element is not
    hashable. *)
Definition set_update (s : gset value) (c : converted) : res (gset value) :=
  match iterate c with
  | Ok l => if forallb hashable l then Ok (s ∪ list_to_set l)
            else Raise TypeError
  | Raise e => Raise e
  end.

(** The loop of [Database.call] over [function.__annotations__.items()]:
    the return role and the two sets of declared sources and
    destinations. *)
Definition partition_roles (annotations : list (string * role))
    (bound : gmap string value)
    : M (option role * gset value * gset value) :=
  for_each annotations (fun a acc =>
    let akey := a.1 in
    let avalue := a.2 in
    if bool_decide (akey = "return") then ret (Some avalue, acc.1.2, acc.2)
    else if is_src avalue then
      match bound !! akey with
      | None => raise KeyError
      | Some v =>
          srcs <- lift (set_update acc.1.2 (convert avalue v)) ;;
          ret (acc.1.1, srcs, acc.2)
      end
    else if is_dst avalue then
      match bound !! akey with
      | None => raise KeyError
      | Some v =>
          dsts <- lift (set_update acc.2 (convert avalue v)) ;;
          ret (acc.1.1, acc.1.2, dsts)
      end
    else ret acc) (None, ∅, ∅).

(** [return_type.convert(result)] when the return annotation is a [DST]
    role, the empty tuple otherwise. *)
Definition return_dsts_of (return_type : option role) (result : value)
    : converted :=
  match return_type with
  | Some r => if is_dst r then convert r result else Built []
  | None => Built []
  end.

(** ** External dependencies registered from inside a call *)

(** In-place update of the locals of the frame at depth [i]. *)
Definition update_frame (i : nat) (f : call_locals → call_locals) : M unit :=
  modify (set_stack (fun st =>
    match st !! i with
    | Some (CallFrame l) => <[i := CallFrame (f l)]> st
    | _ => st
    end)).

(** One turn of the loop [for src in srcs] for the frame at depth [i],
    whose locals were [l] when the frame was found. *)
Definition register_src (i : nat) (l : call_locals) (src : string)
    (_ : unit) : M unit :=
  update_frame i (fun l =>
    CallLocals (l_function_name l) (l_call_id l) (l_external_digests l)
               (l_external_srcs l ∪ {[src]}) (l_external_dsts l)) ;;;
  c <- _check_call_file (key_of_call_id (l_call_id l))
         (KStr (l_function_name l)) src ;;
  if c.1 then
    update_frame i (fun l =>
      CallLocals (l_function_name l) (l_call_id l)
                 (l_external_digests l ++ [(src, c.2)])
                 (l_external_srcs l) (l_external_dsts l))
  else ret tt.

(** The body of the [if frame.f_code == ctx.db.call.__code__] branch for
    the frame at depth [i]. *)
Definition add_to_frame (i : nat) (l : call_locals) (srcs dsts : list string)
    : M unit :=
  for_each srcs (register_src i l) tt ;;;
  update_frame i (fun l =>
    CallLocals (l_function_name l) (l_call_id l) (l_external_digests l)
               (l_external_srcs l) (l_external_dsts l ∪ list_to_set dsts)).

(** The [while True] loop over [currentframe(i)]: [frames] are the frames
    from depth [i] outwards.

    Modelled from the spec: [fbuild.inspect.currentframe] is not among the
    sources; it is the "stack introspection" that finds the in-flight
    cached calls above the caller, and it raises [ValueError] once the
    depth runs off the stack, which is what ends the loop. *)
Fixpoint walk_frames (frames : list frame) (i : nat) (srcs dsts : list string)
    : M unit :=
  match frames with
  | [] => raise ValueError
  | CallFrame l :: rest =>
      add_to_frame i l srcs dsts ;;;
      walk_frames rest (S i) srcs dsts
  | OtherFrame :: rest => walk_frames rest (S i) srcs dsts
  end.

(** [add_external_dependencies_to_call]. The stack of the world holds the
    frames the walk visits, innermost first. *)
Definition add_external_dependencies_to_call (srcs dsts : list string)
    : M unit :=
  catch
    (st <- gets stack ;; walk_frames st 0 srcs dsts)
    (fun e =>
       match e with
       | ValueError => ret tt
       | _ => raise e
       end).

(** ** User functions *)

(** What the body of a cached function does, as far as the cache can tell:
    it registers external dependencies, changes files, lets time pass, and
    returns or raises. *)
Inductive action :=
  | AReturn (v : value)
  | ARaise (e : exn)
  | AAddDeps (srcs dsts : list string) (k : action)
  | AWrite (filename : string) (st : file_stat) (k : action)
  | ARemove (filename : string) (k : action)
  | ASleep (until : float) (k : action).

Definition set_fs (f : gmap string file_stat → gmap string file_stat)
    (w : world) : world :=
  World (db w) (f (fs w)) (now w) (stack w) (trace w).

Definition set_now (t : float) (w : world) : world :=
  World (db w) (fs w) t (stack w) (trace w).

Fixpoint run_action (a : action) : M value :=
  match a with
  | AReturn v => ret v
  | ARaise e => raise e
  | AAddDeps srcs dsts k =>
      add_external_dependencies_to_call srcs dsts ;;;
      run_action k
  | AWrite filename st k =>
      modify (set_fs (insert filename st)) ;;;
      run_action k
  | ARemove filename k =>
      modify (set_fs (delete filename)) ;;;
      run_action k
  | ASleep until k =>
      modify (set_now until) ;;;
      run_action k
  end.

(** A cached function: the name and digest [Database.call] derives for it,
    its annotations, and its body applied to the bound arguments. *)
Record func := Func {
  fn_name : string;
  fn_digest : string;
  fn_annotations : list (string * role);
  fn_body : gmap string value → action
}.

(** ** The frontend: [Database.call] *)

(** The [for ... else] loop over the destinations: [true] when the loop
    ends without [break]. *)
Fixpoint all_exist (dsts : list value) : M bool :=
  match dsts with
  | [] => ret true
  | dst :: rest =>
      e <- exists_object dst ;;
      if e then all_exist rest else ret false
  end.

(** Python truth of a list. *)
Definition nonempty {A} (l : list A) : bool :=
  match l with
  | [] => false
  | _ => true
  end.

(** The first test of [Database.call] on the tuple of [prepare]. *)
Definition has_result (p : prepared) : bool :=
  negb (function_dirty p
        || bool_decide (call_id p = None)
        || nonempty (call_file_digests p)
        || nonempty (external_digests p)
        || external_dirty p).

(** A set of file names of the backend, as the set of objects that
    [Database.call] unites with its own. *)
Definition objects (names : gset string) : gset value :=
  set_map VStr names.

(** The clean path of [Database.call]: the cached triple, or [None] when
    control falls through to the recomputation. [itertools.chain] goes
    through what [convert] returned first, so an object that is not
    iterable raises before any destination is looked at. *)
Definition cached_result (return_type : option role) (srcs dsts : gset value)
    (p : prepared) : M (option (value * gset value * gset value)) :=
  if has_result p then
    let return_dsts := return_dsts_of return_type (old_result p) in
    chain <- lift (iterate return_dsts) ;;
    ok <- all_exist (chain ++ elements dsts
                     ++ elements (objects (external_dsts p))) ;;
    if ok then
      let all_srcs := srcs ∪ objects (external_srcs p) in
      all_dsts <- lift (set_update (dsts ∪ objects (external_dsts p))
                          return_dsts) ;;
      ret (Some (old_result p, all_srcs, all_dsts))
    else ret None
  else ret None.

(** The locals of the frame of [Database.call] when the user function is
    entered: the two sets are rebound to empty sets, the digest list is
    the one [prepare] returned. *)
Definition locals_at_entry (f : func) (p : prepared) : call_locals :=
  CallLocals (fn_name f) (call_id p) (external_digests p) ∅ ∅.

(** Leaving the frame of [Database.call]: its locals as the body left
    them. *)
Definition pop_frame (dflt : call_locals) : M call_locals :=
  st <- gets stack ;;
  modify (set_stack (drop 1)) ;;;
  match st with
  | CallFrame l :: _ => ret l
  | _ => ret dflt
  end.

(** The dirty path of [Database.call] from the call of the user function
    on: run it, submit [cache], return the new triple. *)
Definition run_and_cache (f : func) (bound : gmap string value)
    (return_type : option role) (srcs dsts : gset value) (p : prepared)
    : M (value * gset value * gset value) :=
  result <- catch (run_action (fn_body f bound))
              (fun e => modify (set_stack (drop 1)) ;;; raise e) ;;
  l <- pop_frame (locals_at_entry f p) ;;
  cache (function_dirty p) (fn_name f) (fn_digest f) (call_id p) bound result
        (call_file_digests p) (l_external_srcs l) (l_external_dsts l)
        (l_external_digests l) ;;;
  let return_dsts := return_dsts_of return_type result in
  let all_srcs := srcs ∪ objects (l_external_srcs l) in
  all_dsts <- lift (set_update (dsts ∪ objects (l_external_dsts l))
                      return_dsts) ;;
  ret (result, all_srcs, all_dsts).

(** The dirty path of [Database.call]: the two sets are rebound, the
    function is entered. *)
Definition recompute (f : func) (bound : gmap string value)
    (return_type : option role) (srcs dsts : gset value) (p : prepared)
    : M (value * gset value * gset value) :=
  modify (set_stack (cons (CallFrame (locals_at_entry f p)))) ;;;
  modify (log (EvRun (fn_name f))) ;;;
  run_and_cache f bound return_type srcs dsts p.

(** The file names among the objects of a set. *)
Definition file_names (s : gset value) : gset string :=
  list_to_set (omap filename_of (elements s)).

(** The request for [prepare] that [Database.call] makes with its two sets
    of objects. The backend takes every source for a file name and stats
    it; it does not look at the destinations.

    Modelled from the spec: [fbuild.path] is not among the sources. A
    source that is not a string names no file, so its probe is the probe
    of a file that is not on disk and "surfaces a not-found error".
    Python leaves the order of a set open; the model goes through such
    sources first, when [prepare] has written nothing yet. *)
Definition request_prepare (function_name function_digest : string)
    (bound : gmap string value) (srcs dsts : gset value) : M prepared :=
  if forallb (fun x => bool_decide (is_Some (filename_of x))) (elements srcs)
  then prepare function_name function_digest bound
         (file_names srcs) (file_names dsts)
  else raise OSError.

(** [Database.call], from the role partition on. The name and the digest
    of the function and the bound arguments are those of [f] and [bound].

    Modelled from the spec: [fbuild.rpc] is not among the sources; a
    request to the backend is "a request-and-reply pair" that is waited
    for, so [self._rpc.call((method, args, {}))] is the call of
    [method]. *)
Definition call (f : func) (bound : gmap string value)
    : M (value * gset value * gset value) :=
  roles <- partition_roles (fn_annotations f) bound ;;
  let return_type := roles.1.1 in
  let srcs := roles.1.2 in
  let dsts := roles.2 in
  p <- request_prepare (fn_name f) (fn_digest f) bound srcs dsts ;;
  c <- cached_result return_type srcs dsts p ;;
  match c with
  | Some r => ret r
  | None => recompute f bound return_type srcs dsts p
  end.

(** ** Histories of the backend

    The backend's entry points as requests, and the file system and clock
    changing between them. *)
Inductive request :=
  | DoPrepare (function_name function_digest : string)
      (bound : gmap string value) (srcs dsts : gset string)
  | DoCache (function_dirty : bool) (function_name function_digest : string)
      (call_id : option nat) (bound : gmap string value) (result : value)
      (call_file_digests : list (string * string))
      (external_srcs external_dsts : gset string)
      (external_digests : list (string * string))
  | DoClearFunction (name : string)
  | DoClearFile (filename : string)
  | Outside (files : gmap string file_stat) (time : float).

Definition serve (r : request) (w : world) : world :=
  match r with
  | DoPrepare n d b s t => (prepare n d b s t w).2
  | DoCache fd n d c b r cf es ed eg => (cache fd n d c b r cf es ed eg w).2
  | DoClearFunction n => (clear_function n w).2
  | DoClearFile f => (clear_file f w).2
  | Outside files time => set_now time (set_fs (fun _ => files) w)
  end.

Definition serve_all (rs : list request) (w : world) : world :=
  foldl (fun w r => serve r w) w rs.

(** A fresh process: empty tables, nothing on the stack, nothing logged. *)
Definition initial_world (files : gmap string file_stat) (time : float)
    : world :=
  World empty_backend files time [] [].

(** ** Persistence: [save] and [load]

    The database file is seen through its bytes. The pickler and the
    unpickler are the library's; they are parameters of the model. *)

Abbreviation bytes := (list Byte.byte).

(** The system calls [save] issues, in the order it issues them. *)
Inductive disk_op :=
  | OpWrite (name : string) (data : bytes)
  | OpRename (src dst : string)
  | OpRemove (name : string).

Record disk := Disk {
  contents : gmap string bytes;
  ops : list disk_op
}.

(** [os.rename] on the directory: the source name disappears, the
    destination name holds its content, replacing what it held. *)
Definition rename_entry (src dst : string) (m : gmap string bytes)
    : gmap string bytes :=
  match m !! src with
  | Some c => <[dst := c]> (delete src m)
  | None => m
  end.

(** [with open(name, 'wb') as f: f.write(data)] *)
Definition write_file (name : string) (data : bytes) : ST disk unit :=
  modify (fun d =>
    Disk (<[name := data]> (contents d)) (ops d ++ [OpWrite name data])).

(** Modelled from the spec: [Path.exists] on the database file, missing
    with [fbuild.path] ("if it exists"). *)
Definition disk_exists (name : string) : ST disk bool :=
  gets (fun d => bool_decide (is_Some (contents d !! name))).

(** Modelled from the spec: [Path.rename], missing with [fbuild.path]
    ("move [path] to [path.old]", "rename [.tmp] to [path]"); renaming a
    name that is not there raises [OSError]. *)
Definition rename (src dst : string) : ST disk unit :=
  c <- gets (fun d => contents d !! src) ;;
  match c with
  | None => raise OSError
  | Some _ =>
      modify (fun d =>
        Disk (rename_entry src dst (contents d)) (ops d ++ [OpRename src dst]))
  end.

(** Modelled from the spec: [Path.remove], missing with [fbuild.path]
    ("delete [.old]"); removing a name that is not there raises
    [OSError]. *)
Definition remove (name : string) : ST disk unit :=
  c <- gets (fun d => contents d !! name) ;;
  match c with
  | None => raise OSError
  | Some _ =>
      modify (fun d =>
        Disk (delete name (contents d)) (ops d ++ [OpRemove name]))
  end.

(** [open(name, 'rb')] and reading it whole. *)
Definition read_file (name : string) : ST disk bytes :=
  c <- gets (fun d => contents d !! name) ;;
  match c with
  | None => raise OSError
  | Some data => ret data
  end.

Section persistence.

(** [_Pickler.dump] and [_Unpickler.load] on the tuple of the six
    tables. *)
Variable pickle : backend → bytes.
Variable unpickle : bytes → option backend.

(** [DatabaseBackend.save] *)
Definition save (self : backend) (filename : string) : ST disk unit :=
  let s := pickle self in
  let path := filename in
  let tmp := path +:+ ".tmp" in
  let old := path +:+ ".old" in
  write_file tmp s ;;;
  e <- disk_exists path ;;
  (if e then rename path old else ret tt) ;;;
  rename tmp path ;;;
  e <- disk_exists old ;;
  if e then remove old else ret tt.

(** [DatabaseBackend.load]: the tables the backend holds afterwards. *)
Definition load (filename : string) : ST disk backend :=
  data <- read_file filename ;;
  match unpickle data with
  | Some tables => ret tables
  | None => raise UnpicklingError
  end.

(** *** The instants of a save

    [save] as a machine that a crash can stop between any two system
    calls, and between any two bytes of the write to the temporary
    file. *)
Inductive save_pc :=
  | AtOpen
  | AtWrite (written : nat)
  | AtMoveOld
  | AtMoveTmp
  | AtRemoveOld
  | AtEnd.

Definition save_step (s : bytes) (path : string)
    (c : save_pc * gmap string bytes) : save_pc * gmap string bytes :=
  let tmp := path +:+ ".tmp" in
  let old := path +:+ ".old" in
  let m := c.2 in
  match c.1 with
  | AtOpen => (AtWrite 0, <[tmp := []]> m)
  | AtWrite n =>
      if bool_decide (n < length s)
      then (AtWrite (S n), <[tmp := take (S n) s]> m)
      else (AtMoveOld, m)
  | AtMoveOld =>
      (AtMoveTmp,
       if bool_decide (is_Some (m !! path)) then rename_entry path old m
       else m)
  | AtMoveTmp => (AtRemoveOld, rename_entry tmp path m)
  | AtRemoveOld =>
      (AtEnd, if bool_decide (is_Some (m !! old)) then delete old m else m)
  | AtEnd => c
  end.

(** The state [n] steps into a save of [self] to [path] that starts on
    the directory [m]. *)
Definition save_run (self : backend) (path : string)
    (m : gmap string bytes) (n : nat) : save_pc * gmap string bytes :=
  Nat.iter n (save_step (pickle self) path) (AtOpen, m).

End persistence.

(** ** Notions used to state the properties *)

(** A computation relates every state to the state it leaves, whether it
    returns or raises. *)
Definition preserves {S A} (R : relation S) (m : ST S A) : Prop :=
  ∀ w, R w (m w).2.

(** A computation that never raises. *)
Definition total {S A} (m : ST S A) : Prop :=
  ∀ w, ∃ a w', m w = (Ok a, w').

(** The user functions run so far, oldest first. *)
Definition runs (w : world) : list string :=
  omap (fun e => match e with EvRun n => Some n | EvDigest _ => None end)
       (trace w).

(** What a probe may change: the [_files] table, whole entries of
    [_call_files] that it drops, and the log of hashed files. *)
Record probe_frame (w w' : world) : Prop := ProbeFrame {
  pf_functions : _functions (db w') = _functions (db w);
  pf_function_calls : _function_calls (db w') = _function_calls (db w);
  pf_external_srcs : _external_srcs (db w') = _external_srcs (db w);
  pf_external_dsts : _external_dsts (db w') = _external_dsts (db w);
  pf_call_files : _call_files (db w') ⊆ _call_files (db w);
  pf_fs : fs w' = fs w;
  pf_now : now w' = now w;
  pf_stack : stack w' = stack w;
  pf_runs : runs w' = runs w
}.

(** What the body of a user function cannot reach. *)
Record body_frame (w w' : world) : Prop := BodyFrame {
  bf_function_calls : _function_calls (db w') = _function_calls (db w);
  bf_runs : runs w' = runs w
}.

(** A change of the tables only. *)
Record db_only (w w' : world) : Prop := DbOnly {
  do_fs : fs w' = fs w;
  do_now : now w' = now w;
  do_stack : stack w' = stack w;
  do_trace : trace w' = trace w
}.

(** A change that logs no run of a user function. *)
Definition same_runs (w w' : world) : Prop := runs w' = runs w.

(** A change that keeps the innermost frame. *)
Definition same_top (w w' : world) : Prop :=
  head (stack w') = head (stack w).

(** Outside the file names [F], [_files] and [_call_files] are as they
    were. *)
Definition files_outside (F : gset string) (w w' : world) : Prop :=
  ∀ f, f ∉ F →
    _files (db w') !! f = _files (db w) !! f ∧
    _call_files (db w') !! f = _call_files (db w) !! f.

(** No empty inner map in [_call_files]. *)
Definition call_files_wf (cf : gmap string (gmap pykey (gmap pykey string)))
    : Prop :=
  ∀ f m, cf !! f = Some m →
    m ≠ ∅ ∧ ∀ k m', m !! k = Some m' → m' ≠ ∅.

(** A change of the tables that keeps [call_files_wf]. *)
Definition keeps_wf (w w' : world) : Prop :=
  call_files_wf (_call_files (db w)) → call_files_wf (_call_files (db w')).

(** The short-circuit condition in the words of the specification: the
    wall time is at least one second past the modification time. *)
Definition at_least_one_second_past (t mtime : float) : bool :=
  PrimFloat.leb 1 (PrimFloat.sub t mtime).

(** The short-circuit condition of [_add_file]. *)
Definition more_than_one_second_past (t mtime : float) : bool :=
  PrimFloat.ltb 1 (PrimFloat.sub t mtime).

(** The world in which [Database.call] enters the user function: its
    frame is on the stack and the run is logged. *)
Definition entry_world (f : func) (p : prepared) (w : world) : world :=
  log (EvRun (fn_name f))
      (set_stack (cons (CallFrame (locals_at_entry f p))) w).

(** The cleanness conditions of the specification, read in the world [w]
    that [prepare] leaves. The destinations of the return value are what
    iterating over the converted result yields; an object is on disk when
    it names a file that is. *)
Definition clean (w : world) (return_type : option role) (dsts : gset value)
    (p : prepared) : Prop :=
  function_dirty p = false ∧
  call_id p ≠ None ∧
  call_file_digests p = [] ∧
  external_digests p = [] ∧
  external_dirty p = false ∧
  ∃ return_dsts,
    iterate (return_dsts_of return_type (old_result p)) = Ok return_dsts ∧
    ∀ d, d ∈ dsts ∨ d ∈ return_dsts ∨ d ∈ objects (external_dsts p) →
         is_Some (file_at w d).

(** The file names a body registers through
    [add_external_dependencies_to_call]. *)
Fixpoint registered_srcs (a : action) : list string :=
  match a with
  | AReturn _ | ARaise _ => []
  | AAddDeps srcs _ k => srcs ++ registered_srcs k
  | AWrite _ _ k | ARemove _ k | ASleep _ k => registered_srcs k
  end.

Fixpoint registered_dsts (a : action) : list string :=
  match a with
  | AReturn _ | ARaise _ => []
  | AAddDeps _ dsts k => dsts ++ registered_dsts k
  | AWrite _ _ k | ARemove _ k | ASleep _ k => registered_dsts k
  end.

(** The locals [l'] are the locals [l] after [srcs] and [dsts] were
    registered: the two sets grew by them, and the digest list by digests
    of some of [srcs]. *)
Definition registered_into (l l' : call_locals) (srcs dsts : list string)
    : Prop :=
  l_function_name l' = l_function_name l ∧
  l_call_id l' = l_call_id l ∧
  l_external_srcs l' = l_external_srcs l ∪ list_to_set srcs ∧
  l_external_dsts l' = l_external_dsts l ∪ list_to_set dsts ∧
  ∃ new, l_external_digests l' = l_external_digests l ++ new ∧
         Forall (fun sd => sd.1 ∈ srcs) new.

(** What holds at each point of the save machine that started on the
    directory [m0] to write the bytes [s]. *)
Definition save_inv (s : bytes) (path : string) (m0 : gmap string bytes)
    (c : save_pc * gmap string bytes) : Prop :=
  let tmp := path +:+ ".tmp" in
  match c.1 with
  | AtOpen => c.2 = m0
  | AtWrite n => (n ≤ length s)%nat ∧ c.2 = <[tmp := take n s]> m0
  | AtMoveOld => c.2 = <[tmp := s]> m0
  | AtMoveTmp => c.2 !! tmp = Some s
  | AtRemoveOld | AtEnd => c.2 !! path = Some s
  end.

(** ** Scenarios *)

(** A fresh process next to one source file. *)
Definition one_source_world : world :=
  initial_world (<["a.c" := FileStat 100 "d1"]> ∅) 200.

(** A file last modified at 1000.0, recorded with that time and its
    present content, probed at 1001.0. *)
Definition boundary_world : world :=
  World (Backend ∅ ∅ {["f" := (1000%float, "d")]} ∅ ∅ ∅)
        {["f" := FileStat 1000 "d"]} 1001 [] [].

(** The tables after one call of a function ["m.f"] that registered the
    header ["h.txt"] from its body. *)
Definition after_one_call : world :=
  (cache true "m.f" "dig" None ∅ VNone [] {["h.txt"]} ∅ [("h.txt", "hh")]
     one_source_world).2.

(** Scenario S1 of the specification: [add(ctx, 2, 3)], a function without
    roles, called once; and the tuple [prepare] returns for the second
    call. *)
Definition add_fn : func :=
  Func "m.add" "source of add" [] (fun _ => AReturn (VInt 5)).

Definition add_args : gmap string value :=
  {["a" := VInt 2; "b" := VInt 3]}.

Definition after_first_add : world :=
  (call add_fn add_args one_source_world).2.

Definition add_prepared : prepared :=
  Prepared false (Some 0) (VInt 5) [] false ∅ ∅ [].

(** The function ["m.f"] of [after_one_call], whose body now registers
    nothing, called after its header changed on disk; and the tuple
    [prepare] returns for that call. *)
Definition quiet_fn : func :=
  Func "m.f" "dig" [] (fun _ => AReturn VNone).

Definition header_changed : world :=
  set_fs (insert "h.txt" (FileStat 150 "h2")) after_one_call.

Definition header_prepared : prepared :=
  Prepared false (Some 0) VNone [] false {["h.txt"]} ∅ [("h.txt", "h2")].

(** A database file with a snapshot in it, and tables to save over it. *)
Definition old_snapshot : bytes := [Byte.x00].

Definition disk_with_snapshot : disk :=
  Disk {["build.db" := old_snapshot]} [].

(** The world after a call, whatever it returned. *)
Definition after_call (f : func) (bound : gmap string value) (w : world)
    : world :=
  (call f bound w).2.

(** Scenario S2: [wc(ctx, path: SRC)] counts the lines of a file. *)
Definition wc_fn (lines : Z) : func :=
  Func "m.wc" "source of wc" [("path", SRC)] (fun _ => AReturn (VInt lines)).

Definition wc_args : gmap string value := {["path" := VStr "a.c"]}.

(** Scenario S3: [write(ctx, path: DST, text)] writes its destination. *)
Definition write_fn : func :=
  Func "m.write" "source of write" [("path", DST)]
       (fun _ => AWrite "out" (FileStat 150 "hi") (AReturn (VStr "out"))).

Definition write_args : gmap string value :=
  {["path" := VStr "out"; "text" := VStr "hi"]}.

(** Scenario S4: [g(ctx)] before and after its source changed. *)
Definition g_fn (source : string) (result : Z) : func :=
  Func "m.g" source [] (fun _ => AReturn (VInt result)).

(** Scenario S6: [preprocess(ctx, src: SRC)] reads a header and registers
    it. *)
Definition preprocess_fn : func :=
  Func "m.preprocess" "source of preprocess" [("src", SRC)]
       (fun _ => AAddDeps ["h.txt"] [] (AReturn (VStr "a.i"))).

Definition preprocess_args : gmap string value := {["src" := VStr "a.c"]}.

Definition with_header : world :=
  set_fs (insert "h.txt" (FileStat 100 "h1")) one_source_world.

(** A function whose return value carries the role [DSTS] and that
    returns [None]: [outputs(ctx) -> DSTS]. *)
Definition outputs_fn : func :=
  Func "m.outputs" "source of outputs" [("return", DSTS)]
       (fun _ => AReturn VNone).

(** The world after the first call of it, and the tuple [prepare] returns
    for the second call. *)
Definition after_first_outputs : world :=
  (call outputs_fn ∅ one_source_world).2.

Definition outputs_prepared : prepared :=
  Prepared false (Some 0) VNone [] false ∅ ∅ [].

(** ** Notions for the further properties *)

(** [frame.f_code == ctx.db.call.__code__] *)
Definition is_call_frame (fr : frame) : bool :=
  match fr with
  | CallFrame _ => true
  | OtherFrame => false
  end.

(** A frame after [srcs] and [dsts] were registered: a frame of
    [Database.call] holds grown locals, any other frame is as it was. *)
Definition frame_registered (srcs dsts : list string) (fr fr' : frame)
    : Prop :=
  match fr, fr' with
  | CallFrame l, CallFrame l' => registered_into l l' srcs dsts
  | OtherFrame, OtherFrame => True
  | _, _ => False
  end.

(** A cached call of ["m.inner"] made from a helper that a cached call of
    ["m.outer"] called. *)
Definition nested_calls : world :=
  set_stack (fun _ => [CallFrame (CallLocals "m.inner" None [] ∅ ∅);
                       OtherFrame;
                       CallFrame (CallLocals "m.outer" (Some 0) [] ∅ ∅)])
            one_source_world.

(** What the loops of [_update_call_files] and [_update_external_files]
    leave in [_call_files]: one record per submitted digest, under the two
    keys as [_update_call_file] receives them. *)
Definition record_digests (call_id function_name : pykey)
    (digests : list (string * string))
    (cf : gmap string (gmap pykey (gmap pykey string)))
    : gmap string (gmap pykey (gmap pykey string)) :=
  foldl (fun cf sd => upsert3 sd.1 function_name call_id sd.2 cf) cf digests.

(** A change that records nothing for any function: the function digests,
    the call lists and the two external-dependency tables are as they
    were. *)
Record registry_frame (w w' : world) : Prop := RegistryFrame {
  rf_functions : _functions (db w') = _functions (db w);
  rf_function_calls : _function_calls (db w') = _function_calls (db w);
  rf_external_srcs : _external_srcs (db w') = _external_srcs (db w);
  rf_external_dsts : _external_dsts (db w') = _external_dsts (db w)
}.

(** A function whose body raises. *)
Definition failing_fn : func :=
  Func "m.fail" "source of fail" [] (fun _ => ARaise (UserError "boom")).

(** The registry entry [e] of a file agrees with the file on disk as far
    as [_add_file] looks: the entry holds the time and the digest the file
    has, or the times are equal and more than a second old. *)
Definition settled (filename : string) (w : world) (e : float * string)
    : Prop :=
  ∃ st, fs w !! filename = Some st ∧
        _files (db w) !! filename = Some e ∧
        (e = (st_mtime st, st_digest st) ∨
         PrimFloat.eqb (st_mtime st) e.1
           && more_than_one_second_past (now w) (st_mtime st) = true).

(** A file is clean for a call: its registry entry is settled, and the
    call-file index holds the digest of that entry under the two keys. *)
Definition clean_at (call_id function_name : pykey) (filename : string)
    (w : world) (dg : string) : Prop :=
  call_id ≠ KNone ∧
  (∃ e, settled filename w e ∧ e.2 = dg) ∧
  (_call_files (db w) !! filename)
    ≫= (fun datas : gmap pykey (gmap pykey string) =>
          datas !! function_name
            ≫= (fun m : gmap pykey string => m !! call_id))
  = Some dg.

(** The world of scenario S2 after the first [wc(ctx, "a.c")]. *)
Definition after_first_wc : world :=
  (call (wc_fn 10) wc_args one_source_world).2.

(** The digest that [_call_files] holds for a file under a function name
    and a call id, in the order [_check_call_file] looks them up. *)
Definition call_file_record
    (cf : gmap string (gmap pykey (gmap pykey string)))
    (filename : string) (function_name call_id : pykey) : option string :=
  (cf !! filename)
    ≫= (fun datas : gmap pykey (gmap pykey string) =>
          datas !! function_name
            ≫= (fun m : gmap pykey string => m !! call_id)).

(** A change that keeps every settled entry settled and every clean file
    clean. *)
Definition keeps_clean (w w' : world) : Prop :=
  (∀ s e, settled s w e → settled s w' e) ∧
  (∀ c n s dg, clean_at c n s w dg → clean_at c n s w' dg).

(** A change that leaves the tables alone. *)
Definition same_db (w w' : world) : Prop := db w' = db w.

(** The tables after [wc(ctx, "a.c")] was cached and the source of [wc]
    was edited: what [cache] leaves when the call is made again. *)
Definition after_edited_wc : world :=
  (cache true "m.wc" "edited source of wc" (Some 0) wc_args (VInt 10) [] ∅ ∅ []
     after_first_wc).2.

(** The two external-dependency tables hold call indices at the first
    level: no key there is a function name or [None]. *)
Definition keyed_by_call_index (d : backend) : Prop :=
  ∀ k, is_Some (_external_srcs d !! k) ∨ is_Some (_external_dsts d !! k) →
       ∃ i, k = KInt i.

(** A change that keeps the external tables keyed by call index. *)
Definition keeps_keyed (w w' : world) : Prop :=
  keyed_by_call_index (db w) → keyed_by_call_index (db w').

(** [wc(ctx, "gone.c")]: a call whose declared source is not on disk. *)
Definition gone_args : gmap string value := {["path" := VStr "gone.c"]}.

(** Outside the function [n], the function digests and the call lists
    are as they were. *)
Definition registry_outside (n : string) (w w' : world) : Prop :=
  ∀ g, g ≠ n →
    _functions (db w') !! g = _functions (db w) !! g ∧
    _function_calls (db w') !! g = _function_calls (db w) !! g.

(** ** Histories of the frontend

    What a build does to the database: cached calls, the two clearing
    requests, and the files and the clock changing in between. *)
Inductive session_step :=
  | CallStep (f : func) (bound : gmap string value)
  | ClearFunctionStep (name : string)
  | ClearFileStep (filename : string)
  | OutsideStep (files : gmap string file_stat) (time : float).

Definition run_step (s : session_step) (w : world) : world :=
  match s with
  | CallStep f bound => (call f bound w).2
  | ClearFunctionStep name => (clear_function name w).2
  | ClearFileStep filename => (clear_file filename w).2
  | OutsideStep files time => set_now time (set_fs (fun _ => files) w)
  end.

Definition run_session (steps : list session_step) (w : world) : world :=
  foldl (fun w s => run_step s w) w steps.

(** Every call list is non-empty, holds each bound-argument dictionary at
    most once, and belongs to a function whose digest is on record. *)
Definition calls_wf (d : backend) : Prop :=
  ∀ n datas, _function_calls d !! n = Some datas →
    datas ≠ [] ∧ NoDup datas.*1 ∧ is_Some (_functions d !! n).

(** Scenario S2 after ["a.c"] was edited. *)
Definition source_edited : world :=
  set_fs (insert "a.c" (FileStat 150 "d2")) after_first_wc.

(** The registry entry [e] of a file carries the digest of the content
    the file has on disk, whatever the two modification times. *)
Definition fresh (filename : string) (w : world) (e : float * string)
    : Prop :=
  ∃ st, fs w !! filename = Some st ∧
        _files (db w) !! filename = Some e ∧
        st_digest st = e.2.

(** A file is recorded for a call with the digest of its content. *)
Definition recorded_fresh (call_id function_name : pykey)
    (filename : string) (w : world) : Prop :=
  call_id ≠ KNone ∧
  ∃ e, fresh filename w e ∧
       call_file_record (_call_files (db w)) filename function_name call_id
         = Some e.2.

(** A change that keeps every file that is recorded with the digest of
    its content so recorded. *)
Definition keeps_fresh (w w' : world) : Prop :=
  ∀ c n s, recorded_fresh c n s w → recorded_fresh c n s w'.

(** The directory of scenario S2 after ["a.c"] was touched: a new
    modification time, the same content. *)
Definition touched_files : gmap string file_stat :=
  {["a.c" := FileStat 999 "d1"]}.

(** * Properties *)

(** ** Reasoning about computations *)

Lemma bind_ok {S A B} (m : ST S A) (k : A → ST S B) w a w' :
  m w = (Ok a, w') → bind m k w = k a w'.
Proof. intros E. unfold bind. by rewrite E. Qed.

Lemma bind_raise {S A B} (m : ST S A) (k : A → ST S B) w e w' :
  m w = (Raise e, w') → bind m k w = (Raise e, w').
Proof. intros E. unfold bind. by rewrite E. Qed.

Section preservation.
Context {S : Type} (R : relation S) `{!PreOrder R}.

Lemma preserves_ret {A} (a : A) : preserves R (ret a).
Proof. intros w. reflexivity. Qed.

Lemma preserves_raise {A} e : preserves R (raise (A := A) e).
Proof. intros w. reflexivity. Qed.

Lemma preserves_lift {A} (r : res A) : preserves R (lift r).
Proof. intros w. reflexivity. Qed.

Lemma preserves_gets {A} (f : S → A) : preserves R (gets f).
Proof. intros w. reflexivity. Qed.

Lemma preserves_modify (f : S → S) :
  (∀ w, R w (f w)) → preserves R (modify f).
Proof. intros H w. apply H. Qed.

Lemma preserves_bind {A B} (m : ST S A) (k : A → ST S B) :
  preserves R m → (∀ a, preserves R (k a)) → preserves R (bind m k).
Proof.
  intros Hm Hk w. unfold bind. specialize (Hm w).
  destruct (m w) as [[a|e] w1]; simpl in *; [|done].
  etrans; [exact Hm|apply Hk].
Qed.

Lemma preserves_catch {A} (m : ST S A) (h : exn → ST S A) :
  preserves R m → (∀ e, preserves R (h e)) → preserves R (catch m h).
Proof.
  intros Hm Hh w. unfold catch. specialize (Hm w).
  destruct (m w) as [[a|e] w1]; simpl in *; [done|].
  etrans; [exact Hm|apply Hh].
Qed.

Lemma preserves_for_each {A T} (l : list A) (body : A → T → ST S T) s :
  (∀ x t, preserves R (body x t)) → preserves R (for_each l body s).
Proof.
  intros Hb. revert s. induction l as [|x l IH]; intros s; simpl.
  - apply preserves_ret.
  - apply preserves_bind; [apply Hb|apply IH].
Qed.
End preservation.

Lemma preserves_weaken {S A} (R R' : relation S) (m : ST S A) :
  (∀ w w', R w w' → R' w w') → preserves R m → preserves R' m.
Proof. intros H Hm w. apply H, Hm. Qed.

(** One step of a preservation proof, by the shape of the computation. *)
Ltac preserves_step :=
  lazymatch goal with
  | |- PreOrder _ => apply _
  | |- preserves _ (bind _ _) => apply preserves_bind; [apply _| |intros ?]
  | |- preserves _ (ret _) => apply preserves_ret; apply _
  | |- preserves _ (raise _) => apply preserves_raise; apply _
  | |- preserves _ (lift _) => apply preserves_lift; apply _
  | |- preserves _ (gets _) => apply preserves_gets; apply _
  | |- preserves _ (catch _ _) => apply preserves_catch; [apply _| |intros ?]
  | |- preserves _ (for_each _ _ _) =>
      apply preserves_for_each; [apply _|intros ? ?]
  | |- preserves _ (modify _) => apply preserves_modify; intros ?
  | |- preserves _ (match ?x with _ => _ end) => destruct x
  end.

#[global] Instance probe_frame_preorder : PreOrder probe_frame.
Proof.
  split.
  - intros w. by split.
  - intros w1 w2 w3 [] []. split; try congruence. by etrans.
Qed.

Create HintDb frames.

Lemma store_file_frame filename data :
  preserves probe_frame (store_file filename data).
Proof. intros w. by split. Qed.

Lemma clear_file_frame filename : preserves probe_frame (clear_file filename).
Proof.
  unfold clear_file. repeat preserves_step; try (by split).
  split; simpl; try done. apply delete_subseteq.
Qed.

Lemma getmtime_frame filename : preserves probe_frame (getmtime filename).
Proof. intros w. unfold getmtime. by destruct (fs w !! filename). Qed.

Lemma runs_log_digest filename w : runs (log (EvDigest filename) w) = runs w.
Proof. unfold runs, log; simpl. rewrite omap_app; simpl. apply app_nil_r. Qed.

Lemma runs_log_run name w : runs (log (EvRun name) w) = runs w ++ [name].
Proof. unfold runs, log; simpl. by rewrite omap_app. Qed.

Lemma digest_frame filename : preserves probe_frame (digest filename).
Proof.
  intros w. unfold digest. destruct (fs w !! filename); [|done].
  split; try done. apply runs_log_digest.
Qed.

#[global] Hint Resolve store_file_frame clear_file_frame getmtime_frame
  digest_frame : frames.

Lemma _add_file_frame filename : preserves probe_frame (_add_file filename).
Proof.
  unfold _add_file, time_time.
  repeat first [ preserves_step | solve [ auto with frames ] ].
Qed.
#[global] Hint Resolve _add_file_frame : frames.

Lemma _check_call_file_frame c n filename :
  preserves probe_frame (_check_call_file c n filename).
Proof.
  unfold _check_call_file.
  repeat first [ preserves_step | solve [ auto with frames ] ].
Qed.
#[global] Hint Resolve _check_call_file_frame : frames.

Lemma _check_call_files_frame c n filenames :
  preserves probe_frame (_check_call_files c n filenames).
Proof.
  unfold _check_call_files, check_one_call_file.
  repeat first [ preserves_step | solve [ auto with frames ] ].
Qed.

Lemma check_one_external_src_frame c n src acc :
  preserves probe_frame (check_one_external_src c n src acc).
Proof.
  unfold check_one_external_src.
  repeat first [ preserves_step | solve [ auto with frames ] ].
Qed.
#[global] Hint Resolve check_one_external_src_frame : frames.

Lemma _check_external_files_frame c n :
  preserves probe_frame (_check_external_files c n).
Proof.
  unfold _check_external_files.
  repeat first [ preserves_step | solve [ auto with frames ] ].
Qed.

Lemma prepare_frame n d b srcs dsts :
  preserves probe_frame (prepare n d b srcs dsts).
Proof.
  unfold prepare, _check_function, _check_call.
  repeat first [ preserves_step
               | apply _check_call_files_frame
               | apply _check_external_files_frame
               | solve [ auto with frames ] ].
Qed.

(** ** The file probe *)

(** C3, as stated, fails at the boundary: the recorded and the present
    modification time agree and the wall time is exactly one second past
    it, yet the probe hashes the file again. *)
Lemma probe_rehashes_at_one_second :
  _files (db boundary_world) !! "f" = Some (1000%float, "d") ∧
  st_mtime <$> fs boundary_world !! "f" = Some 1000%float ∧
  at_least_one_second_past (now boundary_world) 1000 = true ∧
  trace (_add_file "f" boundary_world).2 = [EvDigest "f"].
Proof. repeat split; vm_compute; reflexivity. Qed.

(** C3, amended: for a file that is on disk, the probe behaves as follows.
    On first sight it stores [(mtime, digest)] and reports changed. On
    re-sight it reports unchanged without hashing exactly when the stat
    time equals the stored one and the wall time is strictly more than 1.0
    past it (in that case nothing at all changes); otherwise it hashes, and
    on an equal digest refreshes the stored time, keeps the stored digest
    and reports unchanged, while on a different digest it drops the
    [_call_files] entry of the file, stores the new pair and reports
    changed. *)
Theorem _add_file_spec filename w st :
  fs w !! filename = Some st →
  let mtime := st_mtime st in
  let d := st_digest st in
  let files := _files (db w) in
  let hashed files' call_files' :=
    World (Backend (_functions (db w)) (_function_calls (db w)) files'
             call_files' (_external_srcs (db w)) (_external_dsts (db w)))
          (fs w) (now w) (stack w) (trace w ++ [EvDigest filename]) in
  match files !! filename with
  | None =>
      _add_file filename w =
        (Ok (true, (mtime, d)),
         hashed (<[filename := (mtime, d)]> files) (_call_files (db w)))
  | Some (old_mtime, old_digest) =>
      if PrimFloat.eqb mtime old_mtime
         && more_than_one_second_past (now w) mtime
      then _add_file filename w = (Ok (false, (old_mtime, old_digest)), w)
      else if bool_decide (d = old_digest)
      then
        _add_file filename w =
          (Ok (false, (old_mtime, old_digest)),
           hashed (<[filename := (mtime, old_digest)]> files)
                  (_call_files (db w)))
      else
        _add_file filename w =
          (Ok (true, (mtime, d)),
           hashed (<[filename := (mtime, d)]> files)
                  (delete filename (_call_files (db w))))
  end.
Proof.
  intros Hfs. cbn zeta.
  destruct w as [[fns calls files cf es ed] fsys t st0 tr]; simpl in *.
  unfold _add_file, bind, getmtime, digest, gets, time_time, store_file,
    clear_file, modify, ret, more_than_one_second_past; simpl.
  rewrite Hfs; simpl.
  destruct (files !! filename) as [[old_mtime old_digest]|] eqn:Hfiles;
    simpl; [|by rewrite Hfs].
  destruct (PrimFloat.eqb (st_mtime st) old_mtime); simpl.
  - destruct (PrimFloat.ltb 1 (PrimFloat.sub t (st_mtime st))); simpl;
      [done|].
    rewrite Hfs; simpl. case_bool_decide; simpl; [done|].
    unfold set_db, log; simpl. by rewrite insert_delete_eq.
  - rewrite Hfs; simpl. case_bool_decide; simpl; [done|].
    unfold set_db, log; simpl. by rewrite insert_delete_eq.
Qed.

(** An instance: a file first seen is stored and reported changed. *)
Lemma _add_file_spec_first_sight :
  _add_file "a.c" one_source_world =
    (Ok (true, (100%float, "d1")),
     World (Backend ∅ ∅ {["a.c" := (100%float, "d1")]} ∅ ∅ ∅)
           (fs one_source_world) 200 [] [EvDigest "a.c"]).
Proof.
  exact (_add_file_spec "a.c" one_source_world (FileStat 100 "d1")
           ltac:(vm_compute; reflexivity)).
Defined.

(** ** Files that are not on disk *)

Lemma _add_file_missing filename w :
  fs w !! filename = None → _add_file filename w = (Raise OSError, w).
Proof.
  intros H. unfold _add_file, bind, getmtime. by rewrite H.
Qed.

Lemma _add_file_present filename w st :
  fs w !! filename = Some st →
  ∃ r w', _add_file filename w = (Ok r, w').
Proof.
  intros H.
  unfold _add_file, bind, getmtime, digest, gets, time_time, store_file,
    clear_file, modify, ret; simpl.
  rewrite H; simpl.
  destruct (_files (db w) !! filename) as [[om od]|]; simpl;
    [|rewrite H; by eauto].
  destruct (PrimFloat.eqb (st_mtime st) om); simpl.
  - destruct (PrimFloat.ltb _ _); simpl; [by eauto|].
    rewrite H; simpl. destruct (bool_decide _); by eauto.
  - rewrite H; simpl. destruct (bool_decide _); by eauto.
Qed.

Lemma _check_call_file_missing c n filename w :
  fs w !! filename = None →
  _check_call_file c n filename w = (Raise OSError, w).
Proof.
  intros H. unfold _check_call_file.
  by rewrite (bind_raise _ _ _ _ _ (_add_file_missing _ _ H)).
Qed.

Lemma _check_call_file_present c n filename w :
  is_Some (fs w !! filename) →
  ∃ r w', _check_call_file c n filename w = (Ok r, w').
Proof.
  intros [st H]. destruct (_add_file_present _ _ _ H) as (r & w' & E).
  unfold _check_call_file. rewrite (bind_ok _ _ _ _ _ E).
  destruct c; [by eauto| |]; unfold bind, gets; simpl;
    (destruct (_call_files (db w') !! filename); [|by eauto]);
    (destruct (_ ≫= _); [|by eauto]);
    destruct (bool_decide _); by eauto.
Qed.

(** The loop over the declared sources returns when every file is on
    disk. *)
Lemma _check_call_files_present c n filenames digests w :
  (∀ s, s ∈ filenames → is_Some (fs w !! s)) →
  ∃ r w', for_each filenames (check_one_call_file c n) digests w = (Ok r, w').
Proof.
  revert digests w. induction filenames as [|f l IH]; intros digests w Hall.
  - by eexists _, _.
  - destruct (_check_call_file_present c n f w) as (r & w1 & E).
    { apply Hall. left. }
    pose proof (_check_call_file_frame c n f w) as Hf. rewrite E in Hf.
    simpl in Hf.
    assert (∀ s, s ∈ l → is_Some (fs w1 !! s)) as Hall1.
    { intros s Hs. rewrite (pf_fs _ _ Hf). apply Hall. by right. }
    simpl. unfold check_one_call_file at 1.
    unfold bind at 1 2. rewrite E.
    destruct r.1; simpl; apply IH, Hall1.
Qed.

(** It raises [OSError] as soon as one of them is not. *)
Lemma _check_call_files_missing c n filenames digests w s :
  s ∈ filenames → fs w !! s = None →
  (for_each filenames (check_one_call_file c n) digests w).1 = Raise OSError.
Proof.
  revert digests w. induction filenames as [|f l IH]; intros digests w Hin Hs.
  - by apply elem_of_nil in Hin.
  - simpl. unfold check_one_call_file at 1. unfold bind at 1 2.
    destruct (fs w !! f) as [st|] eqn:Hf.
    + destruct (_check_call_file_present c n f w) as (r & w1 & E); [by eauto|].
      pose proof (_check_call_file_frame c n f w) as Hfr. rewrite E in Hfr.
      simpl in Hfr. rewrite E.
      assert (s ∈ l) as Hin'.
      { apply elem_of_cons in Hin as [->|]; [congruence|done]. }
      destruct r.1; simpl; apply IH; try done; by rewrite (pf_fs _ _ Hfr).
    + by rewrite (_check_call_file_missing _ _ _ _ Hf).
Qed.

(** One turn of the loop over the recorded external sources never raises;
    a missing file sets the flag, and the flag is never reset. *)
Lemma check_one_external_src_ok c n src acc w :
  ∃ acc' w', check_one_external_src c n src acc w = (Ok acc', w') ∧
    (acc.1 = true → acc'.1 = true) ∧
    (fs w !! src = None → acc'.1 = true).
Proof.
  unfold check_one_external_src, catch, bind.
  destruct (fs w !! src) as [st|] eqn:Hs.
  - destruct (_check_call_file_present c n src w) as (r & w1 & E); [by eauto|].
    rewrite E. destruct r.1; simpl; eexists _, _; naive_solver.
  - rewrite (_check_call_file_missing _ _ _ _ Hs). simpl.
    eexists _, _; naive_solver.
Qed.

Lemma check_external_srcs_ok c n srcs acc w :
  ∃ acc' w', for_each srcs (check_one_external_src c n) acc w = (Ok acc', w') ∧
    (acc.1 = true → acc'.1 = true) ∧
    (∀ s, s ∈ srcs → fs w !! s = None → acc'.1 = true).
Proof.
  revert acc w. induction srcs as [|src l IH]; intros acc w.
  - eexists _, _. split; [done|]. split; [done|].
    intros s Hs. by apply elem_of_nil in Hs.
  - destruct (check_one_external_src_ok c n src acc w)
      as (acc1 & w1 & E & Hkeep & Hmiss).
    assert (fs w1 = fs w) as Hfs.
    { pose proof (check_one_external_src_frame c n src acc w) as Hp.
      rewrite E in Hp. apply Hp. }
    destruct (IH acc1 w1) as (acc2 & w2 & E2 & Hkeep2 & Hmiss2).
    exists acc2, w2. split; [|split].
    + simpl. by rewrite (bind_ok _ _ _ _ _ E).
    + auto.
    + intros s Hin Hs. apply elem_of_cons in Hin as [->|Hin]; [auto|].
      apply (Hmiss2 s Hin). by rewrite Hfs.
Qed.

Lemma _check_external_files_ok c n w :
  ∃ e w', _check_external_files c n w = (Ok e, w') ∧
    ∀ s, s ∈ e.1.1.2 → fs w !! s = None → e.1.1.1 = true.
Proof.
  unfold _check_external_files. unfold bind at 1, gets at 1.
  destruct (_external_srcs (db w) !! n ≫= _) as [srcs|].
  - destruct (check_external_srcs_ok c n (elements srcs) (false, []) w)
      as (acc & w1 & E & _ & Hmiss).
    unfold bind at 1 2. rewrite E. simpl.
    eexists _, _. split; [done|]. simpl.
    intros s Hs. apply Hmiss. by apply elem_of_elements.
  - eexists _, _. split; [done|]. simpl. intros s Hs. set_solver.
Qed.

(** C7, as stated, fails for a declared source: [prepare] raises. *)
Lemma prepare_raises_on_missing_declared_src :
  fs one_source_world !! "gone.c" = None ∧
  (prepare "m.f" "dig" ∅ {["gone.c"]} ∅ one_source_world).1 = Raise OSError.
Proof. split; vm_compute; reflexivity. Qed.

(** C7, amended: a previously recorded external source that is no longer on
    disk never makes [prepare] raise; it sets [external_dirty], which
    fails the first test of [Database.call] and so forces the rerun. A
    declared source that is not on disk makes [prepare] raise [OSError]
    to its caller. *)
Theorem prepare_missing_files n d b srcs dsts w :
  ((∃ s, s ∈ srcs ∧ fs w !! s = None) →
     (prepare n d b srcs dsts w).1 = Raise OSError) ∧
  ((∀ s, s ∈ srcs → is_Some (fs w !! s)) →
     ∃ p, (prepare n d b srcs dsts w).1 = Ok p ∧
       ∀ s, s ∈ external_srcs p → fs w !! s = None →
         external_dirty p = true ∧ has_result p = false).
Proof.
  unfold prepare.
  assert (∃ fd, _check_function n d w = (Ok fd, w)) as [fd Efd].
  { unfold _check_function, bind, gets; simpl.
    destruct (_functions (db w) !! n); [|by eauto].
    destruct (bool_decide _); by eauto. }
  assert (∃ c, _check_call n b w = (Ok c, w)) as [c Ec].
  { unfold _check_call, bind, gets; simpl.
    destruct (_function_calls (db w) !! n); [|by eauto].
    destruct (find_call _ _ _) as [[]|]; by eauto. }
  rewrite (bind_ok _ _ _ _ _ Efd), (bind_ok _ _ _ _ _ Ec).
  split.
  - intros (s & Hin & Hs). unfold bind at 1.
    pose proof (_check_call_files_missing (key_of_call_id c.1) (KStr n)
                  (elements srcs) [] w s) as Hm.
    specialize (Hm ltac:(by apply elem_of_elements) Hs).
    unfold _check_call_files.
    destruct (for_each _ _ _ _) as [[|e] w1]; simpl in *; [done|].
    by injection Hm as ->.
  - intros Hall.
    destruct (_check_call_files_present (key_of_call_id c.1) (KStr n)
                (elements srcs) [] w) as (digests & w1 & E1).
    { intros s Hs. apply Hall. by apply elem_of_elements. }
    pose proof (_check_call_files_frame (key_of_call_id c.1) (KStr n)
                  (elements srcs) w) as Hfr.
    unfold _check_call_files in *. rewrite E1 in Hfr. simpl in Hfr.
    rewrite (bind_ok _ _ _ _ _ E1).
    destruct (_check_external_files_ok (KStr n) (key_of_call_id c.1) w1)
      as (e & w2 & E2 & Hdirty).
    rewrite (bind_ok _ _ _ _ _ E2). eexists. split; [done|]. simpl.
    intros s Hin Hs. rewrite <- (pf_fs _ _ Hfr) in Hs.
    rewrite (Hdirty s Hin Hs). split; [done|].
    unfold has_result; simpl. by rewrite !orb_true_r.
Qed.

(** An instance: the header that ["m.f"] registered is gone from the disk;
    [prepare] returns, with [external_dirty] set. *)
Lemma prepare_missing_files_vanished_header :
  fs after_one_call !! "h.txt" = None ∧
  ∃ p, (prepare "m.f" "dig" ∅ ∅ ∅ after_one_call).1 = Ok p ∧
       "h.txt" ∈ external_srcs p ∧
       external_dirty p = true ∧ has_result p = false.
Proof.
  split; [by vm_compute|].
  destruct (proj2 (prepare_missing_files "m.f" "dig" ∅ ∅ ∅ after_one_call))
    as (p & Hp & Hdirty).
  { intros s Hs. by apply elem_of_empty in Hs. }
  exists p. split; [exact Hp|].
  assert ("h.txt" ∈ external_srcs p) as Hin.
  { assert ((prepare "m.f" "dig" ∅ ∅ ∅ after_one_call).1
            = Ok (Prepared false (Some 0) VNone [] true {["h.txt"]} ∅ []))
      as Hc by (vm_compute; reflexivity).
    rewrite Hc in Hp. injection Hp as <-. simpl.
    by apply elem_of_singleton. }
  split; [exact Hin|]. apply (Hdirty "h.txt" Hin). by vm_compute.
Defined.

(** ** [prepare] and the tables *)

#[global] Instance files_outside_preorder F : PreOrder (files_outside F).
Proof.
  split.
  - by intros w f Hf.
  - intros w1 w2 w3 H12 H23 f Hf.
    destruct (H23 f Hf) as [-> ->]. by apply H12.
Qed.

Lemma files_outside_mono (F F' : gset string) w w' :
  F ⊆ F' → files_outside F w w' → files_outside F' w w'.
Proof. intros Hsub H f Hf. apply H. set_solver. Qed.

Lemma store_file_outside filename data :
  preserves (files_outside {[filename]}) (store_file filename data).
Proof.
  intros w f Hf. simpl. rewrite lookup_insert_ne; [done|set_solver].
Qed.

Lemma clear_file_outside filename :
  preserves (files_outside {[filename]}) (clear_file filename).
Proof.
  intros w f Hf. simpl. rewrite !lookup_delete_ne; [done|set_solver..].
Qed.

Lemma getmtime_outside F filename :
  preserves (files_outside F) (getmtime filename).
Proof. intros w. unfold getmtime. by destruct (fs w !! filename). Qed.

Lemma digest_outside F filename :
  preserves (files_outside F) (digest filename).
Proof. intros w. unfold digest. by destruct (fs w !! filename). Qed.

Lemma _add_file_outside filename :
  preserves (files_outside {[filename]}) (_add_file filename).
Proof.
  unfold _add_file, time_time.
  repeat first [ preserves_step
               | apply getmtime_outside
               | apply digest_outside
               | apply store_file_outside
               | apply clear_file_outside ].
Qed.

Lemma _check_call_file_outside c n filename :
  preserves (files_outside {[filename]}) (_check_call_file c n filename).
Proof.
  unfold _check_call_file.
  repeat first [ preserves_step | apply _add_file_outside ].
Qed.

(** A loop whose turn for [x] stays within [{[x]}] stays within the
    names of the list. *)
Lemma for_each_outside {T} (l : list string) (body : string → T → M T) t :
  (∀ x t, preserves (files_outside {[x]}) (body x t)) →
  preserves (files_outside (list_to_set l)) (for_each l body t).
Proof.
  intros Hb. revert t. induction l as [|x l IH]; intros t; simpl.
  - apply preserves_ret; apply _.
  - apply preserves_bind; [apply _| |].
    + eapply preserves_weaken; [|apply Hb].
      intros w w'. apply files_outside_mono. set_solver.
    + intros t'. eapply preserves_weaken; [|apply IH].
      intros w w'. apply files_outside_mono. set_solver.
Qed.

Lemma _check_call_files_outside c n filenames :
  preserves (files_outside (list_to_set filenames))
    (_check_call_files c n filenames).
Proof.
  unfold _check_call_files. apply for_each_outside. intros x t.
  unfold check_one_call_file.
  repeat first [ preserves_step | apply _check_call_file_outside ].
Qed.

Lemma check_one_external_src_outside c n src acc :
  preserves (files_outside {[src]}) (check_one_external_src c n src acc).
Proof.
  unfold check_one_external_src.
  repeat first [ preserves_step | apply _check_call_file_outside ].
Qed.

(** [_check_external_files] probes the recorded sources it returns. *)
Lemma _check_external_files_outside c n w e w' :
  _check_external_files c n w = (Ok e, w') → files_outside e.1.1.2 w w'.
Proof.
  unfold _check_external_files. unfold bind at 1, gets at 1.
  destruct (_external_srcs (db w) !! n ≫= _) as [srcs|].
  - pose proof (for_each_outside (elements srcs)
                  (check_one_external_src c n) (false, [])
                  (check_one_external_src_outside c n) w) as Hout.
    destruct (check_external_srcs_ok c n (elements srcs) (false, []) w)
      as (acc & w1 & E & _).
    rewrite E in Hout. unfold bind at 1 2. rewrite E. simpl in *.
    intros [= <- <-]. simpl.
    eapply files_outside_mono; [|exact Hout].
    intros x. by rewrite elem_of_list_to_set, elem_of_elements.
  - simpl. intros [= <- <-]. reflexivity.
Qed.

(** What [prepare] writes, it writes under the names of the files it
    probes: the declared sources and, when it gets to them, the recorded
    external sources it returns. *)
Lemma prepare_outside n d b srcs dsts w :
  match (prepare n d b srcs dsts w).1 with
  | Ok p => files_outside (srcs ∪ external_srcs p) w
  | Raise _ => files_outside srcs w
  end (prepare n d b srcs dsts w).2.
Proof.
  unfold prepare.
  assert (∃ fd, _check_function n d w = (Ok fd, w)) as [fd Efd].
  { unfold _check_function, bind, gets; simpl.
    destruct (_functions (db w) !! n); [|by eauto].
    destruct (bool_decide _); by eauto. }
  assert (∃ c, _check_call n b w = (Ok c, w)) as [c Ec].
  { unfold _check_call, bind, gets; simpl.
    destruct (_function_calls (db w) !! n); [|by eauto].
    destruct (find_call _ _ _) as [[]|]; by eauto. }
  rewrite !(bind_ok _ _ _ _ _ Efd), !(bind_ok _ _ _ _ _ Ec).
  pose proof (_check_call_files_outside (key_of_call_id c.1) (KStr n)
                (elements srcs) w) as H1.
  assert (files_outside srcs w
            (_check_call_files (key_of_call_id c.1) (KStr n)
               (elements srcs) w).2) as H1'.
  { eapply files_outside_mono; [|exact H1].
    intros x. by rewrite elem_of_list_to_set, elem_of_elements. }
  clear H1.
  destruct (_check_call_files _ _ _ w) as [[digests|e] w1] eqn:E1.
  - rewrite !(bind_ok _ _ _ _ _ E1). simpl in H1'.
    destruct (_check_external_files_ok (KStr n) (key_of_call_id c.1) w1)
      as (e & w2 & E2 & _).
    rewrite !(bind_ok _ _ _ _ _ E2). simpl.
    pose proof (_check_external_files_outside _ _ _ _ _ E2) as H2.
    etrans.
    + eapply files_outside_mono; [|exact H1']. set_solver.
    + eapply files_outside_mono; [|exact H2]. set_solver.
  - rewrite !(bind_raise _ _ _ _ _ E1). exact H1'.
Qed.


(** C2, as stated, fails: [prepare] on a fresh backend with one declared
    source records that file in [_files]. *)
Lemma prepare_writes_files :
  _files (db one_source_world) !! "a.c" = None ∧
  _files (db (prepare "m.f" "dig" ∅ {["a.c"]} ∅ one_source_world).2) !! "a.c"
    = Some (100%float, "d1").
Proof. split; vm_compute; reflexivity. Qed.

(** C2, amended: [prepare] returns its eight-component tuple or raises, and
    either way leaves [_functions], [_function_calls], [_external_srcs] and
    [_external_dsts] as they were; the file system, the clock and the stack
    are not touched. It does write: to [_files], and of [_call_files] it
    can drop whole per-file entries, in both tables only under the names
    of the files it probes (the declared sources and the recorded external
    sources it returns). *)
Theorem prepare_frame_tables n d b srcs dsts w :
  let r := prepare n d b srcs dsts w in
  _functions (db r.2) = _functions (db w) ∧
  _function_calls (db r.2) = _function_calls (db w) ∧
  _external_srcs (db r.2) = _external_srcs (db w) ∧
  _external_dsts (db r.2) = _external_dsts (db w) ∧
  _call_files (db r.2) ⊆ _call_files (db w) ∧
  fs r.2 = fs w ∧ now r.2 = now w ∧ stack r.2 = stack w ∧
  files_outside
    (match r.1 with Ok p => srcs ∪ external_srcs p | Raise _ => srcs end)
    w r.2.
Proof.
  cbn zeta. destruct (prepare_frame n d b srcs dsts w).
  repeat (split; [done|]).
  pose proof (prepare_outside n d b srcs dsts w) as H.
  by destruct (prepare n d b srcs dsts w).1.
Qed.

(** ** [add_external_dependencies_to_call] outside a cached call *)

Lemma walk_frames_no_call frames i srcs dsts w :
  Forall (fun fr => fr = OtherFrame) frames →
  walk_frames frames i srcs dsts w = (Raise ValueError, w).
Proof.
  intros H. revert i. induction H as [|fr l -> _ IH]; intros i; [done|].
  apply IH.
Qed.

(** With no frame of [Database.call] on the stack the operation returns
    normally and changes nothing. *)
Lemma add_external_dependencies_without_call srcs dsts w :
  Forall (fun fr => fr = OtherFrame) (stack w) →
  add_external_dependencies_to_call srcs dsts w = (Ok tt, w).
Proof.
  intros H. unfold add_external_dependencies_to_call, catch, bind, gets.
  simpl. by rewrite walk_frames_no_call.
Qed.

(** C8: the code at the failing input. From a stack that holds no frame of
    [Database.call], registering a source returns [None] and leaves the
    world as it was: no usage error is raised. *)
Lemma add_external_dependencies_outside_call_is_silent :
  stack one_source_world = [] ∧
  add_external_dependencies_to_call ["h.txt"] [] one_source_world
    = (Ok tt, one_source_world).
Proof.
  split; [done|]. by apply add_external_dependencies_without_call.
Qed.

(** ** Clearing a function *)

(** X1: what [clear_function] does remove: the four entries under the
    name, and the name from every per-file map. *)
Theorem clear_function_removes_name name w :
  let d := db (clear_function name w).2 in
  _functions d !! name = None ∧
  _function_calls d !! name = None ∧
  _external_srcs d !! KStr name = None ∧
  _external_dsts d !! KStr name = None ∧
  ∀ f m, _call_files d !! f = Some m → m !! KStr name = None.
Proof.
  unfold clear_function, bind, gets, modify, set_db; simpl.
  rewrite !lookup_delete_eq. repeat split.
  intros f m Hm. unfold prune_call_files in Hm.
  apply map_lookup_filter_Some in Hm as [Hm _].
  rewrite lookup_fmap in Hm.
  destruct (_call_files (db w) !! f) as [v|]; simpl in Hm; [|done].
  injection Hm as <-. apply lookup_delete_eq.
Qed.

(** C6: the code at the failing input. [cache] files the external sources
    and their digests under the call id first and the function name
    second, so after [clear_function] the tables still hold the header
    that the cleared function registered. *)
Lemma clear_function_keeps_external_records :
  let d := db (clear_function "m.f" after_one_call).2 in
  _functions d !! "m.f" = None ∧
  _external_srcs d !! KInt 0 = Some {[KStr "m.f" := {["h.txt"]}]} ∧
  _external_dsts d !! KInt 0 = Some {[KStr "m.f" := ∅]} ∧
  _call_files d !! "h.txt" = Some {[KInt 0 := {[KStr "m.f" := "hh"]}]}.
Proof. repeat split; vm_compute; reflexivity. Qed.

(** ** No empty inner map in [_call_files] *)

#[global] Instance keeps_wf_preorder : PreOrder keeps_wf.
Proof. split; unfold keeps_wf; [intros w|intros w1 w2 w3]; tauto. Qed.

Lemma call_files_wf_empty : call_files_wf ∅.
Proof. intros f m H. by rewrite lookup_empty in H. Qed.

Lemma call_files_wf_subseteq cf cf' :
  cf' ⊆ cf → call_files_wf cf → call_files_wf cf'.
Proof.
  intros Hsub Hwf f m Hm. apply (Hwf f).
  by eapply lookup_weaken.
Qed.

Lemma probe_frame_keeps_wf w w' : probe_frame w w' → keeps_wf w w'.
Proof.
  intros H Hwf. eapply call_files_wf_subseteq; [|exact Hwf].
  apply (pf_call_files _ _ H).
Qed.

Lemma upsert3_wf filename (k1 k2 : pykey) (v : string) cf :
  call_files_wf cf → call_files_wf (upsert3 filename k1 k2 v cf).
Proof.
  intros Hwf f m. unfold upsert3.
  destruct (decide (filename = f)) as [->|Hne].
  - rewrite lookup_insert_eq. intros [= <-]. split.
    + apply insert_non_empty.
    + intros k m'. destruct (decide (k1 = k)) as [->|Hk].
      * rewrite lookup_insert_eq. intros [= <-]. apply insert_non_empty.
      * rewrite lookup_insert_ne by done.
        destruct (cf !! f) as [m1|] eqn:E; simpl.
        -- intros Hm'. by apply (Hwf f m1 E) in Hm'.
        -- by rewrite lookup_empty.
  - rewrite lookup_insert_ne by done. apply Hwf.
Qed.

(** The pruning loop of [clear_function] leaves no empty per-file map,
    whatever it starts from, and keeps the inner maps it does not delete. *)
Lemma prune_call_files_wf name cf :
  call_files_wf cf → call_files_wf (prune_call_files name cf).
Proof.
  intros Hwf f m Hm. unfold prune_call_files in Hm.
  apply map_lookup_filter_Some in Hm as [Hm Hne]. simpl in Hne.
  rewrite lookup_fmap in Hm.
  destruct (cf !! f) as [v|] eqn:E; simpl in Hm; [|done].
  injection Hm as <-. split; [done|].
  intros k m' Hk. destruct (decide (name = k)) as [->|Hnk].
  - by rewrite lookup_delete_eq in Hk.
  - rewrite lookup_delete_ne in Hk by done. by apply (Hwf f v E) in Hk.
Qed.

Lemma _update_call_file_keeps_wf c n filename d :
  preserves keeps_wf (_update_call_file c n filename d).
Proof. intros w Hwf. by apply upsert3_wf. Qed.

Lemma clear_function_keeps_wf name : preserves keeps_wf (clear_function name).
Proof. intros w Hwf. by apply prune_call_files_wf. Qed.

Lemma clear_file_keeps_wf filename : preserves keeps_wf (clear_file filename).
Proof. intros w. apply probe_frame_keeps_wf, clear_file_frame. Qed.

Lemma prepare_keeps_wf n d b srcs dsts :
  preserves keeps_wf (prepare n d b srcs dsts).
Proof. intros w. apply probe_frame_keeps_wf, prepare_frame. Qed.

Lemma cache_keeps_wf fd n d c b r cf es ed eg :
  preserves keeps_wf (cache fd n d c b r cf es ed eg).
Proof.
  unfold cache, _update_function, _update_call, store_calls,
    _update_call_files, _update_external_files.
  repeat first [ preserves_step
               | apply clear_function_keeps_wf
               | apply _update_call_file_keeps_wf
               | by intros ? ].
Qed.

Lemma serve_keeps_wf r w : keeps_wf w (serve r w).
Proof.
  destruct r; simpl.
  - apply prepare_keeps_wf.
  - apply cache_keeps_wf.
  - apply clear_function_keeps_wf.
  - apply clear_file_keeps_wf.
  - by intros ?.
Qed.

Lemma serve_all_keeps_wf rs w : keeps_wf w (serve_all rs w).
Proof.
  revert w. induction rs as [|r rs IH]; intros w; simpl.
  - done.
  - etrans; [apply serve_keeps_wf|apply IH].
Qed.

(** C10: from an empty backend, after any history of [prepare], [cache],
    [clear_function] and [clear_file] requests, with the files and the
    clock changing at will in between, every file name in [_call_files]
    maps to a non-empty per-function map, and every key of such a map to a
    non-empty map; and [clear_function] leaves no file name whose map it
    emptied. *)
Theorem call_files_never_hold_empty_maps rs files time :
  call_files_wf (_call_files (db (serve_all rs (initial_world files time))))
  ∧ ∀ name w f, _call_files (db (clear_function name w).2) !! f ≠ Some ∅.
Proof.
  split.
  - apply serve_all_keeps_wf, call_files_wf_empty.
  - intros name w f Hf. simpl in Hf. unfold prune_call_files in Hf.
    by apply map_lookup_filter_Some in Hf as [_ Hne].
Qed.

(** ** The frontend *)

Lemma total_ret {S A} (a : A) : total (S := S) (ret a).
Proof. intros w. by eexists _, _. Qed.

Lemma total_gets {S A} (f : S → A) : total (gets f).
Proof. intros w. by eexists _, _. Qed.

Lemma total_modify {S} (f : S → S) : total (modify f).
Proof. intros w. by eexists _, _. Qed.

Lemma total_bind {S A B} (m : ST S A) (k : A → ST S B) :
  total m → (∀ a, total (k a)) → total (bind m k).
Proof.
  intros Hm Hk w. destruct (Hm w) as (a & w1 & E).
  rewrite (bind_ok _ _ _ _ _ E). apply Hk.
Qed.

Lemma total_for_each {S A T} (l : list A) (body : A → T → ST S T) t :
  (∀ x t, total (body x t)) → total (for_each l body t).
Proof.
  intros Hb. revert t. induction l as [|x l IH]; intros t; simpl.
  - apply total_ret.
  - apply total_bind; [apply Hb|apply IH].
Qed.

Ltac total_step :=
  lazymatch goal with
  | |- total (bind _ _) => apply total_bind; [|intros ?]
  | |- total (ret _) => apply total_ret
  | |- total (gets _) => apply total_gets
  | |- total (modify _) => apply total_modify
  | |- total (for_each _ _ _) => apply total_for_each; intros ? ?
  | |- total (match ?x with _ => _ end) => destruct x
  end.

Lemma clear_function_total name : total (clear_function name).
Proof. unfold clear_function. repeat total_step. Qed.

Lemma _update_function_total n d : total (_update_function n d).
Proof.
  unfold _update_function.
  repeat first [ total_step | apply clear_function_total ].
Qed.

Lemma _update_call_files_total c n digests :
  total (_update_call_files c n digests).
Proof. unfold _update_call_files, _update_call_file. repeat total_step. Qed.

Lemma _update_external_files_total c n srcs dsts digests :
  total (_update_external_files c n srcs dsts digests).
Proof.
  unfold _update_external_files, _update_call_file. repeat total_step.
Qed.

#[global] Instance db_only_preorder : PreOrder db_only.
Proof.
  split.
  - intros w. by split.
  - intros w1 w2 w3 [] []. split; congruence.
Qed.

#[global] Instance body_frame_preorder : PreOrder body_frame.
Proof.
  split.
  - intros w. by split.
  - intros w1 w2 w3 [] []. split; congruence.
Qed.

Lemma probe_frame_body_frame w w' : probe_frame w w' → body_frame w w'.
Proof. intros []. by split. Qed.

Lemma db_only_runs w w' : db_only w w' → runs w' = runs w.
Proof. intros []. unfold runs. congruence. Qed.

Lemma set_db_only f w : db_only w (set_db f w).
Proof. by split. Qed.

Lemma cache_db_only fd n d c b r cf es ed eg :
  preserves db_only (cache fd n d c b r cf es ed eg).
Proof.
  unfold cache, _update_function, clear_function, _update_call, store_calls,
    _update_call_files, _update_external_files, _update_call_file.
  repeat first [ preserves_step | apply set_db_only ].
Qed.

(** [find_call] returns an index into the list it scans. *)
Lemma find_call_lt bound datas start i r :
  find_call bound datas start = Some (i, r) → i < start + length datas.
Proof.
  revert start. induction datas as [|[ob res] l IH]; intros start; simpl.
  - done.
  - case_bool_decide.
    + intros [= <- <-]. lia.
    + intros H'. apply IH in H'. lia.
Qed.

(** It returns a record with equal bound arguments, the first one. *)
Lemma find_call_lookup bound datas start i r :
  find_call bound datas start = Some (i, r) →
  ∃ j, i = start + j ∧ datas !! j = Some (bound, r).
Proof.
  revert start. induction datas as [|[ob res] l IH]; intros start; simpl.
  - done.
  - case_bool_decide as Hb.
    + intros [= <- <-]. exists 0. split; [lia|]. by rewrite Hb.
    + intros H'. apply IH in H' as (j & -> & Hj). exists (S j).
      split; [lia|done].
Qed.

(** [_update_call] raises only on an index past the end of the list. *)
Lemma _update_call_ok n c b r w :
  (∀ i datas, c = Some i → _function_calls (db w) !! n = Some datas →
     i < length datas) →
  ∃ i w', _update_call n c b r w = (Ok i, w') ∧ db_only w w'.
Proof.
  intros Hc. unfold _update_call, bind, gets; simpl.
  destruct (_function_calls (db w) !! n) as [datas|] eqn:E.
  - destruct c as [i|].
    + rewrite bool_decide_true by eauto. simpl.
      eexists _, _. split; [done|]. by split.
    + simpl. eexists _, _. split; [done|]. by split.
  - simpl. eexists _, _. split; [done|]. by split.
Qed.

(** [cache] returns whenever the call id it is given indexes the call list
    of the function, or the function is dirty. *)
Lemma cache_ok fd n d c b r cf es ed eg w :
  (fd = false → ∀ i datas, c = Some i →
     _function_calls (db w) !! n = Some datas → i < length datas) →
  ∃ w', cache fd n d c b r cf es ed eg w = (Ok tt, w').
Proof.
  intros Hc. unfold cache.
  assert (∃ w1, (if fd then _update_function n d else ret tt) w = (Ok tt, w1)
                ∧ ∀ i datas, c = Some i →
                    _function_calls (db w1) !! n = Some datas →
                    i < length datas) as (w1 & E1 & Hc1).
  { destruct fd.
    - eexists. split; [done|]. simpl. intros i datas _.
      by rewrite lookup_delete_eq.
    - eexists. split; [done|]. by apply Hc. }
  rewrite (bind_ok _ _ _ _ _ E1).
  destruct (_update_call_ok n c b r w1 Hc1) as (i & w2 & E2 & _).
  rewrite (bind_ok _ _ _ _ _ E2).
  destruct (_update_call_files_total (KInt i) (KStr n) cf w2)
    as ([] & w3 & E3).
  rewrite (bind_ok _ _ _ _ _ E3).
  destruct (_update_external_files_total (KStr n) (KInt i) es ed eg w3)
    as ([] & w4 & E4).
  eauto.
Qed.

(** *** The body and the stack *)

#[global] Instance same_top_preorder : PreOrder same_top.
Proof.
  split; unfold same_top; [intros w|intros w1 w2 w3]; congruence.
Qed.

Lemma probe_frame_same_top w w' : probe_frame w w' → same_top w w'.
Proof. intros H. unfold same_top. by rewrite (pf_stack _ _ H). Qed.

Lemma update_frame_body_frame i f : preserves body_frame (update_frame i f).
Proof. intros w. by split. Qed.

Lemma update_frame_same_top i f : preserves same_top (update_frame (S i) f).
Proof.
  intros w. unfold same_top; simpl.
  destruct (stack w) as [|fr st]; simpl; [done|].
  by destruct (st !! i) as [[]|].
Qed.

Lemma register_src_body_frame i l src u :
  preserves body_frame (register_src i l src u).
Proof.
  unfold register_src.
  repeat first
    [ preserves_step
    | apply update_frame_body_frame
    | apply (preserves_weaken probe_frame), _check_call_file_frame;
      apply probe_frame_body_frame ].
Qed.

Lemma register_src_same_top i l src u :
  preserves same_top (register_src (S i) l src u).
Proof.
  unfold register_src.
  repeat first
    [ preserves_step
    | apply update_frame_same_top
    | apply (preserves_weaken probe_frame), _check_call_file_frame;
      apply probe_frame_same_top ].
Qed.

Lemma add_to_frame_body_frame i l srcs dsts :
  preserves body_frame (add_to_frame i l srcs dsts).
Proof.
  unfold add_to_frame.
  repeat first [ preserves_step
               | apply register_src_body_frame
               | apply update_frame_body_frame ].
Qed.

Lemma add_to_frame_same_top i l srcs dsts :
  preserves same_top (add_to_frame (S i) l srcs dsts).
Proof.
  unfold add_to_frame.
  repeat first [ preserves_step
               | apply register_src_same_top
               | apply update_frame_same_top ].
Qed.

Lemma walk_frames_body_frame frames i srcs dsts :
  preserves body_frame (walk_frames frames i srcs dsts).
Proof.
  revert i. induction frames as [|[l|] frames IH]; intros i; simpl.
  - apply preserves_raise; apply _.
  - apply preserves_bind; [apply _|apply add_to_frame_body_frame|auto].
  - apply IH.
Qed.

Lemma walk_frames_same_top frames i srcs dsts :
  preserves same_top (walk_frames frames (S i) srcs dsts).
Proof.
  revert i. induction frames as [|[l|] frames IH]; intros i; simpl.
  - apply preserves_raise; apply _.
  - apply preserves_bind; [apply _|apply add_to_frame_same_top|auto].
  - apply IH.
Qed.

Lemma add_external_dependencies_body_frame srcs dsts :
  preserves body_frame (add_external_dependencies_to_call srcs dsts).
Proof.
  unfold add_external_dependencies_to_call.
  apply preserves_catch; [apply _| |intros []; preserves_step].
  apply preserves_bind; [apply _|preserves_step|].
  intros st. apply walk_frames_body_frame.
Qed.

Lemma run_action_body_frame a : preserves body_frame (run_action a).
Proof.
  induction a; simpl;
    repeat first [ preserves_step
                 | apply add_external_dependencies_body_frame
                 | assumption
                 | by split ].
Qed.

Lemma registered_into_refl l : registered_into l l [] [].
Proof.
  repeat split; simpl; try set_solver.
  exists []. by rewrite app_nil_r.
Qed.

Lemma registered_into_trans l1 l2 l3 s1 d1 s2 d2 :
  registered_into l1 l2 s1 d1 → registered_into l2 l3 s2 d2 →
  registered_into l1 l3 (s1 ++ s2) (d1 ++ d2).
Proof.
  intros (Hn1 & Hc1 & Hs1 & Hd1 & new1 & He1 & Hf1)
         (Hn2 & Hc2 & Hs2 & Hd2 & new2 & He2 & Hf2).
  repeat split.
  - congruence.
  - congruence.
  - rewrite Hs2, Hs1. set_solver.
  - rewrite Hd2, Hd1. set_solver.
  - exists (new1 ++ new2). split.
    + rewrite He2, He1. by rewrite app_assoc.
    + apply Forall_app. split.
      * eapply Forall_impl; [exact Hf1|]. intros sd H. simpl in *. set_solver.
      * eapply Forall_impl; [exact Hf2|]. intros sd H. simpl in *. set_solver.
Qed.

Lemma update_frame_top f cur rest w :
  stack w = CallFrame cur :: rest →
  ∃ w', update_frame 0 f w = (Ok tt, w') ∧
        stack w' = CallFrame (f cur) :: rest.
Proof.
  intros H. eexists. split; [done|]. simpl. by rewrite H.
Qed.

(** The probe of a file raises nothing but [OSError]. *)
Lemma _check_call_file_raises c n filename w e w' :
  _check_call_file c n filename w = (Raise e, w') → e = OSError.
Proof.
  intros H. destruct (fs w !! filename) as [st|] eqn:E.
  - destruct (_check_call_file_present c n filename w) as (r & w1 & E1);
      [by eauto|congruence].
  - rewrite (_check_call_file_missing _ _ _ _ E) in H. congruence.
Qed.

Lemma register_src_top l src cur rest w w' :
  stack w = CallFrame cur :: rest →
  register_src 0 l src tt w = (Ok tt, w') →
  ∃ l', stack w' = CallFrame l' :: rest ∧ registered_into cur l' [src] [].
Proof.
  intros Hst H. unfold register_src in H.
  destruct (update_frame_top
              (fun l => CallLocals (l_function_name l) (l_call_id l)
                          (l_external_digests l)
                          (l_external_srcs l ∪ {[src]}) (l_external_dsts l))
              cur rest w Hst) as (w1 & E1 & Hst1).
  rewrite (bind_ok _ _ _ _ _ E1) in H.
  destruct (_check_call_file (key_of_call_id (l_call_id l))
              (KStr (l_function_name l)) src w1) as [[c|e] w2] eqn:E2.
  2: { by rewrite (bind_raise _ _ _ _ _ E2) in H. }
  rewrite (bind_ok _ _ _ _ _ E2) in H.
  pose proof (_check_call_file_frame (key_of_call_id (l_call_id l))
                (KStr (l_function_name l)) src w1) as Hf.
  rewrite E2 in Hf. simpl in Hf.
  assert (stack w2 = CallFrame
            (CallLocals (l_function_name cur) (l_call_id cur)
               (l_external_digests cur)
               (l_external_srcs cur ∪ {[src]}) (l_external_dsts cur)) :: rest)
    as Hst2 by (by rewrite (pf_stack _ _ Hf)).
  destruct c.1.
  - destruct (update_frame_top
                (fun l => CallLocals (l_function_name l) (l_call_id l)
                            (l_external_digests l ++ [(src, c.2)])
                            (l_external_srcs l) (l_external_dsts l))
                _ rest w2 Hst2) as (w3 & E3 & Hst3).
    rewrite E3 in H. injection H as <-.
    eexists. split; [exact Hst3|].
    repeat split; simpl; try set_solver.
    eexists. split; [done|]. apply Forall_singleton. simpl. set_solver.
  - injection H as <-. eexists. split; [exact Hst2|].
    repeat split; simpl; try set_solver.
    exists []. by rewrite app_nil_r.
Qed.

Lemma register_srcs_top l srcs : ∀ cur rest w w',
  stack w = CallFrame cur :: rest →
  for_each srcs (register_src 0 l) tt w = (Ok tt, w') →
  ∃ l', stack w' = CallFrame l' :: rest ∧ registered_into cur l' srcs [].
Proof.
  induction srcs as [|src srcs IH]; intros cur rest w w' Hst H; simpl in H.
  - injection H as <-. eexists. split; [done|]. apply registered_into_refl.
  - destruct (register_src 0 l src tt w) as [[[]|e] w1] eqn:E1.
    2: { by rewrite (bind_raise _ _ _ _ _ E1) in H. }
    rewrite (bind_ok _ _ _ _ _ E1) in H.
    destruct (register_src_top _ _ _ _ _ _ Hst E1) as (l1 & Hst1 & Hr1).
    destruct (IH _ _ _ _ Hst1 H) as (l2 & Hst2 & Hr2).
    exists l2. split; [done|].
    apply (registered_into_trans _ _ _ [src] [] srcs [] Hr1 Hr2).
Qed.

Lemma add_to_frame_top l srcs dsts cur rest w w' :
  stack w = CallFrame cur :: rest →
  add_to_frame 0 l srcs dsts w = (Ok tt, w') →
  ∃ l', stack w' = CallFrame l' :: rest ∧ registered_into cur l' srcs dsts.
Proof.
  intros Hst H. unfold add_to_frame in H.
  destruct (for_each srcs (register_src 0 l) tt w) as [[[]|e] w1] eqn:E1.
  2: { by rewrite (bind_raise _ _ _ _ _ E1) in H. }
  rewrite (bind_ok _ _ _ _ _ E1) in H.
  destruct (register_srcs_top _ _ _ _ _ _ Hst E1) as (l1 & Hst1 & Hr1).
  destruct (update_frame_top
              (fun l => CallLocals (l_function_name l) (l_call_id l)
                          (l_external_digests l) (l_external_srcs l)
                          (l_external_dsts l ∪ list_to_set dsts))
              l1 rest w1 Hst1) as (w2 & E2 & Hst2).
  rewrite E2 in H. injection H as <-.
  eexists. split; [exact Hst2|].
  assert (registered_into l1
            (CallLocals (l_function_name l1) (l_call_id l1)
               (l_external_digests l1) (l_external_srcs l1)
               (l_external_dsts l1 ∪ list_to_set dsts)) [] dsts) as Hr2.
  { repeat split; simpl; try set_solver. exists []. by rewrite app_nil_r. }
  pose proof (registered_into_trans _ _ _ _ _ _ _ Hr1 Hr2) as Hr.
  by rewrite app_nil_r in Hr.
Qed.

Lemma add_to_frame_raises i l srcs dsts w e w' :
  add_to_frame i l srcs dsts w = (Raise e, w') → e = OSError.
Proof.
  unfold add_to_frame. intros H.
  assert (∀ w e w', for_each srcs (register_src i l) tt w = (Raise e, w') →
            e = OSError) as Hloop.
  { clear. induction srcs as [|src srcs IH]; intros w e w' H; simpl in H.
    - done.
    - destruct (register_src i l src tt w) as [[[]|e1] w1] eqn:E1.
      + rewrite (bind_ok _ _ _ _ _ E1) in H. eauto.
      + rewrite (bind_raise _ _ _ _ _ E1) in H. injection H as <- <-.
        unfold register_src, bind, update_frame, modify in E1.
        destruct (_check_call_file _ _ _ _) as [[c|e2] w2] eqn:E2.
        * by destruct c.1.
        * injection E1 as <- <-. by eapply _check_call_file_raises. }
  destruct (for_each srcs (register_src i l) tt w) as [[[]|e1] w1] eqn:E1.
  - by rewrite (bind_ok _ _ _ _ _ E1) in H.
  - rewrite (bind_raise _ _ _ _ _ E1) in H. injection H as <- <-. eauto.
Qed.

(** A registration that returns has updated the innermost frame of
    [Database.call]. *)
Lemma add_external_dependencies_top srcs dsts cur rest w w' :
  stack w = CallFrame cur :: rest →
  add_external_dependencies_to_call srcs dsts w = (Ok tt, w') →
  ∃ l', head (stack w') = Some (CallFrame l') ∧
        registered_into cur l' srcs dsts.
Proof.
  intros Hst H.
  unfold add_external_dependencies_to_call, catch in H.
  unfold bind at 1, gets at 1 in H. rewrite Hst in H. simpl in H.
  destruct (add_to_frame 0 cur srcs dsts w) as [[[]|e] w1] eqn:E1.
  - rewrite (bind_ok _ _ _ _ _ E1) in H.
    destruct (add_to_frame_top _ _ _ _ _ _ _ Hst E1) as (l1 & Hst1 & Hr1).
    pose proof (walk_frames_same_top rest 0 srcs dsts w1) as Htop.
    unfold same_top in Htop. rewrite Hst1 in Htop. simpl in Htop.
    destruct (walk_frames rest 1 srcs dsts w1) as [[[]|e] w2]; simpl in *.
    + injection H as <-. eauto.
    + destruct e; try done. injection H as <-. eauto.
  - rewrite (bind_raise _ _ _ _ _ E1) in H.
    by rewrite (add_to_frame_raises _ _ _ _ _ _ _ E1) in H.
Qed.

(** The locals of the innermost frame after a body that returned: they
    grew by what the body registered. *)
Lemma run_action_top a : ∀ cur w r w',
  head (stack w) = Some (CallFrame cur) →
  run_action a w = (Ok r, w') →
  ∃ l', head (stack w') = Some (CallFrame l') ∧
        registered_into cur l' (registered_srcs a) (registered_dsts a).
Proof.
  induction a as [v|e|srcs dsts k IH|f st k IH|f k IH|t k IH];
    intros cur w r w' Hst H; simpl in H.
  - injection H as _ <-. eauto using registered_into_refl.
  - done.
  - destruct (stack w) as [|fr rest] eqn:Hw; [done|].
    injection Hst as ->.
    destruct (add_external_dependencies_to_call srcs dsts w)
      as [[[]|e] w1] eqn:E1.
    2: { by rewrite (bind_raise _ _ _ _ _ E1) in H. }
    rewrite (bind_ok _ _ _ _ _ E1) in H.
    destruct (add_external_dependencies_top _ _ _ _ _ _ Hw E1)
      as (l1 & Hst1 & Hr1).
    destruct (IH _ _ _ _ Hst1 H) as (l2 & Hst2 & Hr2).
    exists l2. split; [done|]. simpl.
    by eapply registered_into_trans.
  - apply (IH cur (set_fs (insert f st) w) r w'); [exact Hst|exact H].
  - apply (IH cur (set_fs (delete f) w) r w'); [exact Hst|exact H].
  - apply (IH cur (set_now t w) r w'); [exact Hst|exact H].
Qed.

(** *** The decision of [Database.call] *)

#[global] Instance same_runs_preorder : PreOrder same_runs.
Proof.
  split; unfold same_runs; [intros w|intros w1 w2 w3]; congruence.
Qed.

Lemma partition_roles_pure annotations bound w :
  (partition_roles annotations bound w).2 = w.
Proof.
  symmetry. revert w. change (preserves eq (partition_roles annotations bound)).
  unfold partition_roles.
  repeat first [ preserves_step | done ].
Qed.

Lemma exists_object_spec x w :
  exists_object x w = (Ok (bool_decide (is_Some (file_at w x))), w).
Proof.
  unfold exists_object, file_at. destruct (filename_of x) as [s|]; simpl.
  - done.
  - done.
Qed.

Lemma all_exist_spec dsts w :
  all_exist dsts w =
    (Ok (bool_decide (Forall (fun d => is_Some (file_at w d)) dsts)), w).
Proof.
  induction dsts as [|d l IH]; simpl.
  - done.
  - unfold bind at 1. rewrite exists_object_spec.
    destruct (decide (is_Some (file_at w d))) as [Hd|Hd].
    + rewrite (bool_decide_true _ Hd), IH. do 2 f_equal.
      apply bool_decide_ext. split; [by constructor|by inversion 1].
    + rewrite (bool_decide_false _ Hd).
      rewrite bool_decide_false; [done|]. by inversion 1.
Qed.

(** An object that names a file is a string. *)
Lemma file_at_Some w x :
  is_Some (file_at w x) ↔ ∃ s, x = VStr s ∧ is_Some (fs w !! s).
Proof.
  unfold file_at. destruct x; simpl; split;
    try (by intros [? ?]); try (by intros (? & ? & ?)).
  - eauto.
  - by intros (s' & [= <-] & H).
Qed.

Lemma file_at_hashable w l :
  Forall (fun d => is_Some (file_at w d)) l → forallb hashable l = true.
Proof.
  induction 1 as [|d l Hd _ IH]; [done|]. simpl. rewrite IH.
  apply file_at_Some in Hd as (s & -> & _). done.
Qed.

Lemma elem_of_objects x names :
  x ∈ objects names ↔ ∃ s, x = VStr s ∧ s ∈ names.
Proof. unfold objects. by rewrite elem_of_map. Qed.

Lemma elem_of_file_names s set : s ∈ file_names set ↔ VStr s ∈ set.
Proof.
  unfold file_names. rewrite elem_of_list_to_set, list_elem_of_omap.
  split.
  - intros (x & Hx & Hs). apply elem_of_elements in Hx.
    destruct x; simpl in Hs; try done. by injection Hs as ->.
  - intros H. exists (VStr s). split; [by apply elem_of_elements|done].
Qed.

Lemma cached_result_spec return_type srcs dsts p w :
  cached_result return_type srcs dsts p w =
    if has_result p then
      match iterate (return_dsts_of return_type (old_result p)) with
      | Ok rd =>
          (Ok (if bool_decide
                    (Forall (fun d => is_Some (file_at w d))
                       (rd ++ elements dsts
                        ++ elements (objects (external_dsts p))))
               then Some (old_result p, srcs ∪ objects (external_srcs p),
                          dsts ∪ objects (external_dsts p) ∪ list_to_set rd)
               else None), w)
      | Raise e => (Raise e, w)
      end
    else (Ok None, w).
Proof.
  unfold cached_result. destruct (has_result p); [|done].
  unfold bind at 1, lift. unfold set_update.
  destruct (iterate (return_dsts_of return_type (old_result p))) as [rd|e];
    [|done].
  unfold bind at 1. rewrite all_exist_spec.
  case_bool_decide as Hall; [|done].
  apply Forall_app in Hall as [Hrd _].
  by rewrite (file_at_hashable _ _ Hrd).
Qed.

(** The first test of [Database.call] is the first five conditions. *)
Lemma has_result_true p :
  has_result p = true ↔
    function_dirty p = false ∧ call_id p ≠ None ∧ call_file_digests p = [] ∧
    external_digests p = [] ∧ external_dirty p = false.
Proof.
  unfold has_result.
  destruct (function_dirty p), (call_id p), (call_file_digests p),
    (external_digests p), (external_dirty p); simpl;
    try rewrite bool_decide_true by done;
    try rewrite bool_decide_false by done; simpl; naive_solver.
Qed.

(** The call id [prepare] reports indexes the call list of the function. *)
Lemma prepare_call_id n d b srcs dsts w p w' i :
  prepare n d b srcs dsts w = (Ok p, w') → call_id p = Some i →
  ∃ datas, _function_calls (db w) !! n = Some datas ∧
           datas !! i = Some (b, old_result p).
Proof.
  unfold prepare. intros H Hi.
  assert (∃ fd, _check_function n d w = (Ok fd, w)) as [fd Efd].
  { unfold _check_function, bind, gets; simpl.
    destruct (_functions (db w) !! n); [|by eauto].
    destruct (bool_decide _); by eauto. }
  rewrite (bind_ok _ _ _ _ _ Efd) in H.
  unfold _check_call in H. unfold bind at 1 2, gets at 1 in H.
  destruct (_function_calls (db w) !! n) as [datas|] eqn:Ed; simpl in H.
  - destruct (find_call b datas 0) as [[j r]|] eqn:Ef; simpl in H.
    + apply find_call_lookup in Ef as (j' & -> & Hj).
      unfold bind in H.
      destruct (_check_call_files _ _ _ _) as [[digests|?] w1]; [|done].
      destruct (_check_external_files _ _ _) as [[e|?] w2]; [|done].
      injection H as <- <-. simpl in *. injection Hi as <-. eauto.
    + unfold bind in H.
      destruct (_check_call_files _ _ _ _) as [[digests|?] w1]; [|done].
      destruct (_check_external_files _ _ _) as [[e|?] w2]; [|done].
      injection H as <- <-. done.
  - unfold bind in H.
    destruct (_check_call_files _ _ _ _) as [[digests|?] w1]; [|done].
    destruct (_check_external_files _ _ _) as [[e|?] w2]; [|done].
    injection H as <- <-. done.
Qed.

Lemma pop_frame_spec dflt w :
  ∃ l, pop_frame dflt w = (Ok l, set_stack (drop 1) w) ∧
       (∀ l', head (stack w) = Some (CallFrame l') → l = l').
Proof.
  unfold pop_frame, bind, gets, modify; simpl.
  destruct (stack w) as [|[l|] rest]; simpl; eexists; split; try done.
  by intros l' [= <-].
Qed.

Lemma recompute_entered f bound return_type srcs dsts p w :
  recompute f bound return_type srcs dsts p w
    = run_and_cache f bound return_type srcs dsts p (entry_world f p w).
Proof. reflexivity. Qed.

Lemma runs_entry_world f p w : runs (entry_world f p w) = runs w ++ [fn_name f].
Proof. unfold entry_world. by rewrite runs_log_run. Qed.

Lemma run_and_cache_same_runs f bound return_type srcs dsts p :
  preserves same_runs (run_and_cache f bound return_type srcs dsts p).
Proof.
  unfold run_and_cache, pop_frame.
  repeat first
    [ preserves_step
    | apply (preserves_weaken body_frame), run_action_body_frame;
      apply bf_runs
    | apply (preserves_weaken db_only), cache_db_only; apply db_only_runs
    | done ].
Qed.

(** The dirty path logs exactly one run. *)
Lemma recompute_runs f bound return_type srcs dsts p w :
  runs (recompute f bound return_type srcs dsts p w).2
    = runs w ++ [fn_name f].
Proof.
  rewrite recompute_entered, <- (runs_entry_world f p w).
  apply run_and_cache_same_runs.
Qed.

(** The request of [Database.call] leaves what [prepare] leaves. *)
Lemma request_prepare_frame n d b srcs dsts :
  preserves probe_frame (request_prepare n d b srcs dsts).
Proof.
  unfold request_prepare. destruct (forallb _ _).
  - apply prepare_frame.
  - preserves_step.
Qed.

(** When the request returns, every source is a file name, and the tuple
    is the one [prepare] returns for these names. *)
Lemma request_prepare_names n d b srcs dsts w p w1 :
  request_prepare n d b srcs dsts w = (Ok p, w1) →
  prepare n d b (file_names srcs) (file_names dsts) w = (Ok p, w1) ∧
  objects (file_names srcs) = srcs.
Proof.
  unfold request_prepare.
  destruct (forallb _ _) eqn:Hall; [|done].
  intros H. split; [done|].
  apply set_eq. intros x. rewrite elem_of_objects. split.
  - intros (s & -> & Hs). by apply elem_of_file_names.
  - intros Hx. rewrite forallb_forall in Hall.
    assert (bool_decide (is_Some (filename_of x)) = true) as Hn.
    { apply Hall. apply list_elem_of_In. by apply elem_of_elements. }
    apply bool_decide_eq_true in Hn as [s Hs].
    destruct x; simpl in Hs; try done. injection Hs as ->.
    exists s. split; [done|]. by apply elem_of_file_names.
Qed.

(** A request with a source that names no file raises the not-found
    error and leaves the world as it is. *)
Lemma request_prepare_raises n d b srcs dsts w x :
  x ∈ srcs → filename_of x = None →
  request_prepare n d b srcs dsts w = (Raise OSError, w).
Proof.
  intros Hx Hn. unfold request_prepare.
  destruct (forallb _ _) eqn:Hall; [|done].
  rewrite forallb_forall in Hall.
  assert (bool_decide (is_Some (filename_of x)) = true) as Hs.
  { apply Hall. apply list_elem_of_In. by apply elem_of_elements. }
  apply bool_decide_eq_true in Hs as [s Hs]. congruence.
Qed.

(** The dirty path once the function is entered: when the body returns,
    [cache] is submitted with the locals the body left and returns, and
    the result is handed back unless [all_dsts.update(return_dsts)]
    raises. *)
Lemma run_and_cache_returns f bound return_type srcs dsts p w r w2 :
  head (stack w) = Some (CallFrame (locals_at_entry f p)) →
  run_action (fn_body f bound) w = (Ok r, w2) →
  (function_dirty p = false → ∀ i datas, call_id p = Some i →
     _function_calls (db w) !! fn_name f = Some datas → i < length datas) →
  ∃ l w3,
    registered_into (locals_at_entry f p) l
      (registered_srcs (fn_body f bound)) (registered_dsts (fn_body f bound)) ∧
    cache (function_dirty p) (fn_name f) (fn_digest f) (call_id p) bound r
          (call_file_digests p) (l_external_srcs l) (l_external_dsts l)
          (l_external_digests l) (set_stack (drop 1) w2) = (Ok tt, w3) ∧
    run_and_cache f bound return_type srcs dsts p w =
      (match set_update (dsts ∪ objects (l_external_dsts l))
               (return_dsts_of return_type r) with
       | Ok all_dsts => Ok (r, srcs ∪ objects (l_external_srcs l), all_dsts)
       | Raise e => Raise e
       end, w3).
Proof.
  intros Htop Hrun Hidx.
  destruct (run_action_top _ _ _ _ _ Htop Hrun) as (l & Hl & Hreg).
  destruct (pop_frame_spec (locals_at_entry f p) w2) as (l0 & Epop & Hl0).
  rewrite (Hl0 l Hl) in Epop. clear l0 Hl0.
  pose proof (run_action_body_frame (fn_body f bound) w) as Hbf.
  rewrite Hrun in Hbf. simpl in Hbf.
  destruct (cache_ok (function_dirty p) (fn_name f) (fn_digest f) (call_id p)
              bound r (call_file_digests p) (l_external_srcs l)
              (l_external_dsts l) (l_external_digests l)
              (set_stack (drop 1) w2)) as (w3 & Ecache).
  { intros Hfd i datas Hi Hd. simpl in Hd.
    rewrite (bf_function_calls _ _ Hbf) in Hd. by eapply Hidx. }
  exists l, w3. split; [done|]. split; [done|].
  unfold run_and_cache.
  assert (catch (run_action (fn_body f bound))
            (fun e => modify (set_stack (drop 1)) ;;; raise e) w
          = (Ok r, w2)) as Ecatch.
  { unfold catch. by rewrite Hrun. }
  rewrite (bind_ok _ _ _ _ _ Ecatch), (bind_ok _ _ _ _ _ Epop),
    (bind_ok _ _ _ _ _ Ecache).
  unfold bind, lift. by destruct (set_update _ _).
Qed.

(** The index that a returned request reports is within the call list. *)
Lemma request_prepare_index f bound srcs dsts w p w1 :
  request_prepare (fn_name f) (fn_digest f) bound srcs dsts w = (Ok p, w1) →
  function_dirty p = false → ∀ i datas, call_id p = Some i →
  _function_calls (db (entry_world f p w1)) !! fn_name f = Some datas →
  i < length datas.
Proof.
  intros Hreq Hfd i datas Hi Hd. simpl in Hd.
  pose proof (request_prepare_frame (fn_name f) (fn_digest f) bound srcs dsts w)
    as Hframe.
  rewrite Hreq in Hframe. simpl in Hframe.
  apply request_prepare_names in Hreq as [Hprep _].
  rewrite (pf_function_calls _ _ Hframe) in Hd.
  destruct (prepare_call_id _ _ _ _ _ _ _ _ i Hprep Hi)
    as (datas' & Hd' & Hi').
  rewrite Hd in Hd'. injection Hd' as <-.
  by apply lookup_lt_Some in Hi'.
Qed.



(** X2: [cache] after [prepare]. Given the dirtiness and the call id that
    [prepare] returned for the same function and bound arguments, [cache]
    returns, whatever result, digests and sets it is handed: the index it
    assigns to is within the call list. *)
Theorem cache_returns_after_prepare n d b srcs dsts w p w1 r cf es ed eg :
  prepare n d b srcs dsts w = (Ok p, w1) →
  ∃ w2,
    cache (function_dirty p) n d (call_id p) b r cf es ed eg w1 = (Ok tt, w2).
Proof.
  intros Hprep. apply cache_ok. intros _ i datas Hi Hd.
  pose proof (prepare_frame n d b srcs dsts w) as Hframe.
  rewrite Hprep in Hframe. simpl in Hframe.
  rewrite (pf_function_calls _ _ Hframe) in Hd.
  destruct (prepare_call_id _ _ _ _ _ _ _ _ i Hprep Hi) as (datas' & Hd' & Hi').
  rewrite Hd in Hd'. injection Hd' as <-. by apply lookup_lt_Some in Hi'.
Qed.

(** An instance: the update of the record of [add(ctx, 2, 3)]. *)
Lemma cache_returns_after_prepare_add :
  ∃ w2,
    cache (function_dirty add_prepared) "m.add" "source of add"
          (call_id add_prepared) add_args (VInt 5) [] ∅ ∅ [] after_first_add
      = (Ok tt, w2).
Proof.
  refine (cache_returns_after_prepare "m.add" "source of add" add_args ∅ ∅
            after_first_add add_prepared after_first_add (VInt 5) [] ∅ ∅ [] _).
  vm_compute; reflexivity.
Defined.


(** *** What the rerun submits *)

(** C9, as stated, fails: the header of ["m.f"] changed, so [prepare]
    returns its new digest in [external_digests]; the body registers
    nothing in this run, and yet that digest is what [cache] files. *)
Lemma rerun_submits_digest_of_prepare :
  prepare "m.f" "dig" ∅ ∅ ∅ header_changed
    = (Ok header_prepared, (prepare "m.f" "dig" ∅ ∅ ∅ header_changed).2) ∧
  l_external_digests (locals_at_entry quiet_fn header_prepared)
    = [("h.txt", "h2")] ∧
  registered_srcs (fn_body quiet_fn ∅) = [] ∧
  runs (call quiet_fn ∅ header_changed).2 = ["m.f"] ∧
  _call_files (db after_one_call) !! "h.txt"
    = Some {[KInt 0 := {[KStr "m.f" := "hh"]}]} ∧
  _call_files (db (call quiet_fn ∅ header_changed).2) !! "h.txt"
    = Some {[KInt 0 := {[KStr "m.f" := "h2"]}]}.
Proof. repeat split; vm_compute; reflexivity. Qed.

(** C9, amended: when [Database.call] takes the dirty path, the user
    function is entered with empty [external_srcs] and [external_dsts] and
    with the [external_digests] list that [prepare] returned; when the
    body returns, [cache] is submitted with exactly the sources and
    destinations the body registered in this run, and with the digests of
    [prepare] followed by digests of sources the body registered. *)
Theorem rerun_submits_registered f bound w return_type srcs dsts w0 p w1 r w2 :
  partition_roles (fn_annotations f) bound w
    = (Ok (return_type, srcs, dsts), w0) →
  request_prepare (fn_name f) (fn_digest f) bound srcs dsts w0 = (Ok p, w1) →
  cached_result return_type srcs dsts p w1 = (Ok None, w1) →
  run_action (fn_body f bound) (entry_world f p w1) = (Ok r, w2) →
  head (stack (entry_world f p w1))
    = Some (CallFrame
              (CallLocals (fn_name f) (call_id p) (external_digests p) ∅ ∅)) ∧
  ∃ new,
    Forall (fun sd => sd.1 ∈ registered_srcs (fn_body f bound)) new ∧
    (call f bound w).2 =
      (cache (function_dirty p) (fn_name f) (fn_digest f) (call_id p) bound r
             (call_file_digests p)
             (list_to_set (registered_srcs (fn_body f bound)))
             (list_to_set (registered_dsts (fn_body f bound)))
             (external_digests p ++ new)
             (set_stack (drop 1) w2)).2.
Proof.
  intros Hroles Hprep Hdirty Hrun. split; [done|].
  assert (call f bound w
          = run_and_cache f bound return_type srcs dsts p (entry_world f p w1))
    as ->.
  { unfold call. rewrite (bind_ok _ _ _ _ _ Hroles). simpl.
    by rewrite (bind_ok _ _ _ _ _ Hprep), (bind_ok _ _ _ _ _ Hdirty). }
  destruct (run_action_top (fn_body f bound) (locals_at_entry f p)
              (entry_world f p w1) r w2 eq_refl Hrun)
    as (l & Hl & _ & _ & Hsrcs & Hdsts & new & Hnew & Hall).
  destruct (pop_frame_spec (locals_at_entry f p) w2) as (l0 & Epop & Hl0).
  rewrite (Hl0 l Hl) in Epop. clear l0 Hl0.
  exists new. split; [done|].
  unfold run_and_cache.
  assert (catch (run_action (fn_body f bound))
            (fun e => modify (set_stack (drop 1)) ;;; raise e)
            (entry_world f p w1) = (Ok r, w2)) as Ecatch.
  { unfold catch. by rewrite Hrun. }
  rewrite (bind_ok _ _ _ _ _ Ecatch), (bind_ok _ _ _ _ _ Epop).
  rewrite Hsrcs, Hdsts, Hnew. simpl.
  rewrite !(left_id_L ∅ (∪)).
  unfold bind at 1.
  destruct (cache _ _ _ _ _ _ _ _ _ _ _) as [[[]|e] w3]; [|done].
  unfold bind, lift. by destruct (set_update _ _).
Qed.

(** An instance: the rerun of ["m.f"] after its header changed. *)
Lemma rerun_submits_registered_header :
  head (stack (entry_world quiet_fn header_prepared
                 (prepare "m.f" "dig" ∅ ∅ ∅ header_changed).2))
    = Some (CallFrame (CallLocals "m.f" (Some 0) [("h.txt", "h2")] ∅ ∅)) ∧
  ∃ new,
    Forall (fun sd => sd.1 ∈ registered_srcs (fn_body quiet_fn ∅)) new ∧
    (call quiet_fn ∅ header_changed).2 =
      (cache false "m.f" "dig" (Some 0) ∅ VNone []
             (list_to_set (registered_srcs (fn_body quiet_fn ∅)))
             (list_to_set (registered_dsts (fn_body quiet_fn ∅)))
             ([("h.txt", "h2")] ++ new)
             (set_stack (drop 1)
                (entry_world quiet_fn header_prepared
                   (prepare "m.f" "dig" ∅ ∅ ∅ header_changed).2))).2.
Proof.
  refine (rerun_submits_registered quiet_fn ∅ header_changed None ∅ ∅
            header_changed header_prepared
            (prepare "m.f" "dig" ∅ ∅ ∅ header_changed).2 VNone
            (entry_world quiet_fn header_prepared
               (prepare "m.f" "dig" ∅ ∅ ∅ header_changed).2) _ _ _ _).
  - vm_compute; reflexivity.
  - vm_compute; reflexivity.
  - vm_compute; reflexivity.
  - vm_compute; reflexivity.
Defined.

(** *** The scenarios of the specification

    The model run on the concrete scenarios S1 to S4 and S6: which calls
    run the body. *)

(** [convert] hands on what it is given, and a string that stands where
    a list is expected is iterated over by character. *)
Example convert_hands_on :
  convert DST VNone = Built [VNone] ∧
  convert OPTIONAL_DST VNone = Built [] ∧
  convert SRCS (VStr "ab") = Given (VStr "ab") ∧
  set_update ∅ (convert SRCS (VStr "ab")) = Ok {[VStr "a"; VStr "b"]} ∧
  set_update ∅ (convert SRCS VNone) = Raise TypeError ∧
  set_update ∅ (convert SRC (VList ["a.c"])) = Raise TypeError.
Proof. repeat split; vm_compute; reflexivity. Qed.

(** [convert] hands on what it is given: a function whose return value
    carries [DST] and that returns [None] is run, its result is cached
    and returned, and [None] is among the destinations of the triple. *)
Example call_returns_none_as_destination :
  let f := Func "m.k" "source of k" [("return", DST)]
             (fun _ => AReturn VNone) in
  (call f ∅ one_source_world).1 = Ok (VNone, ∅, {[VNone]}) ∧
  runs (call f ∅ one_source_world).2 = ["m.k"].
Proof. repeat split; vm_compute; reflexivity. Qed.

Example scenario_S1 :
  (call add_fn add_args one_source_world).1 = Ok (VInt 5, ∅, ∅) ∧
  (call add_fn add_args after_first_add).1 = Ok (VInt 5, ∅, ∅) ∧
  runs (after_call add_fn add_args after_first_add) = ["m.add"].
Proof. repeat split; vm_compute; reflexivity. Qed.

Example scenario_S2 :
  let w1 := after_call (wc_fn 2) wc_args one_source_world in
  let w2 := after_call (wc_fn 2) wc_args w1 in
  let w3 := set_now 300 (set_fs (insert "a.c" (FileStat 250 "d2")) w2) in
  let w4 := after_call (wc_fn 3) wc_args w3 in
  runs w1 = ["m.wc"] ∧ runs w2 = ["m.wc"] ∧ runs w4 = ["m.wc"; "m.wc"] ∧
  (call (wc_fn 3) wc_args w3).1 = Ok (VInt 3, {[VStr "a.c"]}, ∅).
Proof. repeat split; vm_compute; reflexivity. Qed.

Example scenario_S3 :
  let w1 := after_call write_fn write_args one_source_world in
  let w2 := set_fs (delete "out") w1 in
  let w3 := after_call write_fn write_args w2 in
  runs w1 = ["m.write"] ∧
  runs (after_call write_fn write_args w1) = ["m.write"] ∧
  runs w3 = ["m.write"; "m.write"] ∧
  fs w3 !! "out" = Some (FileStat 150 "hi").
Proof. repeat split; vm_compute; reflexivity. Qed.

Example scenario_S4 :
  let w1 := after_call (g_fn "return 1" 1) ∅ one_source_world in
  let w2 := after_call (g_fn "return 2" 2) ∅ w1 in
  runs w1 = ["m.g"] ∧ runs w2 = ["m.g"; "m.g"] ∧
  (call (g_fn "return 2" 2) ∅ w1).1 = Ok (VInt 2, ∅, ∅) ∧
  _function_calls (db w2) !! "m.g" = Some [(∅, VInt 2)].
Proof. repeat split; vm_compute; reflexivity. Qed.

Example scenario_S6 :
  let w1 := after_call preprocess_fn preprocess_args with_header in
  let w2 := set_now 300 (set_fs (insert "h.txt" (FileStat 250 "h2")) w1) in
  let w3 := after_call preprocess_fn preprocess_args w2 in
  let w4 := set_fs (insert "other.txt" (FileStat 260 "o")) w3 in
  let w5 := after_call preprocess_fn preprocess_args w4 in
  runs w1 = ["m.preprocess"] ∧
  runs w3 = ["m.preprocess"; "m.preprocess"] ∧
  runs w5 = ["m.preprocess"; "m.preprocess"].
Proof. repeat split; vm_compute; reflexivity. Qed.

(** ** Persistence *)

Lemma append_ne_self (p s : string) : s ≠ "" → p +:+ s ≠ p.
Proof.
  intros Hs. induction p as [|a p IH]; simpl.
  - done.
  - intros [= H]. by apply IH.
Qed.

Lemma tmp_ne_path (path : string) : path +:+ ".tmp" ≠ path.
Proof. by apply append_ne_self. Qed.

Lemma old_ne_path (path : string) : path +:+ ".old" ≠ path.
Proof. by apply append_ne_self. Qed.

Lemma tmp_ne_old (path : string) : path +:+ ".tmp" ≠ path +:+ ".old".
Proof. intros H. by apply (inj (String.app path)) in H. Qed.

Lemma rename_entry_lookup_dst src dst m c :
  m !! src = Some c → rename_entry src dst m !! dst = Some c.
Proof. intros H. unfold rename_entry. rewrite H. apply lookup_insert_eq. Qed.

Lemma rename_entry_lookup_other src dst m k :
  k ≠ src → k ≠ dst → rename_entry src dst m !! k = m !! k.
Proof.
  intros Hs Hd. unfold rename_entry. destruct (m !! src); [|done].
  rewrite lookup_insert_ne by done. by rewrite lookup_delete_ne.
Qed.

Lemma rename_ok src dst d c :
  contents d !! src = Some c →
  rename src dst d =
    (Ok tt, Disk (rename_entry src dst (contents d))
                 (ops d ++ [OpRename src dst])).
Proof. intros H. unfold rename, bind, gets. simpl. by rewrite H. Qed.

Lemma remove_ok name d c :
  contents d !! name = Some c →
  remove name d =
    (Ok tt, Disk (delete name (contents d)) (ops d ++ [OpRemove name])).
Proof. intros H. unfold remove, bind, gets. simpl. by rewrite H. Qed.

Section persistence_facts.
Variable pickle : backend → bytes.
Variable unpickle : bytes → option backend.

(** [save] spelled out: it never raises in this model, here is the
    directory it leaves and here are its system calls. *)
Lemma save_spec self path d :
  let s := pickle self in
  let tmp := path +:+ ".tmp" in
  let old := path +:+ ".old" in
  let c := contents d in
  let written := <[tmp := s]> c in
  let moved :=
    if bool_decide (is_Some (c !! path)) then rename_entry path old written
    else written in
  let renamed := rename_entry tmp path moved in
  save pickle self path d =
    (Ok tt,
     Disk (if bool_decide (is_Some (renamed !! old)) then delete old renamed
           else renamed)
          (ops d ++ [OpWrite tmp s]
                 ++ (if bool_decide (is_Some (c !! path))
                     then [OpRename path old] else [])
                 ++ [OpRename tmp path]
                 ++ (if bool_decide (is_Some (renamed !! old))
                     then [OpRemove old] else []))).
Proof.
  intros s tmp old c written moved renamed.
  pose proof (tmp_ne_path path) as Htp.
  pose proof (old_ne_path path) as Hop.
  pose proof (tmp_ne_old path) as Hto.
  assert (written !! path = c !! path) as Hwp.
  { unfold written. by rewrite lookup_insert_ne. }
  assert (moved !! tmp = Some s) as Hmt.
  { unfold moved. case_bool_decide.
    - rewrite rename_entry_lookup_other by done. apply lookup_insert_eq.
    - apply lookup_insert_eq. }
  set (d1 := Disk written (ops d ++ [OpWrite tmp s])).
  set (ops2 := ops d1 ++ (if bool_decide (is_Some (c !! path))
                          then [OpRename path old] else [])).
  assert (write_file tmp s d = (Ok tt, d1)) as E1 by done.
  assert (disk_exists path d1
          = (Ok (bool_decide (is_Some (c !! path))), d1)) as E1'.
  { unfold disk_exists, gets. simpl. by rewrite Hwp. }
  assert ((if bool_decide (is_Some (c !! path))
           then rename path old else ret tt) d1
          = (Ok tt, Disk moved ops2)) as E2.
  { unfold moved, ops2. destruct (c !! path) as [o|] eqn:Hc.
    - rewrite !bool_decide_true by eauto.
      apply (rename_ok path old d1 o). simpl. by rewrite Hwp.
    - rewrite !bool_decide_false by (by intros [? ?]).
      unfold ret, d1. simpl. by rewrite app_nil_r. }
  set (d3 := Disk renamed (ops2 ++ [OpRename tmp path])).
  assert (rename tmp path (Disk moved ops2) = (Ok tt, d3)) as E3.
  { by apply (rename_ok tmp path (Disk moved ops2) s). }
  assert (disk_exists old d3
          = (Ok (bool_decide (is_Some (renamed !! old))), d3)) as E3'
    by done.
  unfold save. fold s tmp old.
  rewrite (bind_ok _ _ _ _ _ E1), (bind_ok _ _ _ _ _ E1'),
    (bind_ok _ _ _ _ _ E2), (bind_ok _ _ _ _ _ E3), (bind_ok _ _ _ _ _ E3').
  unfold d3, ops2, d1. simpl.
  destruct (renamed !! old) as [x|] eqn:Hro.
  - rewrite !bool_decide_true by eauto.
    erewrite remove_ok by (simpl; exact Hro). simpl.
    by rewrite <- !app_assoc.
  - rewrite !bool_decide_false by (by intros [? ?]).
    unfold ret. by rewrite <- !app_assoc.
Qed.

(** After a save the file under [path] holds the pickled tables. *)
Lemma save_leaves_snapshot self path d :
  ∃ d', save pickle self path d = (Ok tt, d') ∧
        contents d' !! path = Some (pickle self).
Proof.
  pose proof (save_spec self path d) as H. cbn zeta in H.
  eexists. split; [exact H|]. cbn [contents]. clear H.
  pose proof (tmp_ne_path path) as Htp.
  pose proof (old_ne_path path) as Hop.
  pose proof (tmp_ne_old path) as Hto.
  assert (∀ moved : gmap string bytes,
            moved !! (path +:+ ".tmp") = Some (pickle self) →
            (if bool_decide
                  (is_Some (rename_entry (path +:+ ".tmp") path moved
                              !! (path +:+ ".old")))
             then delete (path +:+ ".old")
                    (rename_entry (path +:+ ".tmp") path moved)
             else rename_entry (path +:+ ".tmp") path moved) !! path
            = Some (pickle self)) as Hgen.
  { intros moved Hmt. case_bool_decide.
    - rewrite lookup_delete_ne by done. by apply rename_entry_lookup_dst.
    - by apply rename_entry_lookup_dst. }
  apply Hgen. case_bool_decide.
  - rewrite rename_entry_lookup_other by done. apply lookup_insert_eq.
  - apply lookup_insert_eq.
Qed.

End persistence_facts.


(** *** The instants of a save *)

Section crash_safety.
Variable pickle : backend → bytes.

Lemma save_step_inv s path m0 c :
  save_inv s path m0 c → save_inv s path m0 (save_step s path c).
Proof.
  pose proof (tmp_ne_path path) as Htp.
  pose proof (old_ne_path path) as Hop.
  pose proof (tmp_ne_old path) as Hto.
  destruct c as [pc m]. unfold save_inv, save_step. simpl.
  destruct pc as [|n| | | |]; simpl.
  - intros ->. split; [lia|done].
  - intros [Hn ->]. case_bool_decide; simpl.
    + split; [lia|]. by rewrite insert_insert_eq.
    + replace n with (length s) by lia. by rewrite firstn_all.
  - intros ->. case_bool_decide.
    + rewrite rename_entry_lookup_other by done. apply lookup_insert_eq.
    + apply lookup_insert_eq.
  - intros H. by apply rename_entry_lookup_dst.
  - intros H. case_bool_decide; [|done]. by rewrite lookup_delete_ne.
  - done.
Qed.

Lemma save_run_inv self path m n :
  save_inv (pickle self) path m (save_run pickle self path m n).
Proof.
  induction n as [|n IH]; [done|].
  unfold save_run in *. simpl. by apply save_step_inv.
Qed.

Lemma save_run_succ self path m n :
  save_run pickle self path m (S n)
    = save_step (pickle self) path (save_run pickle self path m n).
Proof. reflexivity. Qed.

(** The machine writes the temporary file byte by byte. *)
Lemma save_run_writing self path m k :
  (k ≤ length (pickle self))%nat →
  save_run pickle self path m (S k)
    = (AtWrite k, <[path +:+ ".tmp" := take k (pickle self)]> m).
Proof.
  induction k as [|k IH]; intros Hk; [done|].
  rewrite save_run_succ, IH by lia. unfold save_step. simpl.
  rewrite bool_decide_true by lia. by rewrite insert_insert_eq.
Qed.

Lemma save_run_end self path d :
  save_run pickle self path (contents d) (length (pickle self) + 5)
    = (AtEnd, contents (save pickle self path d).2).
Proof.
  replace (length (pickle self) + 5)
    with (S (S (S (S (S (length (pickle self))))))) by lia.
  do 4 rewrite save_run_succ.
  rewrite save_run_writing by lia. rewrite firstn_all.
  rewrite save_spec. cbn zeta. cbn [snd contents].
  unfold save_step at 4. cbn [fst snd].
  rewrite bool_decide_false by lia.
  unfold save_step at 3. cbn [fst snd].
  pose proof (tmp_ne_path path) as Htp.
  rewrite lookup_insert_ne by done.
  unfold save_step at 2. cbn [fst snd].
  unfold save_step. cbn [fst snd]. done.
Qed.

(** C5: [save] writes the pickled tables to [path.tmp], moves [path] to
    [path.old] if [path] exists, renames [path.tmp] to [path], and
    removes [path.old] if it exists then, in that order and with no
    other system call; and at every instant of a save, between any two
    system calls and between any two bytes of the write, either the file
    under [path] is as it was before the save, or the complete new
    snapshot is under [path.tmp] or under [path]. *)
Theorem save_is_crash_safe self path d :
  let s := pickle self in
  let tmp := path +:+ ".tmp" in
  let old := path +:+ ".old" in
  (∃ d', save pickle self path d = (Ok tt, d') ∧
     ops d' =
       ops d ++ [OpWrite tmp s]
             ++ (if bool_decide (is_Some (contents d !! path))
                 then [OpRename path old] else [])
             ++ [OpRename tmp path]
             ++ (if bool_decide (is_Some (contents d !! path)
                                 ∨ is_Some (contents d !! old))
                 then [OpRemove old] else []) ∧
     save_run pickle self path (contents d) (length s + 5)
       = (AtEnd, contents d'))
  ∧ ∀ n,
      let m := (save_run pickle self path (contents d) n).2 in
      m !! path = contents d !! path ∨
      m !! tmp = Some s ∨
      m !! path = Some s.
Proof.
  intros s tmp old.
  pose proof (tmp_ne_path path) as Htp.
  pose proof (old_ne_path path) as Hop.
  pose proof (tmp_ne_old path) as Hto.
  split.
  - pose proof (save_run_end self path d) as Hend.
    pose proof (save_spec pickle self path d) as Hspec. cbn zeta in Hspec.
    rewrite Hspec in Hend |- *. eexists. split; [done|].
    split; [|exact Hend]. cbn [ops].
    match goal with
    | |- context [bool_decide (is_Some (?R !! (path +:+ ".old")))] =>
        replace (bool_decide (is_Some (R !! (path +:+ ".old"))))
          with (bool_decide (is_Some (contents d !! path)
                             ∨ is_Some (contents d !! old)))
    end; [done|].
    symmetry. apply bool_decide_ext.
    rewrite rename_entry_lookup_other by done.
    destruct (contents d !! path) as [o|] eqn:Hc.
    + rewrite bool_decide_true by eauto.
      erewrite rename_entry_lookup_dst;
        [naive_solver|by rewrite lookup_insert_ne].
    + rewrite bool_decide_false by (by intros [? ?]).
      rewrite lookup_insert_ne by done.
      split; [by right|]. intros [[? ?]|?]; done.
  - intros n. pose proof (save_run_inv self path (contents d) n) as Hinv.
    destruct (save_run pickle self path (contents d) n) as [pc m].
    unfold save_inv in Hinv. cbn [fst snd] in *.
    destruct pc as [|k| | | |].
    + left. by rewrite Hinv.
    + left. destruct Hinv as [_ ->]. by rewrite lookup_insert_ne.
    + left. rewrite Hinv. by rewrite lookup_insert_ne.
    + right. by left.
    + right. by right.
    + right. by right.
Qed.
End crash_safety.

(** * Further properties of the code *)

(** ** More on the file registry *)

(** A probe of a file whose recorded entry carries the digest the file has
    now, and the modification time it has now, reports it unchanged and
    leaves the tables as they are. *)
Lemma _add_file_settled filename w st :
  fs w !! filename = Some st →
  _files (db w) !! filename = Some (st_mtime st, st_digest st) →
  ∃ w', _add_file filename w = (Ok (false, (st_mtime st, st_digest st)), w')
        ∧ db w' = db w.
Proof.
  intros Hfs Hfiles.
  destruct w as [[fns calls files cf es ed] fsys t st0 tr]; simpl in *.
  unfold _add_file, bind, getmtime, digest, gets, time_time, store_file,
    clear_file, modify, ret; simpl.
  rewrite Hfs; simpl. rewrite Hfiles; simpl.
  destruct (PrimFloat.eqb (st_mtime st) (st_mtime st)); simpl.
  - destruct (PrimFloat.ltb _ _); simpl; [by eauto|].
    rewrite Hfs; simpl. rewrite bool_decide_true by done. simpl.
    eexists. split; [done|]. unfold set_db, log; simpl.
    by rewrite insert_id.
  - rewrite Hfs; simpl. rewrite bool_decide_true by done. simpl.
    eexists. split; [done|]. unfold set_db, log; simpl.
    by rewrite insert_id.
Qed.

(** What a probe that returns leaves behind: either nothing changed (the
    short cut), or the recorded entry is the present modification time with
    the digest the probe returned, which is then the digest of the file. *)
Lemma _add_file_leaves filename w r w1 :
  _add_file filename w = (Ok r, w1) →
  ∃ st, fs w !! filename = Some st ∧ fs w1 = fs w ∧ now w1 = now w ∧
    ((w1 = w ∧ r.1 = false ∧ _files (db w) !! filename = Some r.2 ∧
      PrimFloat.eqb (st_mtime st) r.2.1
        && more_than_one_second_past (now w) (st_mtime st) = true)
     ∨ (_files (db w1) !! filename = Some (st_mtime st, st_digest st) ∧
        r.2.2 = st_digest st)).
Proof.
  intros H. destruct (fs w !! filename) as [st|] eqn:Hfs.
  2: { by rewrite (_add_file_missing _ _ Hfs) in H. }
  exists st. split; [done|].
  pose proof (_add_file_frame filename w) as Hfr. rewrite H in Hfr.
  simpl in Hfr. split; [apply Hfr|]. split; [apply Hfr|].
  clear Hfr. revert H.
  destruct w as [[fns calls files cf es ed] fsys t st0 tr]; simpl in *.
  unfold _add_file, bind, getmtime, digest, gets, time_time, store_file,
    clear_file, modify, ret, more_than_one_second_past; simpl.
  rewrite Hfs; simpl.
  destruct (files !! filename) as [[om od]|] eqn:Hfiles; simpl.
  - destruct (PrimFloat.eqb (st_mtime st) om) eqn:Heq; simpl.
    + destruct (PrimFloat.ltb _ _) eqn:Hlt; simpl.
      * intros [= <- <-]. left. simpl. by rewrite Heq.
      * rewrite Hfs; simpl. case_bool_decide as Hd; simpl.
        -- intros [= <- <-]. right. simpl.
           rewrite lookup_insert_eq. by rewrite Hd.
        -- intros [= <- <-]. right. simpl. by rewrite lookup_insert_eq.
    + rewrite Hfs; simpl. case_bool_decide as Hd; simpl.
      * intros [= <- <-]. right. simpl.
        rewrite lookup_insert_eq. by rewrite Hd.
      * intros [= <- <-]. right. simpl. by rewrite lookup_insert_eq.
  - rewrite Hfs; simpl. intros [= <- <-]. right. simpl.
    by rewrite lookup_insert_eq.
Qed.

(** A second probe right after a probe, with the file and the clock as
    they were, reports the file unchanged with the digest the first probe
    returned, and does not change the tables. *)
Lemma _add_file_again filename w r w1 :
  _add_file filename w = (Ok r, w1) →
  ∃ e w2, _add_file filename w1 = (Ok (false, e), w2) ∧
          e.2 = r.2.2 ∧ db w2 = db w1.
Proof.
  intros H.
  destruct (_add_file_leaves _ _ _ _ H)
    as (st & Hfs & Hfs1 & Hnow1 & [(-> & Hr & Hfiles & Hshort)|(Hfiles & Hd)]).
  - exists r.2, w. split; [|done].
    rewrite <- Hr. by destruct r as [? ?].
  - destruct (_add_file_settled filename w1 st) as (w2 & E & Hdb);
      [by rewrite Hfs1|done|].
    exists (st_mtime st, st_digest st), w2. by rewrite E.
Qed.

(** X3: probing a file twice in a row, with the file and the clock
    unchanged in between, never reports it changed the second time: the
    second probe returns the digest the first returned and leaves the
    tables as the first left them. *)
Theorem _add_file_twice filename w r w1 :
  _add_file filename w = (Ok r, w1) →
  ∃ e w2, _add_file filename w1 = (Ok (false, e), w2) ∧
          e.2 = r.2.2 ∧ db w2 = db w1.
Proof. apply _add_file_again. Qed.

(** An instance: the source file of [one_source_world]. *)
Lemma _add_file_twice_a_c :
  ∃ e w2,
    _add_file "a.c" (_add_file "a.c" one_source_world).2
      = (Ok (false, e), w2) ∧
    e.2 = "d1" ∧ db w2 = db (_add_file "a.c" one_source_world).2.
Proof.
  exact (_add_file_twice "a.c" one_source_world (true, (100%float, "d1"))
           (_add_file "a.c" one_source_world).2
           ltac:(vm_compute; reflexivity)).
Defined.
(** X4: [clear_file] forgets the file in [_files] and in [_call_files],
    touches no other file name and no other table, reports [True] exactly
    when it changed the tables, and makes the next probe of the file a
    first sight, which reports it changed. *)
Theorem clear_file_forgets filename w :
  ∃ existed w',
    clear_file filename w = (Ok existed, w') ∧
    _files (db w') !! filename = None ∧
    _call_files (db w') !! filename = None ∧
    files_outside {[filename]} w w' ∧
    probe_frame w w' ∧
    (existed = false ↔ db w' = db w) ∧
    ∀ st, fs w !! filename = Some st →
      (_add_file filename w').1 = Ok (true, (st_mtime st, st_digest st)).
Proof.
  pose proof (clear_file_outside filename w) as Hout.
  pose proof (clear_file_frame filename w) as Hfr.
  revert Hout Hfr.
  unfold clear_file, bind, gets, modify, ret; simpl. intros Hout Hfr.
  eexists _, _. split; [reflexivity|]. simpl.
  rewrite !lookup_delete_eq. split; [done|]. split; [done|].
  split; [exact Hout|]. split; [exact Hfr|]. clear Hout Hfr.
  split.
  - destruct w as [[fns calls files cf es ed] fsys t st0 tr]; simpl.
    rewrite orb_false_iff, !bool_decide_eq_false, <- !eq_None_not_Some.
    split.
    + intros [Hf Hc]. by rewrite !delete_id.
    + intros [= Hf Hc]. split.
      * rewrite <- Hf. apply lookup_delete_eq.
      * rewrite <- Hc. apply lookup_delete_eq.
  - intros st Hfs.
    unfold _add_file, bind, getmtime, digest, gets, store_file, modify, ret.
    simpl. rewrite Hfs. simpl. rewrite lookup_delete_eq. simpl.
    by rewrite Hfs.
Qed.

(** ** More on the call-file index *)

Lemma upsert3_lookup {V} (k1 : string) (k2 k3 : pykey) (v : V)
    (m : gmap string (gmap pykey (gmap pykey V))) :
  (upsert3 k1 k2 k3 v m !! k1)
    ≫= (fun datas : gmap pykey (gmap pykey V) =>
          datas !! k2 ≫= (fun m3 : gmap pykey V => m3 !! k3))
    = Some v.
Proof.
  unfold upsert3. rewrite lookup_insert_eq. simpl.
  rewrite lookup_insert_eq. simpl. apply lookup_insert_eq.
Qed.

(** X5: a record of the call-file index reads back. Once a probe of a file
    for a call has returned a digest and [_update_call_file] has recorded
    it under the same keys, the next check of that file for that call,
    with the file and the clock unchanged, reports it clean with the same
    digest and changes no table. *)
Theorem _check_call_file_after_update c n filename w r w1 :
  c ≠ KNone →
  _check_call_file c n filename w = (Ok r, w1) →
  ∃ w3,
    _check_call_file c n filename (_update_call_file c n filename r.2 w1).2
      = (Ok (false, r.2), w3) ∧
    db w3 = db (_update_call_file c n filename r.2 w1).2.
Proof.
  intros Hc H. unfold _check_call_file in H.
  destruct (_add_file filename w) as [[a|e] wa] eqn:Ea.
  2: { by rewrite (bind_raise _ _ _ _ _ Ea) in H. }
  rewrite (bind_ok _ _ _ _ _ Ea) in H.
  assert (r.2 = a.2.2 ∧ w1 = wa) as [Hr ->].
  { destruct c; [done| |]; unfold bind, gets in H; simpl in H;
      (destruct (_call_files (db wa) !! filename);
       [|by injection H as <- <-]);
      (destruct (_ ≫= _); [|by injection H as <- <-]);
      destruct (bool_decide _); by injection H as <- <-. }
  destruct (_add_file_again _ _ _ _ Ea) as (e & w2 & E2 & He & Hdb).
  set (wu := (_update_call_file c n filename r.2 wa).2).
  assert (∃ w3, _add_file filename wu = (Ok (false, e), w3) ∧ db w3 = db wu)
    as (w3 & E3 & Hdb3).
  { destruct (_add_file_leaves _ _ _ _ Ea)
      as (st & Hfs & Hfs1 & Hnow1
          & [(-> & Hr1 & Hfiles & Hshort)|(Hfiles & Hd)]).
    - pose proof E2 as E2'. rewrite Ea in E2'. injection E2' as -> <-.
      destruct w as [[fns calls files cf es ed] fsys t st0 tr]; simpl in *.
      apply andb_true_iff in Hshort as [Heq Hlt].
      unfold more_than_one_second_past in Hlt. simpl in Hlt.
      destruct e as [am ad]; simpl in *.
      exists wu. split; [|done].
      unfold wu, _add_file, bind, getmtime, gets, time_time, ret,
        _update_call_file, modify; simpl.
      rewrite Hfs; simpl. rewrite Hfiles; simpl.
      rewrite Heq; simpl. by rewrite Hlt.
    - destruct (_add_file_settled filename wu st) as (w3 & E & Hdb3).
      + unfold wu. simpl. by rewrite Hfs1.
      + unfold wu. simpl. done.
      + exists w3. split; [|done]. rewrite E.
        pose proof (_add_file_settled filename wa st) as Hs.
        destruct Hs as (w2' & E' & _); [by rewrite Hfs1|done|].
        rewrite E2 in E'. by injection E' as <- _. }
  exists w3. split; [|done].
  unfold _check_call_file. rewrite (bind_ok _ _ _ _ _ E3). simpl.
  assert ((_call_files (db w3) !! filename)
            ≫= (fun datas : gmap pykey (gmap pykey string) =>
                  datas !! n ≫= (fun m3 : gmap pykey string => m3 !! c))
          = Some r.2) as Hl.
  { rewrite Hdb3. unfold wu. simpl. apply upsert3_lookup. }
  rewrite He, <- Hr.
  destruct c; [done| |]; unfold bind, gets; simpl;
    (destruct (_call_files (db w3) !! filename) as [datas|]; [|done]);
    simpl in Hl; rewrite Hl; by rewrite bool_decide_true.
Qed.

(** An instance: the source file of [one_source_world], for call 0 of
    ["m.f"]. *)
Lemma _check_call_file_after_update_a_c :
  ∃ w3,
    _check_call_file (KInt 0) (KStr "m.f") "a.c"
      (_update_call_file (KInt 0) (KStr "m.f") "a.c" "d1"
         (_check_call_file (KInt 0) (KStr "m.f") "a.c" one_source_world).2).2
      = (Ok (false, "d1"), w3) ∧
    db w3 =
      db (_update_call_file (KInt 0) (KStr "m.f") "a.c" "d1"
            (_check_call_file (KInt 0) (KStr "m.f") "a.c"
               one_source_world).2).2.
Proof.
  exact (_check_call_file_after_update (KInt 0) (KStr "m.f") "a.c"
           one_source_world (true, "d1")
           (_check_call_file (KInt 0) (KStr "m.f") "a.c" one_source_world).2
           ltac:(discriminate) ltac:(vm_compute; reflexivity)).
Defined.
(** ** More on the function registry *)

Lemma prune_call_files_lookup name cf f m :
  prune_call_files name cf !! f = Some m ↔
  ∃ v, cf !! f = Some v ∧ m = delete name v ∧ m ≠ ∅.
Proof.
  unfold prune_call_files. rewrite map_lookup_filter_Some, lookup_fmap.
  simpl. split.
  - intros [H Hne]. destruct (cf !! f) as [v|]; simpl in H; [|done].
    injection H as <-. by exists v.
  - intros (v & -> & -> & Hne). done.
Qed.

Lemma prune_call_files_untouched name cf :
  call_files_touched name cf = false → prune_call_files name cf = cf.
Proof.
  unfold call_files_touched. rewrite bool_decide_eq_false. intros Hno.
  apply map_eq. intros f. apply option_eq. intros m.
  rewrite prune_call_files_lookup. split.
  - intros (v & Hv & -> & Hne). rewrite Hv. f_equal. symmetry.
    apply delete_id. apply eq_None_not_Some. intros Hs.
    apply Hno. exists f, v. auto.
  - intros Hm. exists m. split; [done|].
    assert (m !! name = None) as Hn.
    { apply eq_None_not_Some. intros Hs. apply Hno. exists f, m. auto. }
    rewrite delete_id by done. split; [done|].
    intros ->. apply Hno. exists f, ∅. split; [done|]. right.
    apply delete_empty.
Qed.

Lemma prune_call_files_fixed name cf :
  prune_call_files name cf = cf → call_files_touched name cf = false.
Proof.
  intros Hfix. unfold call_files_touched. rewrite bool_decide_eq_false.
  intros (f & v & Hv & Hor).
  pose proof Hv as Hv'. rewrite <- Hfix in Hv'.
  apply prune_call_files_lookup in Hv' as (v' & Hv2 & Hd & Hne).
  rewrite Hv in Hv2. injection Hv2 as <-.
  destruct Hor as [[x Hx]|He].
  - rewrite Hd, lookup_delete_eq in Hx. done.
  - rewrite <- Hd in He. done.
Qed.

Lemma prune_call_files_twice name cf :
  call_files_touched name (prune_call_files name cf) = false.
Proof.
  unfold call_files_touched. rewrite bool_decide_eq_false.
  intros (f & m & Hm & Hor).
  apply prune_call_files_lookup in Hm as (v & Hv & -> & Hne).
  destruct Hor as [[x Hx]|He].
  - by rewrite lookup_delete_eq in Hx.
  - rewrite delete_id in He by apply lookup_delete_eq. done.
Qed.

(** X6: [clear_function] reports [False] exactly when it left the tables
    as they were; a second [clear_function] of the same name finds nothing
    left to remove; and the entries of every other function name in
    [_functions] and [_function_calls], and the whole of [_files], are
    untouched. *)
Theorem clear_function_reports_change name w :
  let r := clear_function name w in
  (r.1 = Ok false ↔ db r.2 = db w) ∧
  (clear_function name r.2).1 = Ok false ∧
  db (clear_function name r.2).2 = db r.2 ∧
  _files (db r.2) = _files (db w) ∧
  ∀ g, g ≠ name →
    _functions (db r.2) !! g = _functions (db w) !! g ∧
    _function_calls (db r.2) !! g = _function_calls (db w) !! g.
Proof.
  destruct w as [[fns calls files cf es ed] fsys t st0 tr].
  unfold clear_function, bind, gets, modify, ret, set_db; simpl.
  split; [|split; [|split; [|split]]].
  - split.
    + intros [= H].
      rewrite !orb_false_iff, !bool_decide_eq_false,
        <- !eq_None_not_Some in H.
      destruct H as [[[[H1 H2] H3] H4] H5].
      rewrite !delete_id by done.
      by rewrite (prune_call_files_untouched _ _ H5).
    + intros [= H1 H2 H3 H4 H5]. f_equal.
      rewrite !orb_false_iff, !bool_decide_eq_false,
        <- !eq_None_not_Some.
      repeat split.
      * rewrite <- H1. apply lookup_delete_eq.
      * rewrite <- H2. apply lookup_delete_eq.
      * rewrite <- H4. apply lookup_delete_eq.
      * rewrite <- H5. apply lookup_delete_eq.
      * by apply prune_call_files_fixed.
  - f_equal. rewrite !lookup_delete_eq.
    rewrite !bool_decide_false by (by intros [? ?]). simpl.
    apply prune_call_files_twice.
  - f_equal; try (apply delete_id, lookup_delete_eq).
    apply prune_call_files_untouched, prune_call_files_twice.
  - done.
  - intros g Hg. by rewrite !lookup_delete_ne.
Qed.

Lemma _update_function_tables function digest w :
  let d := db (_update_function function digest w).2 in
  _functions d = <[function := digest]> (_functions (db w)) ∧
  _function_calls d = delete function (_function_calls (db w)) ∧
  _files d = _files (db w).
Proof. intros d. repeat split. apply insert_delete_eq. Qed.

Lemma _check_function_lookup function_name function_digest w :
  _check_function function_name function_digest w =
    (Ok match _functions (db w) !! function_name with
        | Some old_digest => negb (bool_decide (function_digest = old_digest))
        | None => true
        end, w).
Proof.
  unfold _check_function, bind, gets; simpl.
  destruct (_functions (db w) !! function_name); simpl; [|done].
  by destruct (bool_decide _).
Qed.

Lemma _check_call_lookup function bound w :
  _check_call function bound w =
    (Ok match _function_calls (db w) !! function
          ≫= (fun datas => find_call bound datas 0) with
        | Some (i, r) => (Some i, r)
        | None => (None, VNone)
        end, w).
Proof.
  unfold _check_call, bind, gets; simpl.
  destruct (_function_calls (db w) !! function) as [datas|]; simpl; [|done].
  by destruct (find_call bound datas 0) as [[? ?]|].
Qed.

(** X7: recording a new digest for a function forgets its cached calls,
    and only its own. After [_update_function], [_check_function] finds
    the function dirty exactly for another digest than the recorded one,
    [_check_call] finds no record for any arguments of the function, and
    both answer for every other function as before. *)
Theorem _update_function_forgets_calls function digest w :
  let w' := (_update_function function digest w).2 in
  (∀ d', (_check_function function d' w').1
           = Ok (negb (bool_decide (d' = digest)))) ∧
  (∀ bound, (_check_call function bound w').1 = Ok (None, VNone)) ∧
  ∀ g, g ≠ function →
    (∀ d', (_check_function g d' w').1 = (_check_function g d' w).1) ∧
    (∀ bound, (_check_call g bound w').1 = (_check_call g bound w).1).
Proof.
  intros w'.
  destruct (_update_function_tables function digest w) as (Hf & Hc & _).
  fold w' in Hf, Hc.
  split; [|split].
  - intros d'. rewrite _check_function_lookup. cbn [fst].
    by rewrite Hf, lookup_insert_eq.
  - intros bound. rewrite _check_call_lookup. cbn [fst].
    by rewrite Hc, lookup_delete_eq.
  - intros g Hg. split.
    + intros d'. rewrite !_check_function_lookup. cbn [fst].
      by rewrite Hf, lookup_insert_ne.
    + intros bound. rewrite !_check_call_lookup. cbn [fst].
      by rewrite Hc, lookup_delete_ne.
Qed.

(** ** More on the call table *)

Lemma find_call_app_other bound b r datas start :
  bound ≠ b →
  find_call bound (datas ++ [(b, r)]) start = find_call bound datas start.
Proof.
  intros Hne. revert start.
  induction datas as [|[ob res] l IH]; intros start; simpl.
  - by rewrite bool_decide_false.
  - case_bool_decide; [done|]. apply IH.
Qed.

Lemma find_call_app_new b r datas start :
  find_call b datas start = None →
  find_call b (datas ++ [(b, r)]) start = Some (start + length datas, r).
Proof.
  revert start. induction datas as [|[ob res] l IH]; intros start; simpl.
  - rewrite bool_decide_true by done. intros _. do 2 f_equal. lia.
  - case_bool_decide; [done|]. intros H'. rewrite (IH _ H').
    do 2 f_equal. lia.
Qed.

Lemma find_call_insert b old r datas start j :
  find_call b datas start = Some (start + j, old) →
  find_call b (<[j := (b, r)]> datas) start = Some (start + j, r) ∧
  ∀ bound, bound ≠ b →
    find_call bound (<[j := (b, r)]> datas) start
      = find_call bound datas start.
Proof.
  revert start j. induction datas as [|[ob res] l IH]; intros start j; simpl.
  - done.
  - case_bool_decide as Hb.
    + intros [= Hj <-]. assert (j = 0) as -> by lia. simpl.
      rewrite bool_decide_true by done. split; [do 2 f_equal; lia|].
      intros bound Hne. subst ob. by rewrite !bool_decide_false.
    + intros H'. destruct j as [|j].
      * apply find_call_lookup in H' as (k & Hk & _). lia.
      * replace (start + S j) with (S start + j) in * by lia.
        destruct (IH _ _ H') as [H1 H2]. simpl.
        rewrite bool_decide_false by done. split; [done|].
        intros bound Hne. case_bool_decide; [done|]. by apply H2.
Qed.

Lemma _update_call_after_check function bound w c old result :
  (_check_call function bound w).1 = Ok (c, old) →
  ∃ i w',
    _update_call function c bound result w = (Ok i, w') ∧
    (∀ j, c = Some j → i = j) ∧
    (_check_call function bound w').1 = Ok (Some i, result) ∧
    (∀ b, b ≠ bound →
       (_check_call function b w').1 = (_check_call function b w).1) ∧
    (∀ g b, g ≠ function →
       (_check_call g b w').1 = (_check_call g b w).1) ∧
    _functions (db w') = _functions (db w) ∧
    _files (db w') = _files (db w) ∧
    _call_files (db w') = _call_files (db w).
Proof.
  rewrite _check_call_lookup. simpl.
  unfold _update_call, bind, gets, store_calls, modify, ret; simpl.
  destruct (_function_calls (db w) !! function) as [datas|] eqn:Ed; simpl.
  - destruct (find_call bound datas 0) as [[i0 r0]|] eqn:Ef.
    + intros [= <- <-].
      pose proof (find_call_lt _ _ _ _ _ Ef) as Hlt. simpl in Hlt.
      rewrite bool_decide_true by done. simpl.
      eexists _, _. split; [done|]. split; [by intros j [= ->]|].
      destruct (find_call_insert bound r0 result datas 0 i0 Ef) as [H1 H2].
      repeat split; try done.
      * rewrite _check_call_lookup. simpl. rewrite lookup_insert_eq. simpl.
        by rewrite H1.
      * intros b Hb. rewrite !_check_call_lookup. simpl.
        rewrite lookup_insert_eq, Ed. simpl. by rewrite (H2 _ Hb).
      * intros g b Hg. rewrite !_check_call_lookup. simpl.
        by rewrite lookup_insert_ne.
    + intros [= <- <-]. simpl.
      eexists _, _. split; [done|]. split; [done|].
      repeat split; try done.
      * rewrite _check_call_lookup. simpl. rewrite lookup_insert_eq. simpl.
        rewrite (find_call_app_new _ _ _ _ Ef).
        rewrite length_app. simpl. do 3 f_equal. lia.
      * intros b Hb. rewrite !_check_call_lookup. simpl.
        rewrite lookup_insert_eq, Ed. simpl.
        by rewrite find_call_app_other.
      * intros g b Hg. rewrite !_check_call_lookup. simpl.
        by rewrite lookup_insert_ne.
  - intros [= <- <-]. simpl.
    eexists _, _. split; [done|]. split; [done|].
    repeat split; try done.
    + rewrite _check_call_lookup. simpl. rewrite lookup_insert_eq. simpl.
      by rewrite bool_decide_true.
    + intros b Hb. rewrite !_check_call_lookup. simpl.
      rewrite lookup_insert_eq, Ed. simpl. by rewrite bool_decide_false.
    + intros g b Hg. rewrite !_check_call_lookup. simpl.
      by rewrite lookup_insert_ne.
Qed.

(** X8: the call table reads back what was written. With the call id that
    [_check_call] returned for the same function and arguments,
    [_update_call] returns, keeps that id when there was one, and the next
    [_check_call] with these arguments finds the new result under the
    returned id; the answers for other arguments and for other functions
    stay as they were. *)
Theorem _check_call_after_update function bound w c old result :
  (_check_call function bound w).1 = Ok (c, old) →
  ∃ i w',
    _update_call function c bound result w = (Ok i, w') ∧
    (∀ j, c = Some j → i = j) ∧
    (_check_call function bound w').1 = Ok (Some i, result) ∧
    (∀ b, b ≠ bound →
       (_check_call function b w').1 = (_check_call function b w).1) ∧
    (∀ g b, g ≠ function →
       (_check_call g b w').1 = (_check_call g b w).1).
Proof.
  intros H.
  destruct (_update_call_after_check _ _ _ _ _ result H)
    as (i & w' & ? & ? & ? & ? & ? & _).
  by exists i, w'.
Qed.

(** An instance: a second result for [add(ctx, 2, 3)]. *)
Lemma _check_call_after_update_add :
  ∃ i w',
    _update_call "m.add" (Some 0) add_args (VInt 7) after_first_add
      = (Ok i, w') ∧
    (∀ j, Some 0 = Some j → i = j) ∧
    (_check_call "m.add" add_args w').1 = Ok (Some i, VInt 7) ∧
    (∀ b, b ≠ add_args →
       (_check_call "m.add" b w').1
         = (_check_call "m.add" b after_first_add).1) ∧
    (∀ g b, g ≠ "m.add" →
       (_check_call g b w').1 = (_check_call g b after_first_add).1).
Proof.
  exact (_check_call_after_update "m.add" add_args after_first_add (Some 0)
           (VInt 5) (VInt 7) ltac:(vm_compute; reflexivity)).
Defined.

(** ** More on the external-dependency index *)

Lemma check_one_external_src_flag c n src acc w :
  ∃ acc' w', check_one_external_src c n src acc w = (Ok acc', w') ∧
    (acc'.1 = true ↔ acc.1 = true ∨ fs w !! src = None).
Proof.
  unfold check_one_external_src, catch, bind.
  destruct (fs w !! src) as [st|] eqn:Hs.
  - destruct (_check_call_file_present c n src w) as (r & w1 & E); [by eauto|].
    rewrite E. destruct r.1; simpl; eexists _, _; (split; [done|]); simpl;
      naive_solver.
  - rewrite (_check_call_file_missing _ _ _ _ Hs). simpl.
    eexists _, _; naive_solver.
Qed.

Lemma check_external_srcs_flag c n srcs acc w :
  ∃ acc' w', for_each srcs (check_one_external_src c n) acc w = (Ok acc', w') ∧
    probe_frame w w' ∧
    (acc'.1 = true ↔ acc.1 = true ∨ ∃ s, s ∈ srcs ∧ fs w !! s = None).
Proof.
  revert acc w. induction srcs as [|src l IH]; intros acc w.
  - eexists _, _. split; [done|]. split; [done|]. simpl.
    split; [auto|]. intros [?|(s & Hs & _)]; [done|].
    by apply elem_of_nil in Hs.
  - destruct (check_one_external_src_flag c n src acc w)
      as (acc1 & w1 & E & Hflag).
    pose proof (check_one_external_src_frame c n src acc w) as Hp.
    rewrite E in Hp. simpl in Hp.
    destruct (IH acc1 w1) as (acc2 & w2 & E2 & Hp2 & Hflag2).
    exists acc2, w2. split; [|split].
    + simpl. by rewrite (bind_ok _ _ _ _ _ E).
    + by etrans.
    + rewrite Hflag2, Hflag, (pf_fs _ _ Hp). split.
      * intros [[?|?]|(s & Hs & Hn)]; [by left| |].
        -- right. exists src. split; [left|done].
        -- right. exists s. split; [by right|done].
      * intros [?|(s & Hs & Hn)]; [by left; left|].
        apply elem_of_cons in Hs as [->|Hs]; [by left; right|].
        right. eauto.
Qed.

(** What [_check_external_files] answers: the two recorded sets, and the
    dirty flag exactly when a recorded source is not on disk. *)
Lemma _check_external_files_spec c n w :
  let srcs := default ∅ (_external_srcs (db w) !! n ≫= (fun m => m !! c)) in
  let dsts := default ∅ (_external_dsts (db w) !! n ≫= (fun m => m !! c)) in
  ∃ dirty dg w',
    _check_external_files c n w = (Ok (dirty, srcs, dsts, dg), w') ∧
    (dirty = true ↔ ∃ s, s ∈ srcs ∧ fs w !! s = None).
Proof.
  intros srcs dsts. subst srcs dsts.
  unfold _check_external_files. unfold bind at 1, gets at 1.
  destruct (_external_srcs (db w) !! n ≫= _) as [srcs|].
  - destruct (check_external_srcs_flag c n (elements srcs) (false, []) w)
      as (acc & w1 & E & Hp & Hflag).
    unfold bind at 1 2. rewrite E. simpl.
    unfold bind, gets, ret. rewrite (pf_external_dsts _ _ Hp).
    eexists _, _, _. split; [done|].
    rewrite Hflag. simpl. split.
    + intros [?|(s & Hs & Hn)]; [done|]. exists s.
      by rewrite <- elem_of_elements.
    + intros (s & Hs & Hn). right. exists s. by rewrite elem_of_elements.
  - simpl. eexists _, _, _. split; [done|]. split; [done|].
    intros (s & Hs & _). set_solver.
Qed.

Lemma update_call_files_loop c n digests w :
  for_each digests (fun sd _ => _update_call_file c n sd.1 sd.2) tt w =
    (Ok tt,
     set_db (fun d =>
       Backend (_functions d) (_function_calls d) (_files d)
               (record_digests c n digests (_call_files d))
               (_external_srcs d) (_external_dsts d)) w).
Proof.
  revert w. induction digests as [|[s d] l IH]; intros w; simpl.
  - by destruct w as [[] ? ? ? ?].
  - unfold bind at 1, _update_call_file at 1, modify at 1.
    rewrite IH. by destruct w as [[] ? ? ? ?].
Qed.

Lemma upsert2_lookup {V} (k1 k2 : pykey) (v : V) (m : gmap pykey (gmap pykey V)) :
  upsert2 k1 k2 v m !! k1 ≫= (fun m2 : gmap pykey V => m2 !! k2) = Some v.
Proof.
  unfold upsert2. rewrite lookup_insert_eq. simpl. apply lookup_insert_eq.
Qed.

(** X9: the external-dependency index reads back what was written. After
    [_update_external_files] under two keys, [_check_external_files] under
    the same keys returns the two sets that were stored, and it never
    raises: a stored source that is not on disk sets the dirty flag, and
    nothing else does. *)
Theorem _check_external_files_after_update c n srcs dsts digests w :
  ∃ dirty dg w2,
    _check_external_files c n
        (_update_external_files c n srcs dsts digests w).2
      = (Ok (dirty, srcs, dsts, dg), w2) ∧
    (dirty = true ↔ ∃ s, s ∈ srcs ∧ fs w !! s = None).
Proof.
  set (w1 := (_update_external_files c n srcs dsts digests w).2).
  assert (_external_srcs (db w1) !! n ≫= (fun m => m !! c) = Some srcs ∧
          _external_dsts (db w1) !! n ≫= (fun m => m !! c) = Some dsts ∧
          fs w1 = fs w) as (Hs & Hd & Hfs).
  { set (w0 := set_db (fun d =>
        Backend (_functions d) (_function_calls d) (_files d) (_call_files d)
                (upsert2 n c srcs (_external_srcs d))
                (upsert2 n c dsts (_external_dsts d))) w).
    change w1 with
      (for_each digests (fun sd _ => _update_call_file c n sd.1 sd.2) tt w0).2.
    rewrite update_call_files_loop. simpl. by rewrite !upsert2_lookup. }
  destruct (_check_external_files_spec c n w1) as (dirty & dg & w2 & E & Hf).
  rewrite Hs, Hd in E. simpl in E. rewrite Hs in Hf. simpl in Hf.
  exists dirty, dg, w2. split; [done|]. by rewrite <- Hfs.
Qed.

(** ** Registration through the whole stack *)

Lemma update_frame_at f pre cur rest w :
  stack w = pre ++ CallFrame cur :: rest →
  ∃ w', update_frame (length pre) f w = (Ok tt, w') ∧
    stack w' = pre ++ CallFrame (f cur) :: rest ∧ fs w' = fs w.
Proof.
  intros H. eexists. split; [done|]. simpl. rewrite H.
  rewrite list_lookup_middle by done.
  replace (length pre) with (length pre + 0) at 1 by lia.
  by rewrite insert_app_r.
Qed.

Lemma register_src_at pre l src cur rest w :
  stack w = pre ++ CallFrame cur :: rest →
  ∃ r w', register_src (length pre) l src tt w = (r, w') ∧ fs w' = fs w ∧
    match fs w !! src with
    | None => r = Raise OSError
    | Some _ =>
        r = Ok tt ∧
        ∃ l', stack w' = pre ++ CallFrame l' :: rest ∧
              registered_into cur l' [src] []
    end.
Proof.
  intros Hst. unfold register_src.
  destruct (update_frame_at
              (fun l => CallLocals (l_function_name l) (l_call_id l)
                          (l_external_digests l)
                          (l_external_srcs l ∪ {[src]}) (l_external_dsts l))
              pre cur rest w Hst) as (w1 & E1 & Hst1 & Hfs1).
  rewrite (bind_ok _ _ _ _ _ E1).
  destruct (fs w !! src) as [st|] eqn:Hsrc.
  - destruct (_check_call_file_present (key_of_call_id (l_call_id l))
                (KStr (l_function_name l)) src w1) as (c & w2 & E2).
    { rewrite Hfs1, Hsrc. eauto. }
    rewrite (bind_ok _ _ _ _ _ E2).
    pose proof (_check_call_file_frame (key_of_call_id (l_call_id l))
                  (KStr (l_function_name l)) src w1) as Hf.
    rewrite E2 in Hf. simpl in Hf.
    assert (stack w2 = pre ++ CallFrame
              (CallLocals (l_function_name cur) (l_call_id cur)
                 (l_external_digests cur)
                 (l_external_srcs cur ∪ {[src]}) (l_external_dsts cur))
              :: rest) as Hst2 by (by rewrite (pf_stack _ _ Hf)).
    assert (fs w2 = fs w) as Hfs2 by (by rewrite (pf_fs _ _ Hf)).
    destruct c.1.
    + destruct (update_frame_at
                  (fun l => CallLocals (l_function_name l) (l_call_id l)
                              (l_external_digests l ++ [(src, c.2)])
                              (l_external_srcs l) (l_external_dsts l))
                  pre _ rest w2 Hst2) as (w3 & E3 & Hst3 & Hfs3).
      eexists _, _. split; [exact E3|]. split; [congruence|].
      split; [done|]. eexists. split; [exact Hst3|].
      repeat split; simpl; try set_solver.
      eexists. split; [done|]. apply Forall_singleton. simpl. set_solver.
    + eexists _, _. split; [done|]. split; [done|]. split; [done|].
      eexists. split; [exact Hst2|].
      repeat split; simpl; try set_solver.
      exists []. by rewrite app_nil_r.
  - assert (fs w1 !! src = None) as Hsrc1 by (by rewrite Hfs1).
    rewrite (bind_raise _ _ _ _ _
               (_check_call_file_missing _ _ _ _ Hsrc1)).
    eauto.
Qed.

Lemma register_srcs_at pre l srcs : ∀ cur rest w,
  stack w = pre ++ CallFrame cur :: rest →
  ∃ r w', for_each srcs (register_src (length pre) l) tt w = (r, w') ∧
    fs w' = fs w ∧
    r = (if bool_decide (Forall (fun s => is_Some (fs w !! s)) srcs)
         then Ok tt else Raise OSError) ∧
    (r = Ok tt →
       ∃ l', stack w' = pre ++ CallFrame l' :: rest ∧
             registered_into cur l' srcs []).
Proof.
  induction srcs as [|src srcs IH]; intros cur rest w Hst; simpl.
  - eexists _, _. split; [done|]. split; [done|]. split.
    + done.
    + intros _. eexists. split; [done|]. apply registered_into_refl.
  - destruct (register_src_at pre l src cur rest w Hst)
      as (r1 & w1 & E1 & Hfs1 & Hcase).
    destruct (fs w !! src) as [st|] eqn:Hsrc.
    + destruct Hcase as (-> & l1 & Hst1 & Hr1).
      rewrite (bind_ok _ _ _ _ _ E1).
      destruct (IH l1 rest w1 Hst1) as (r & w2 & E2 & Hfs2 & Hr & Hok).
      exists r, w2. split; [done|]. split; [congruence|]. split.
      * rewrite Hr, Hfs1. apply (f_equal (fun b : bool =>
          if b then Ok tt else Raise OSError)).
        apply bool_decide_ext. rewrite Forall_cons, Hsrc. naive_solver.
      * intros Hrok. destruct (Hok Hrok) as (l2 & Hst2 & Hr2).
        exists l2. split; [done|].
        apply (registered_into_trans _ _ _ [src] [] srcs [] Hr1 Hr2).
    + subst r1. rewrite (bind_raise _ _ _ _ _ E1).
      eexists _, _. split; [done|]. split; [done|]. split; [|done].
      rewrite bool_decide_false; [done|].
      rewrite Forall_cons, Hsrc. intros [[? ?] _]. done.
Qed.

Lemma add_to_frame_at pre l srcs dsts cur rest w :
  stack w = pre ++ CallFrame cur :: rest →
  ∃ r w', add_to_frame (length pre) l srcs dsts w = (r, w') ∧
    fs w' = fs w ∧
    r = (if bool_decide (Forall (fun s => is_Some (fs w !! s)) srcs)
         then Ok tt else Raise OSError) ∧
    (r = Ok tt →
       ∃ l', stack w' = pre ++ CallFrame l' :: rest ∧
             registered_into cur l' srcs dsts).
Proof.
  intros Hst. unfold add_to_frame.
  destruct (register_srcs_at pre l srcs cur rest w Hst)
    as (r1 & w1 & E1 & Hfs1 & Hr & Hok).
  destruct (bool_decide (Forall _ srcs)); subst r1.
  - destruct (Hok eq_refl) as (l1 & Hst1 & Hr1).
    rewrite (bind_ok _ _ _ _ _ E1).
    destruct (update_frame_at
                (fun l => CallLocals (l_function_name l) (l_call_id l)
                            (l_external_digests l) (l_external_srcs l)
                            (l_external_dsts l ∪ list_to_set dsts))
                pre l1 rest w1 Hst1) as (w2 & E2 & Hst2 & Hfs2).
    exists (Ok tt), w2. split; [done|]. split; [congruence|].
    split; [done|]. intros _. eexists. split; [exact Hst2|].
    assert (registered_into l1
              (CallLocals (l_function_name l1) (l_call_id l1)
                 (l_external_digests l1) (l_external_srcs l1)
                 (l_external_dsts l1 ∪ list_to_set dsts)) [] dsts) as Hr2.
    { repeat split; simpl; try set_solver.
      exists []. by rewrite app_nil_r. }
    pose proof (registered_into_trans _ _ _ _ _ _ _ Hr1 Hr2) as Hr.
    by rewrite app_nil_r in Hr.
  - rewrite (bind_raise _ _ _ _ _ E1).
    eexists _, _. split; [done|]. split; [done|]. split; done.
Qed.

Lemma frame_registered_other srcs dsts fr :
  is_call_frame fr = false → frame_registered srcs dsts fr fr.
Proof. by destruct fr. Qed.

(** The walk over the stack from depth [length pre] outwards. It ends in
    [ValueError] past the outermost frame, having registered into every
    frame of [Database.call] on its way, unless a source is not on disk:
    then the first such frame it meets raises [OSError]. *)
Lemma walk_frames_spec srcs dsts : ∀ frames pre w,
  stack w = pre ++ frames →
  ∃ r w', walk_frames frames (length pre) srcs dsts w = (r, w') ∧
    r = (if bool_decide (Forall (fun s => is_Some (fs w !! s)) srcs)
            || negb (existsb is_call_frame frames)
         then Raise ValueError else Raise OSError) ∧
    (r = Raise ValueError →
       ∃ frames', stack w' = pre ++ frames' ∧
                  Forall2 (frame_registered srcs dsts) frames frames').
Proof.
  induction frames as [|fr frames IH]; intros pre w Hst; simpl.
  - eexists _, _. split; [done|]. split.
    + by rewrite orb_true_r.
    + intros _. exists []. split; [done|constructor].
  - assert (∀ fr' w1, stack w1 = pre ++ fr' :: frames → fs w1 = fs w →
              ∃ r w',
                walk_frames frames (S (length pre)) srcs dsts w1 = (r, w') ∧
                r = (if bool_decide
                          (Forall (fun s => is_Some (fs w !! s)) srcs)
                        || negb (existsb is_call_frame frames)
                     then Raise ValueError else Raise OSError) ∧
                (r = Raise ValueError →
                   ∃ frames', stack w' = pre ++ fr' :: frames' ∧
                     Forall2 (frame_registered srcs dsts) frames frames'))
      as Hrest.
    { intros fr' w1 Hst1 Hfs1.
      destruct (IH (pre ++ [fr']) w1) as (r & w' & E & Hr & Hok).
      { by rewrite <- app_assoc. }
      rewrite length_app, Nat.add_1_r in E.
      exists r, w'. split; [done|]. rewrite Hfs1 in Hr. split; [done|].
      intros Hv. destruct (Hok Hv) as (frames' & Hst' & HF).
      exists frames'. split; [|done]. by rewrite Hst', <- app_assoc. }
    destruct fr as [cur|]; simpl.
    + destruct (add_to_frame_at pre cur srcs dsts cur frames w Hst)
        as (r1 & w1 & E1 & Hfs1 & Hr1 & Hok1).
      destruct (bool_decide (Forall _ srcs)) eqn:Hall; subst r1; simpl.
      * destruct (Hok1 eq_refl) as (l1 & Hst1 & Hreg1).
        rewrite (bind_ok _ _ _ _ _ E1).
        destruct (Hrest _ _ Hst1 Hfs1) as (r & w' & E & Hr & Hok).
        exists r, w'. split; [done|]. split; [done|].
        intros Hv. destruct (Hok Hv) as (frames' & Hst' & HF).
        exists (CallFrame l1 :: frames'). split; [done|].
        by constructor.
      * rewrite (bind_raise _ _ _ _ _ E1). eexists _, _.
        split; [done|]. split; [done|]. done.
    + destruct (Hrest OtherFrame w Hst eq_refl) as (r & w' & E & Hr & Hok).
      exists r, w'. split; [done|]. split; [done|].
      intros Hv. destruct (Hok Hv) as (frames' & Hst' & HF).
      exists (OtherFrame :: frames'). split; [done|]. by constructor.
Qed.

(** X10: a registration that returns has grown the locals of every frame
    of [Database.call] on the stack, the outer calls as well as the
    innermost one, by the registered sources and destinations, and has
    left every other frame alone. *)
Theorem add_external_dependencies_reaches_every_call srcs dsts w w' :
  add_external_dependencies_to_call srcs dsts w = (Ok tt, w') →
  Forall2 (frame_registered srcs dsts) (stack w) (stack w').
Proof.
  unfold add_external_dependencies_to_call, catch.
  unfold bind at 1, gets at 1.
  destruct (walk_frames_spec srcs dsts (stack w) [] w eq_refl)
    as (r & w1 & E & Hr & Hok).
  simpl in E. rewrite E.
  destruct (_ || _); subst r.
  - intros [= <-]. destruct (Hok eq_refl) as (frames' & -> & HF). done.
  - done.
Qed.

(** An instance: a source registered from inside two nested calls. *)
Lemma add_external_dependencies_reaches_nested :
  Forall2 (frame_registered ["a.c"] ["a.o"]) (stack nested_calls)
    (stack (add_external_dependencies_to_call ["a.c"] ["a.o"]
              nested_calls).2).
Proof.
  exact (add_external_dependencies_reaches_every_call ["a.c"] ["a.o"]
           nested_calls _ ltac:(vm_compute; reflexivity)).
Defined.

(** X11: when [add_external_dependencies_to_call] raises. It raises
    [OSError] exactly when it is called under a frame of [Database.call]
    with a source that is not on disk; in every other case it returns,
    also when no cached call is in flight. *)
Theorem add_external_dependencies_raises_iff srcs dsts w :
  (add_external_dependencies_to_call srcs dsts w).1 =
    if existsb is_call_frame (stack w)
       && negb (bool_decide (Forall (fun s => is_Some (fs w !! s)) srcs))
    then Raise OSError else Ok tt.
Proof.
  unfold add_external_dependencies_to_call, catch.
  unfold bind at 1, gets at 1.
  destruct (walk_frames_spec srcs dsts (stack w) [] w eq_refl)
    as (r & w1 & E & Hr & _).
  simpl in E. rewrite E. subst r.
  destruct (bool_decide _), (existsb _ _); done.
Qed.
(** ** [cache] and the next [prepare] *)

Lemma _check_function_pure n d w : (_check_function n d w).2 = w.
Proof. by rewrite _check_function_lookup. Qed.

Lemma _check_call_pure n b w : (_check_call n b w).2 = w.
Proof. by rewrite _check_call_lookup. Qed.

(** [prepare] is its four checks in a row. *)
Lemma prepare_steps n d b srcs dsts w p w1 :
  prepare n d b srcs dsts w = (Ok p, w1) ↔
  (_check_function n d w).1 = Ok (function_dirty p) ∧
  (_check_call n b w).1 = Ok (call_id p, old_result p) ∧
  ∃ wa,
    _check_call_files (key_of_call_id (call_id p)) (KStr n) (elements srcs) w
      = (Ok (call_file_digests p), wa) ∧
    _check_external_files (KStr n) (key_of_call_id (call_id p)) wa
      = (Ok (external_dirty p, external_srcs p, external_dsts p,
             external_digests p), w1).
Proof.
  unfold prepare. unfold bind at 1. rewrite _check_function_lookup.
  lazy beta iota.
  unfold bind at 1. rewrite _check_call_lookup. lazy beta iota.
  cbn [fst snd].
  set (fd := match _functions (db w) !! n with
             | Some od => negb (bool_decide (d = od)) | None => true end).
  set (c := match _function_calls (db w) !! n ≫= _ with
            | Some (i, r) => (Some i, r) | None => (None, VNone) end).
  unfold bind.
  destruct (_check_call_files _ _ _ w) as [[cfd|e] wa] eqn:E1.
  - destruct (_check_external_files _ _ wa) as [[[[[xd xs] xt] xg]|e] wb]
      eqn:E2.
    + split.
      * intros [= <- <-]. simpl. destruct c. repeat split; try done.
        exists wa. by rewrite E1, E2.
      * intros (Hfd & Hc & wa' & E1' & E2').
        destruct p as [pfd pid pold pcfd pxd pxs pxt pxg]; simpl in *.
        injection Hfd as <-. injection Hc as Hc.
        assert (c.1 = pid ∧ c.2 = pold) as [<- <-]
          by (by rewrite Hc).
        rewrite E1 in E1'. injection E1' as <- <-.
        rewrite E2 in E2'. by injection E2' as <- <- <- <- <-.
    + split; [done|].
      intros (Hfd & Hc & wa' & E1' & E2'). injection Hc as Hc.
      assert (call_id p = c.1) as Hc1 by (by rewrite Hc).
      rewrite Hc1 in E1', E2'.
      rewrite E1 in E1'. injection E1' as _ <-.
      rewrite E2 in E2'. done.
  - split; [done|].
    intros (Hfd & Hc & wa' & E1' & E2'). injection Hc as Hc.
    assert (call_id p = c.1) as Hc1 by (by rewrite Hc).
    rewrite Hc1 in E1'.
    rewrite E1 in E1'. done.
Qed.

(** What [cache] leaves in the tables, given the answers that
    [_check_function] and [_check_call] give in the world it starts from:
    the function is clean, the call is found with the new result, the two
    external sets are filed under the call's index first and the function
    name second, and [_call_files] holds the submitted digests on top of
    what was there, less the function's records if it was dirty. *)
Lemma cache_after_checks fd n d c old b r cfd es ed eg w :
  (_check_function n d w).1 = Ok fd →
  (_check_call n b w).1 = Ok (c, old) →
  ∃ i w2,
    cache fd n d c b r cfd es ed eg w = (Ok tt, w2) ∧
    (fd = false → ∀ j, c = Some j → i = j) ∧
    (_check_function n d w2).1 = Ok false ∧
    (_check_call n b w2).1 = Ok (Some i, r) ∧
    _external_srcs (db w2) !! KInt i ≫= (fun m => m !! KStr n) = Some es ∧
    _external_dsts (db w2) !! KInt i ≫= (fun m => m !! KStr n) = Some ed ∧
    _files (db w2) = _files (db w) ∧
    _call_files (db w2) =
      record_digests (KStr n) (KInt i) eg
        (record_digests (KInt i) (KStr n) cfd
           (if fd then prune_call_files (KStr n) (_call_files (db w))
            else _call_files (db w))) ∧
    db_only w w2.
Proof.
  intros Hfd Hc.
  assert (∃ i w1,
    ((if fd then _update_function n d else ret tt) ;;;
     _update_call n c b r) w = (Ok i, w1) ∧
    (fd = false → ∀ j, c = Some j → i = j) ∧
    _functions (db w1) !! n = Some d ∧
    (_check_call n b w1).1 = Ok (Some i, r) ∧
    _files (db w1) = _files (db w) ∧
    _call_files (db w1) =
      (if fd then prune_call_files (KStr n) (_call_files (db w))
       else _call_files (db w)) ∧
    db_only w w1) as (i & w1 & E1 & Hi & Hf1 & Hc1 & Hfiles1 & Hcf1 & Hdo1).
  { destruct fd.
    - exists 0. eexists. split; [|split; [done|]].
      + unfold bind at 1. unfold _update_function at 1.
        unfold bind at 1, clear_function at 1. unfold bind at 1, gets at 1.
        unfold bind at 1, modify at 1. unfold ret at 1, modify at 1.
        unfold _update_call, bind, gets. cbn [db set_db _function_calls].
        rewrite lookup_delete_eq. reflexivity.
      + simpl. rewrite lookup_insert_eq. split; [done|].
        rewrite _check_call_lookup. simpl. rewrite lookup_insert_eq. simpl.
        rewrite bool_decide_true by done. repeat split; done.
    - destruct (_update_call_after_check n b w c old r Hc)
        as (i & w1 & E & Hi & Hc1 & _ & _ & Hfn & Hfiles & Hcf).
      exists i, w1. split; [done|]. split; [by intros _|].
      split.
      + rewrite Hfn. rewrite _check_function_lookup in Hfd. simpl in Hfd.
        destruct (_functions (db w) !! n) as [od|]; [|done].
        injection Hfd as Hfd. apply negb_false_iff, bool_decide_eq_true in Hfd.
        by subst.
      + repeat (split; [done|]).
        pose proof (_update_call_ok n c b r w) as Hok.
        destruct Hok as (i' & w' & E' & Hdo).
        { intros j datas -> Hd. rewrite _check_call_lookup in Hc.
          simpl in Hc. rewrite Hd in Hc. simpl in Hc.
          destruct (find_call b datas 0) as [[j' r']|] eqn:Ef; [|done].
          injection Hc as -> _. by apply find_call_lt in Ef. }
        rewrite E in E'. by injection E' as _ <-. }
  exists i. unfold cache.
  assert (∀ {A B C} (m1 : M A) (m2 : M B) (k : B → M C) w,
            (m1 ;;; x <- m2 ;; k x) w = (x <- (m1 ;;; m2) ;; k x) w) as Hassoc.
  { intros A B C m1 m2 k w0. unfold bind. by destruct (m1 w0) as [[]]. }
  rewrite Hassoc, (bind_ok _ _ _ _ _ E1).
  unfold _update_call_files. unfold bind at 1.
  rewrite update_call_files_loop.
  unfold _update_external_files. unfold bind at 1, modify at 1.
  rewrite update_call_files_loop.
  eexists. split; [reflexivity|]. split; [done|].
  destruct Hdo1. destruct w1 as [[fns calls files cf xs xd] fsys t st0 tr].
  simpl in *. subst.
  split.
  { rewrite _check_function_lookup. simpl. rewrite Hf1.
    by rewrite bool_decide_true. }
  split.
  { rewrite _check_call_lookup. rewrite _check_call_lookup in Hc1. done. }
  rewrite !upsert2_lookup. repeat split; done.
Qed.

(** X12: [prepare], [cache], [prepare]. [cache] with the dirtiness and the
    call id of a [prepare] returns, and the next [prepare] for the same
    function and arguments (whatever sources it is given) then finds
    the function clean, the call recorded with the cached result, under
    the same index when the function was clean, and reads back the two
    external sets that were cached. *)
Theorem prepare_after_cache n d b srcs dsts w p w1 r cfd es ed eg :
  prepare n d b srcs dsts w = (Ok p, w1) →
  ∃ w2,
    cache (function_dirty p) n d (call_id p) b r cfd es ed eg w1
      = (Ok tt, w2) ∧
    ∀ srcs' dsts' p' w3,
      prepare n d b srcs' dsts' w2 = (Ok p', w3) →
      function_dirty p' = false ∧
      is_Some (call_id p') ∧
      old_result p' = r ∧
      external_srcs p' = es ∧
      external_dsts p' = ed ∧
      (function_dirty p = false → ∀ j, call_id p = Some j →
         call_id p' = Some j).
Proof.
  intros Hp.
  pose proof (prepare_frame n d b srcs dsts w) as Hframe.
  rewrite Hp in Hframe. simpl in Hframe.
  apply prepare_steps in Hp as (Hfd & Hc & _).
  assert ((_check_function n d w1).1 = Ok (function_dirty p)) as Hfd1.
  { rewrite _check_function_lookup in *. simpl in *.
    by rewrite (pf_functions _ _ Hframe). }
  assert ((_check_call n b w1).1 = Ok (call_id p, old_result p)) as Hc1.
  { rewrite _check_call_lookup in *. simpl in *.
    by rewrite (pf_function_calls _ _ Hframe). }
  destruct (cache_after_checks _ _ _ _ _ _ r cfd es ed eg _ Hfd1 Hc1)
    as (i & w2 & E & Hi & Hfd2 & Hc2 & Hxs & Hxd & _).
  exists w2. split; [done|].
  intros srcs' dsts' p' w3 Hp'.
  apply prepare_steps in Hp' as (Hfd' & Hc' & wa & E1 & E2).
  rewrite Hfd2 in Hfd'. injection Hfd' as Hfd'.
  rewrite Hc2 in Hc'. injection Hc' as Hid Hold.
  rewrite <- Hid in E1, E2. simpl in E1, E2.
  pose proof (_check_call_files_frame (KInt i) (KStr n) (elements srcs') w2)
    as Hfa.
  rewrite E1 in Hfa. simpl in Hfa.
  destruct (_check_external_files_spec (KStr n) (KInt i) wa)
    as (dirty & dg & w3' & E2' & _).
  rewrite (pf_external_srcs _ _ Hfa), (pf_external_dsts _ _ Hfa),
    Hxs, Hxd in E2'. simpl in E2'.
  rewrite E2 in E2'. injection E2' as _ Hs Hd _ _.
  repeat split; try done.
  rewrite <- Hid. eauto.
Qed.

(** An instance: [add(ctx, 2, 3)] once more, with another result. *)
Lemma prepare_after_cache_add :
  ∃ w2,
    cache (function_dirty add_prepared) "m.add" "source of add"
      (call_id add_prepared) add_args (VInt 7) [] ∅ ∅ [] after_first_add
      = (Ok tt, w2) ∧
    ∀ srcs' dsts' p' w3,
      prepare "m.add" "source of add" add_args srcs' dsts' w2 = (Ok p', w3) →
      function_dirty p' = false ∧
      is_Some (call_id p') ∧
      old_result p' = VInt 7 ∧
      external_srcs p' = ∅ ∧
      external_dsts p' = ∅ ∧
      (function_dirty add_prepared = false → ∀ j,
         call_id add_prepared = Some j → call_id p' = Some j).
Proof.
  refine (prepare_after_cache "m.add" "source of add" add_args ∅ ∅
            after_first_add add_prepared after_first_add (VInt 7) [] ∅ ∅ []
            _).
  vm_compute; reflexivity.
Defined.
(** ** What the body of a user function cannot reach *)

#[global] Instance registry_frame_preorder : PreOrder registry_frame.
Proof.
  split.
  - intros w. by split.
  - intros w1 w2 w3 [] []. split; congruence.
Qed.

Lemma probe_frame_registry_frame w w' :
  probe_frame w w' → registry_frame w w'.
Proof. intros []. by split. Qed.

Section body_preserves.
Context (R : relation world) `{!PreOrder R}.
Hypothesis R_probe : ∀ w w', probe_frame w w' → R w w'.
Hypothesis R_stack : ∀ f w, R w (set_stack f w).
Hypothesis R_fs : ∀ f w, R w (set_fs f w).
Hypothesis R_now : ∀ t w, R w (set_now t w).

Lemma update_frame_preserves i f : preserves R (update_frame i f).
Proof. intros w. apply R_stack. Qed.

Lemma register_src_preserves i l src u :
  preserves R (register_src i l src u).
Proof.
  unfold register_src.
  repeat first
    [ preserves_step
    | apply update_frame_preserves
    | apply (preserves_weaken probe_frame), _check_call_file_frame;
      apply R_probe ].
Qed.

Lemma add_to_frame_preserves i l srcs dsts :
  preserves R (add_to_frame i l srcs dsts).
Proof.
  unfold add_to_frame.
  repeat first [ preserves_step
               | apply register_src_preserves
               | apply update_frame_preserves ].
Qed.

Lemma walk_frames_preserves frames i srcs dsts :
  preserves R (walk_frames frames i srcs dsts).
Proof.
  revert i. induction frames as [|[l|] frames IH]; intros i; simpl.
  - apply preserves_raise; apply _.
  - apply preserves_bind; [apply _|apply add_to_frame_preserves|auto].
  - apply IH.
Qed.

Lemma add_external_dependencies_preserves srcs dsts :
  preserves R (add_external_dependencies_to_call srcs dsts).
Proof.
  unfold add_external_dependencies_to_call.
  apply preserves_catch; [apply _| |intros []; preserves_step].
  apply preserves_bind; [apply _|preserves_step|].
  intros st. apply walk_frames_preserves.
Qed.

Lemma run_action_preserves a : preserves R (run_action a).
Proof.
  induction a; simpl;
    repeat first [ preserves_step
                 | apply add_external_dependencies_preserves
                 | assumption
                 | apply R_fs
                 | apply R_now ].
Qed.

End body_preserves.

Lemma run_action_registry_frame a : preserves registry_frame (run_action a).
Proof.
  apply run_action_preserves; try apply _.
  - apply probe_frame_registry_frame.
  - by split.
  - by split.
  - by split.
Qed.

(** The dirty path when the body raises: the frame is dropped and the
    exception is handed on, before anything is submitted to [cache]. *)
Lemma recompute_raises f bound return_type srcs dsts p w e w2 :
  run_action (fn_body f bound) (entry_world f p w) = (Raise e, w2) →
  recompute f bound return_type srcs dsts p w
    = (Raise e, set_stack (drop 1) w2).
Proof.
  intros Hrun. rewrite recompute_entered. unfold run_and_cache.
  unfold bind at 1, catch at 1. rewrite Hrun. reflexivity.
Qed.

(** X13: an exception of the user function is not cached. When the body
    raises on the dirty path, [Database.call] raises the same exception
    after one run, and the function digests, the call lists and the two
    external-dependency tables are as they were before the call, so
    [_check_call] answers for these arguments as it did. *)
Theorem call_does_not_cache_exceptions
    f bound w return_type srcs dsts p w1 e w2 :
  partition_roles (fn_annotations f) bound w
    = (Ok (return_type, srcs, dsts), w) →
  request_prepare (fn_name f) (fn_digest f) bound srcs dsts w = (Ok p, w1) →
  cached_result return_type srcs dsts p w1 = (Ok None, w1) →
  run_action (fn_body f bound) (entry_world f p w1) = (Raise e, w2) →
  call f bound w = (Raise e, set_stack (drop 1) w2) ∧
  runs (set_stack (drop 1) w2) = runs w ++ [fn_name f] ∧
  registry_frame w (set_stack (drop 1) w2) ∧
  (_check_call (fn_name f) bound (set_stack (drop 1) w2)).1
    = (_check_call (fn_name f) bound w).1.
Proof.
  intros Hroles Hprep Hc Hrun.
  pose proof (request_prepare_frame (fn_name f) (fn_digest f) bound srcs dsts w)
    as Hframe.
  rewrite Hprep in Hframe. simpl in Hframe.
  pose proof (run_action_registry_frame (fn_body f bound) (entry_world f p w1))
    as Hbody.
  rewrite Hrun in Hbody. simpl in Hbody.
  assert (call f bound w = (Raise e, set_stack (drop 1) w2)) as Hcall.
  { unfold call. rewrite (bind_ok _ _ _ _ _ Hroles). simpl.
    rewrite (bind_ok _ _ _ _ _ Hprep), (bind_ok _ _ _ _ _ Hc).
    by apply recompute_raises. }
  assert (registry_frame w (set_stack (drop 1) w2)) as Hreg.
  { etrans; [apply probe_frame_registry_frame, Hframe|].
    destruct Hbody. by split. }
  split; [done|]. split; [|split; [done|]].
  - pose proof (recompute_runs f bound return_type srcs dsts p w1) as Hr.
    rewrite (recompute_raises _ _ _ _ _ _ _ _ _ Hrun) in Hr. simpl in Hr.
    by rewrite Hr, (pf_runs _ _ Hframe).
  - rewrite !_check_call_lookup.
    pose proof (rf_function_calls _ _ Hreg) as Hfc. simpl in *.
    by rewrite Hfc.
Qed.

(** An instance: a function that raises, called on a fresh backend. *)
Lemma call_does_not_cache_exceptions_fail :
  call failing_fn ∅ one_source_world
    = (Raise (UserError "boom"),
       set_stack (drop 1)
         (entry_world failing_fn (Prepared true None VNone [] false ∅ ∅ [])
            one_source_world)) ∧
  runs (set_stack (drop 1)
          (entry_world failing_fn (Prepared true None VNone [] false ∅ ∅ [])
             one_source_world))
    = runs one_source_world ++ ["m.fail"] ∧
  registry_frame one_source_world
    (set_stack (drop 1)
       (entry_world failing_fn (Prepared true None VNone [] false ∅ ∅ [])
          one_source_world)) ∧
  (_check_call "m.fail" ∅
     (set_stack (drop 1)
        (entry_world failing_fn (Prepared true None VNone [] false ∅ ∅ [])
           one_source_world))).1
    = (_check_call "m.fail" ∅ one_source_world).1.
Proof.
  refine (call_does_not_cache_exceptions failing_fn ∅ one_source_world
            None ∅ ∅ (Prepared true None VNone [] false ∅ ∅ [])
            one_source_world (UserError "boom") _ _ _ _ _);
    vm_compute; reflexivity.
Defined.
(** ** A clean [prepare] is stable *)

Lemma _add_file_settles filename w r w1 :
  _add_file filename w = (Ok r, w1) →
  ∃ e, settled filename w1 e ∧ e.2 = r.2.2.
Proof.
  intros H.
  destruct (_add_file_leaves _ _ _ _ H)
    as (st & Hfs & Hfs1 & Hnow1 & [(-> & Hr & Hfiles & Hshort)|(Hfiles & Hd)]).
  - exists r.2. split; [|done]. exists st. auto.
  - exists (st_mtime st, st_digest st). split; [|done].
    exists st. rewrite Hfs1. auto.
Qed.

Lemma _add_file_of_settled filename w e :
  settled filename w e →
  ∃ w', _add_file filename w = (Ok (false, e), w') ∧ db w' = db w.
Proof.
  intros (st & Hfs & Hfiles & [->|Hshort]).
  - by apply _add_file_settled.
  - exists w. split; [|done].
    apply andb_true_iff in Hshort as [Heq Hlt].
    unfold more_than_one_second_past in Hlt.
    unfold _add_file, bind, getmtime, gets, time_time, ret.
    rewrite Hfs. simpl. rewrite Hfiles. destruct e as [om od]. simpl in *.
    rewrite Heq. simpl. by rewrite Hlt.
Qed.

(** A probe that reports the file unchanged has not touched
    [_call_files]. *)
Lemma _add_file_unchanged filename w e w1 :
  _add_file filename w = (Ok (false, e), w1) →
  _call_files (db w1) = _call_files (db w).
Proof.
  destruct (fs w !! filename) as [st|] eqn:Hfs.
  2: { by rewrite (_add_file_missing _ _ Hfs). }
  destruct w as [[fns calls files cf es ed] fsys t st0 tr]; simpl in *.
  unfold _add_file, bind, getmtime, digest, gets, time_time, store_file,
    clear_file, modify, ret; simpl.
  rewrite Hfs; simpl.
  destruct (files !! filename) as [[om od]|]; simpl.
  - destruct (PrimFloat.eqb (st_mtime st) om); simpl.
    + destruct (PrimFloat.ltb _ _); simpl.
      * by intros [= <- <-].
      * rewrite Hfs; simpl. case_bool_decide; simpl; [|done].
        by intros [= <- <-].
    + rewrite Hfs; simpl. case_bool_decide; simpl; [|done].
      by intros [= <- <-].
  - rewrite Hfs; simpl. done.
Qed.

(** [_check_call_file] changes the world as its [_add_file] does, and
    reports the file clean only if [_add_file] did and the index holds
    the digest. *)
Lemma _check_call_file_clean c n filename w dg w1 :
  _check_call_file c n filename w = (Ok (false, dg), w1) ↔
  c ≠ KNone ∧
  ∃ e, _add_file filename w = (Ok (false, e), w1) ∧ e.2 = dg ∧
    (_call_files (db w1) !! filename)
      ≫= (fun datas : gmap pykey (gmap pykey string) =>
            datas !! n ≫= (fun m : gmap pykey string => m !! c))
    = Some dg.
Proof.
  unfold _check_call_file.
  destruct (_add_file filename w) as [[[a1 [am ad]]|e] wa] eqn:Ea.
  2: { rewrite (bind_raise _ _ _ _ _ Ea). split; [done|].
       by intros (_ & e' & ? & _). }
  rewrite (bind_ok _ _ _ _ _ Ea). simpl.
  assert (∀ P : Prop, c ≠ KNone →
    ((call_files <- gets (fun w => _call_files (db w)) ;;
      match call_files !! filename with
      | Some datas =>
          match datas !! n ≫= (fun m => m !! c) with
          | Some old_digest =>
              if bool_decide (ad = old_digest) then ret (a1, ad)
              else ret (true, ad)
          | None => ret (true, ad)
          end
      | None => ret (true, ad)
      end) wa = (Ok (false, dg), w1) ↔
     c ≠ KNone ∧
     ∃ e, (Ok (a1, (am, ad)), wa) = (Ok (false, e), w1) ∧ e.2 = dg ∧
       (_call_files (db w1) !! filename)
         ≫= (fun datas : gmap pykey (gmap pykey string) =>
               datas !! n ≫= (fun m : gmap pykey string => m !! c))
       = Some dg)) as Hmain.
  { intros _ Hc. unfold bind, gets, ret. split.
    - destruct (_call_files (db wa) !! filename) as [datas|] eqn:Ecf;
        [|done].
      destruct (datas !! n ≫= _) as [od|] eqn:Eod; [|done].
      case_bool_decide as Hd; [|done].
      intros [= -> <- <-]. split; [done|]. exists (am, ad).
      split; [done|]. split; [done|]. rewrite Ecf. simpl. by rewrite Eod, Hd.
    - intros (_ & e & [= -> <- <-] & <- & Hl). simpl in *.
      destruct (_call_files (db wa) !! filename) as [datas|]; [|done].
      simpl in Hl. rewrite Hl. by rewrite bool_decide_true. }
  destruct c; [|by apply (Hmain True)..].
  split; [done|]. by intros [? _].
Qed.

Lemma _check_call_file_clean_at c n filename w dg w1 :
  _check_call_file c n filename w = (Ok (false, dg), w1) →
  clean_at c n filename w1 dg ∧
  _call_files (db w1) = _call_files (db w).
Proof.
  intros H. apply _check_call_file_clean in H as (Hc & e & Ea & He & Hl).
  destruct (_add_file_settles _ _ _ _ Ea) as (e' & Hs & He').
  split.
  - split; [done|]. split; [|done]. exists e'. split; [done|].
    simpl in He'. congruence.
  - by eapply _add_file_unchanged.
Qed.

Lemma _check_call_file_of_clean c n filename w dg :
  clean_at c n filename w dg →
  ∃ w', _check_call_file c n filename w = (Ok (false, dg), w') ∧
        db w' = db w ∧ probe_frame w w'.
Proof.
  intros (Hc & (e & Hs & He) & Hl).
  destruct (_add_file_of_settled _ _ _ Hs) as (w' & Ea & Hdb).
  exists w'. split; [|split; [done|]].
  - apply _check_call_file_clean. split; [done|]. exists e.
    split; [done|]. split; [done|]. by rewrite Hdb.
  - pose proof (_add_file_frame filename w) as Hf. by rewrite Ea in Hf.
Qed.

Lemma clean_at_same c n filename w w' dg :
  db w' = db w → fs w' = fs w → now w' = now w →
  clean_at c n filename w dg → clean_at c n filename w' dg.
Proof.
  intros Hdb Hfs Hnow (Hc & (e & (st & H1 & H2 & H3) & He) & Hl).
  split; [done|]. split.
  - exists e. split; [|done]. exists st. by rewrite Hdb, Hfs, Hnow.
  - by rewrite Hdb.
Qed.

(** A clean probe of one file keeps every file clean that was. *)
Lemma _check_call_file_keeps_clean c n filename w dg w1 c' n' f' dg' :
  _check_call_file c n filename w = (Ok (false, dg), w1) →
  clean_at c' n' f' w dg' → clean_at c' n' f' w1 dg'.
Proof.
  intros H Hclean.
  pose proof (_check_call_file_frame c n filename w) as Hf.
  rewrite H in Hf. simpl in Hf.
  destruct (decide (f' = filename)) as [->|Hne].
  - destruct Hclean as (Hc' & (e & Hs & He) & Hl).
    destruct (_add_file_of_settled _ _ _ Hs) as (w' & Ea & Hdb).
    apply _check_call_file_clean in H as (_ & e0 & Ea0 & _).
    rewrite Ea in Ea0. injection Ea0 as _ ->.
    apply (clean_at_same _ _ _ w); [done|apply Hf..|].
    split; [done|]. split; [by exists e|done].
  - destruct (_check_call_file_clean_at _ _ _ _ _ _ H) as [_ Hcf].
    pose proof (_check_call_file_outside c n filename w) as Hout.
    rewrite H in Hout. simpl in Hout.
    destruct (Hout f') as [Hfiles _]; [set_solver|].
    destruct Hclean as (Hc' & (e & (st & H1 & H2 & H3) & He) & Hl).
    split; [done|]. split.
    + exists e. split; [|done]. exists st.
      by rewrite (pf_fs _ _ Hf), (pf_now _ _ Hf), Hfiles.
    + by rewrite Hcf.
Qed.

(** *** The loop over the declared sources *)

Lemma check_call_files_grows c n l : ∀ acc w acc' w',
  for_each l (check_one_call_file c n) acc w = (Ok acc', w') →
  (length acc ≤ length acc')%nat.
Proof.
  induction l as [|f l IH]; intros acc w acc' w' H; simpl in H.
  - by injection H as <- _.
  - unfold bind at 1 in H.
    destruct (check_one_call_file c n f acc w) as [[acc1|e] w1] eqn:E1;
      [|done].
    apply IH in H. unfold check_one_call_file, bind in E1.
    destruct (_check_call_file c n f w) as [[r|e] wa]; [|done].
    destruct r.1; injection E1 as <- _; [|done].
    rewrite length_app in H. lia.
Qed.

Lemma check_call_files_clean_pass c n l : ∀ acc w w1,
  for_each l (check_one_call_file c n) acc w = (Ok acc, w1) →
  (∀ f, f ∈ l → ∃ dg, clean_at c n f w1 dg) ∧
  (∀ c' n' f' dg', clean_at c' n' f' w dg' → clean_at c' n' f' w1 dg').
Proof.
  induction l as [|f l IH]; intros acc w w1 H; simpl in H.
  - injection H as <-. split; [|done]. intros f Hf.
    by apply elem_of_nil in Hf.
  - unfold bind at 1 in H.
    destruct (check_one_call_file c n f acc w) as [[acc1|e] wa] eqn:E1;
      [|done].
    unfold check_one_call_file, bind in E1.
    destruct (_check_call_file c n f w) as [[[dirty dg]|e] wa'] eqn:Ep;
      [|done].
    simpl in E1. destruct dirty; injection E1 as <- <-.
    { apply check_call_files_grows in H. rewrite length_app in H.
      simpl in H. lia. }
    destruct (IH _ _ _ H) as [Hall Hkeep].
    destruct (_check_call_file_clean_at _ _ _ _ _ _ Ep) as [Hclean _].
    split.
    + intros f' Hf'. apply elem_of_cons in Hf' as [->|Hf']; [|auto].
      exists dg. by apply Hkeep.
    + intros c' n' f' dg' Hc'. apply Hkeep.
      by eapply _check_call_file_keeps_clean.
Qed.

Lemma check_call_files_of_clean c n l : ∀ acc w,
  (∀ f, f ∈ l → ∃ dg, clean_at c n f w dg) →
  ∃ w1, for_each l (check_one_call_file c n) acc w = (Ok acc, w1) ∧
        db w1 = db w ∧ probe_frame w w1.
Proof.
  induction l as [|f l IH]; intros acc w Hall; simpl.
  - by exists w.
  - destruct (Hall f) as [dg Hclean]; [left|].
    destruct (_check_call_file_of_clean _ _ _ _ _ Hclean)
      as (wa & Ep & Hdb & Hf).
    destruct (IH acc wa) as (w1 & E & Hdb1 & Hf1).
    { intros f' Hf'. destruct (Hall f') as [dg' Hc']; [by right|].
      exists dg'. apply (clean_at_same _ _ _ w); [done|apply Hf..|done]. }
    exists w1. split; [|split; [congruence|by etrans]].
    unfold bind at 1, check_one_call_file at 1, bind at 1.
    by rewrite Ep.
Qed.

(** *** The loop over the recorded external sources *)

Lemma check_one_external_src_cases c n src acc w :
  check_one_external_src c n src acc w =
    match _check_call_file c n src w with
    | (Ok r, w') =>
        (Ok (if r.1 then (acc.1, acc.2 ++ [(src, r.2)]) else acc), w')
    | (Raise _, w') => (Ok (true, acc.2), w')
    end.
Proof.
  unfold check_one_external_src, catch, bind.
  destruct (_check_call_file c n src w) as [[r|e] w'] eqn:E.
  - by destruct r.1.
  - by rewrite (_check_call_file_raises _ _ _ _ _ _ E).
Qed.

Lemma check_external_srcs_grows c n l : ∀ acc w acc' w',
  for_each l (check_one_external_src c n) acc w = (Ok acc', w') →
  (length acc.2 ≤ length acc'.2)%nat ∧ (acc.1 = true → acc'.1 = true).
Proof.
  induction l as [|f l IH]; intros acc w acc' w' H; simpl in H.
  - by injection H as <- _.
  - unfold bind at 1 in H. rewrite check_one_external_src_cases in H.
    destruct (_check_call_file c n f w) as [[r|e] wa].
    + apply IH in H as [H1 H2]. destruct r.1; simpl in *; [|done].
      rewrite length_app in H1. simpl in H1. split; [lia|done].
    + apply IH in H as [H1 H2]. simpl in *. auto.
Qed.

Lemma check_external_srcs_clean_pass c n l : ∀ dgs w w1,
  for_each l (check_one_external_src c n) (false, dgs) w
    = (Ok (false, dgs), w1) →
  (∀ f, f ∈ l → ∃ dg, clean_at c n f w1 dg) ∧
  (∀ c' n' f' dg', clean_at c' n' f' w dg' → clean_at c' n' f' w1 dg').
Proof.
  induction l as [|f l IH]; intros dgs w w1 H; simpl in H.
  - injection H as <-. split; [|done]. intros f Hf.
    by apply elem_of_nil in Hf.
  - unfold bind at 1 in H. rewrite check_one_external_src_cases in H.
    destruct (_check_call_file c n f w) as [[[dirty dg]|e] wa] eqn:Ep.
    2: { apply check_external_srcs_grows in H as [_ H]. simpl in H.
         by specialize (H eq_refl). }
    simpl in H. destruct dirty.
    { apply check_external_srcs_grows in H as [H _]. simpl in H.
      rewrite length_app in H. simpl in H. lia. }
    destruct (IH _ _ _ H) as [Hall Hkeep].
    destruct (_check_call_file_clean_at _ _ _ _ _ _ Ep) as [Hclean _].
    split.
    + intros f' Hf'. apply elem_of_cons in Hf' as [->|Hf']; [|auto].
      exists dg. by apply Hkeep.
    + intros c' n' f' dg' Hc'. apply Hkeep.
      by eapply _check_call_file_keeps_clean.
Qed.

Lemma check_external_srcs_of_clean c n l : ∀ acc w,
  (∀ f, f ∈ l → ∃ dg, clean_at c n f w dg) →
  ∃ w1, for_each l (check_one_external_src c n) acc w = (Ok acc, w1) ∧
        db w1 = db w ∧ probe_frame w w1.
Proof.
  induction l as [|f l IH]; intros acc w Hall; simpl.
  - by exists w.
  - destruct (Hall f) as [dg Hclean]; [left|].
    destruct (_check_call_file_of_clean _ _ _ _ _ Hclean)
      as (wa & Ep & Hdb & Hf).
    destruct (IH acc wa) as (w1 & E & Hdb1 & Hf1).
    { intros f' Hf'. destruct (Hall f') as [dg' Hc']; [by right|].
      exists dg'. apply (clean_at_same _ _ _ w); [done|apply Hf..|done]. }
    exists w1. split; [|split; [congruence|by etrans]].
    unfold bind at 1. rewrite check_one_external_src_cases, Ep. done.
Qed.

Lemma _check_external_files_cases c n w :
  _check_external_files c n w =
    match _external_srcs (db w) !! n ≫= (fun m => m !! c) with
    | None =>
        (Ok (false, ∅,
             default ∅ (_external_dsts (db w) !! n ≫= (fun m => m !! c)),
             []), w)
    | Some srcs =>
        match for_each (elements srcs) (check_one_external_src c n)
                (false, []) w with
        | (Ok r, w') =>
            (Ok (r.1, srcs,
                 default ∅
                   (_external_dsts (db w') !! n ≫= (fun m => m !! c)),
                 r.2), w')
        | (Raise e, w') => (Raise e, w')
        end
    end.
Proof.
  unfold _check_external_files. unfold bind at 1, gets at 1.
  destruct (_external_srcs (db w) !! n ≫= _) as [srcs|]; [|done].
  unfold bind at 1 2.
  by destruct (for_each (elements srcs) _ _ w) as [[r|e] w'].
Qed.

Lemma prepare_stable n d b srcs dsts w p w1 :
  prepare n d b srcs dsts w = (Ok p, w1) →
  has_result p = true →
  ∃ w2, prepare n d b srcs dsts w1 = (Ok p, w2) ∧ db w2 = db w1.
Proof.
  intros Hp Hres.
  pose proof (prepare_frame n d b srcs dsts w) as Hframe.
  rewrite Hp in Hframe. simpl in Hframe.
  apply has_result_true in Hres as (Hfd & Hid & Hcfd & Hxg & Hxd).
  apply prepare_steps in Hp as (Efd & Ec & wa & E1 & E2).
  destruct p as [fd [i|] old cfd xd xs xt xg]; simpl in *; [|done].
  subst fd cfd xg xd. clear Hid.
  unfold _check_call_files in E1.
  destruct (check_call_files_clean_pass _ _ _ _ _ _ E1) as [Hall1 _].
  pose proof (_check_external_files_frame (KStr n) (KInt i) wa) as Hfb.
  rewrite E2 in Hfb. simpl in Hfb.
  rewrite _check_external_files_cases in E2.
  assert ((∀ f, f ∈ elements srcs → ∃ dg, clean_at (KInt i) (KStr n) f w1 dg)
          ∧ match _external_srcs (db wa) !! KInt i
                    ≫= (fun m => m !! KStr n) with
            | Some sx =>
                xs = sx ∧
                ∀ f, f ∈ elements sx →
                     ∃ dg, clean_at (KStr n) (KInt i) f w1 dg
            | None => xs = ∅
            end
          ∧ xt = default ∅ (_external_dsts (db w1) !! KInt i
                              ≫= (fun m => m !! KStr n)))
    as (Hall1' & Hall2 & Hxt).
  { destruct (_external_srcs (db wa) !! KInt i ≫= _) as [sx|].
    - destruct (for_each (elements sx) _ _ wa) as [[[r1 r2]|e] wb] eqn:E3;
        [|done].
      simpl in E2. injection E2 as -> -> <- -> ->.
      destruct (check_external_srcs_clean_pass _ _ _ _ _ _ E3)
        as [Hall2 Hkeep].
      split; [|done]. intros f Hf. destruct (Hall1 f Hf) as [dg Hc].
      exists dg. by apply Hkeep.
    - by injection E2 as <- <- <-. }
  destruct (check_call_files_of_clean (KInt i) (KStr n) (elements srcs) []
              w1 Hall1') as (w1a & E1' & Hdb1a & Hf1a).
  assert (∃ w2,
    _check_external_files (KStr n) (KInt i) w1a
      = (Ok (false, xs, xt, []), w2) ∧ db w2 = db w1a) as (w2 & E2' & Hdb2).
  { rewrite _check_external_files_cases, Hdb1a,
      (pf_external_srcs _ _ Hfb).
    destruct (_external_srcs (db wa) !! KInt i ≫= _) as [sx|].
    - destruct Hall2 as [-> Hall2].
      destruct (check_external_srcs_of_clean (KStr n) (KInt i) (elements sx)
                  (false, []) w1a) as (w2 & E & Hdb2 & _).
      { intros f Hf. destruct (Hall2 f Hf) as [dg Hc]. exists dg.
        apply (clean_at_same _ _ _ w1); [done|apply Hf1a..|done]. }
      exists w2. rewrite E. simpl. split; [|congruence].
      by rewrite Hdb2, Hdb1a, Hxt.
    - subst xs. exists w1a. split; [|done]. by rewrite Hxt. }
  exists w2. split; [|congruence].
  apply prepare_steps. simpl.
  split; [|split].
  - rewrite _check_function_lookup in *. simpl in *.
    by rewrite (pf_functions _ _ Hframe).
  - rewrite _check_call_lookup in *. simpl in *.
    by rewrite (pf_function_calls _ _ Hframe).
  - exists w1a. by split.
Qed.

(** X14: a clean [prepare] is stable. When [prepare] reports nothing
    dirty (the first test of [Database.call] passes), a second [prepare]
    for the same call right after it, with the files and the clock as
    they were, returns the same tuple and changes no table. *)
Theorem prepare_is_stable_when_clean n d b srcs dsts w p w1 :
  prepare n d b srcs dsts w = (Ok p, w1) →
  has_result p = true →
  ∃ w2, prepare n d b srcs dsts w1 = (Ok p, w2) ∧ db w2 = db w1.
Proof. apply prepare_stable. Qed.

(** An instance: the second [wc(ctx, "a.c")] of scenario S2. *)
Lemma prepare_is_stable_when_clean_wc :
  ∃ w2,
    prepare "m.wc" "source of wc" wc_args {["a.c"]} ∅
        (prepare "m.wc" "source of wc" wc_args {["a.c"]} ∅ after_first_wc).2
      = (Ok (Prepared false (Some 0) (VInt 10) [] false ∅ ∅ []), w2) ∧
    db w2 =
      db (prepare "m.wc" "source of wc" wc_args {["a.c"]} ∅
            after_first_wc).2.
Proof.
  refine (prepare_is_stable_when_clean "m.wc" "source of wc" wc_args
            {["a.c"]} ∅ after_first_wc
            (Prepared false (Some 0) (VInt 10) [] false ∅ ∅ []) _ _ _).
  - vm_compute; reflexivity.
  - reflexivity.
Defined.
(** ** Calling twice *)

#[global] Instance keeps_clean_preorder : PreOrder keeps_clean.
Proof.
  split.
  - intros w. by split.
  - intros w1 w2 w3 [H1 H2] [H3 H4]. split; eauto.
Qed.

#[global] Instance same_db_preorder : PreOrder same_db.
Proof.
  split; unfold same_db; [intros w|intros w1 w2 w3]; congruence.
Qed.

Lemma settled_same s w w' e :
  _files (db w') !! s = _files (db w) !! s →
  fs w' !! s = fs w !! s → now w' = now w →
  settled s w e → settled s w' e.
Proof.
  intros Hdb Hfs Hnow (st & H1 & H2 & H3).
  exists st. by rewrite Hdb, Hfs, Hnow.
Qed.

Lemma settled_functional s w e e' : settled s w e → settled s w e' → e = e'.
Proof. intros (st & _ & H & _) (st' & _ & H' & _). congruence. Qed.

Lemma clean_at_same_entries c n s w w' dg :
  _files (db w') !! s = _files (db w) !! s →
  _call_files (db w') !! s = _call_files (db w) !! s →
  fs w' !! s = fs w !! s → now w' = now w →
  clean_at c n s w dg → clean_at c n s w' dg.
Proof.
  intros Hf Hcf Hfs Hnow (Hc & (e & Hs & He) & Hl).
  split; [done|]. split.
  - exists e. split; [|done]. by apply (settled_same s w).
  - by rewrite Hcf.
Qed.

Lemma _check_call_file_state c n filename w :
  (_check_call_file c n filename w).2 = (_add_file filename w).2.
Proof.
  unfold _check_call_file, bind.
  destruct (_add_file filename w) as [[r|e] w1]; [|done].
  destruct c; [done| |]; unfold gets; simpl;
    (destruct (_call_files (db w1) !! filename); [|done]);
    (destruct (_ ≫= _); [|done]);
    by destruct (bool_decide _).
Qed.

(** Whatever a probe finds, it keeps settled entries settled and clean
    files clean. *)
Lemma _check_call_file_keeps c n filename :
  preserves keeps_clean (_check_call_file c n filename).
Proof.
  intros w.
  pose proof (_check_call_file_frame c n filename w) as Hf.
  pose proof (_check_call_file_outside c n filename w) as Hout.
  assert (∀ e, settled filename w e →
            db (_check_call_file c n filename w).2 = db w) as Hsame.
  { intros e Hs. rewrite _check_call_file_state.
    destruct (_add_file_of_settled _ _ _ Hs) as (w' & -> & Hdb). done. }
  split.
  - intros s e Hs. destruct (decide (s = filename)) as [->|Hne].
    + apply (settled_same _ w); [|by rewrite (pf_fs _ _ Hf)|apply Hf|done].
      by rewrite (Hsame e Hs).
    + destruct (Hout s) as [Hfiles _]; [set_solver|].
      apply (settled_same _ w); [done|by rewrite (pf_fs _ _ Hf)|apply Hf|done].
  - intros c' n' s dg Hc. destruct (decide (s = filename)) as [->|Hne].
    + destruct Hc as (Hc' & (e & Hs & He) & Hl).
      apply (clean_at_same _ _ _ w); [by apply (Hsame e)|apply Hf..|].
      split; [done|]. split; [by exists e|done].
    + destruct (Hout s) as [Hfiles Hcf]; [set_solver|].
      apply (clean_at_same_entries _ _ _ w);
        [done|done|by rewrite (pf_fs _ _ Hf)|apply Hf|done].
Qed.

Lemma _check_call_files_keeps c n filenames :
  preserves keeps_clean (_check_call_files c n filenames).
Proof.
  unfold _check_call_files, check_one_call_file.
  repeat first [ preserves_step | apply _check_call_file_keeps ].
Qed.

Lemma _check_external_files_keeps c n :
  preserves keeps_clean (_check_external_files c n).
Proof.
  unfold _check_external_files, check_one_external_src.
  repeat first [ preserves_step | apply _check_call_file_keeps ].
Qed.

(** What a probe that returns has established. *)
Lemma _check_call_file_settles c n filename w r w1 :
  _check_call_file c n filename w = (Ok r, w1) →
  (∃ e, settled filename w1 e ∧ e.2 = r.2) ∧
  (r.1 = false → clean_at c n filename w1 r.2).
Proof.
  intros H. split.
  - pose proof (_check_call_file_state c n filename w) as Hst.
    rewrite H in Hst. simpl in Hst.
    unfold _check_call_file in H.
    destruct (_add_file filename w) as [[a|e] wa] eqn:Ea.
    2: { by rewrite (bind_raise _ _ _ _ _ Ea) in H. }
    simpl in Hst. subst wa.
    destruct (_add_file_settles _ _ _ _ Ea) as (e & Hs & He).
    exists e. split; [done|]. rewrite He.
    rewrite (bind_ok _ _ _ _ _ Ea) in H.
    destruct c; [by injection H as <-| |]; unfold bind, gets in H;
      simpl in H;
      (destruct (_call_files (db w1) !! filename); [|by injection H as <-]);
      (destruct (_ ≫= _); [|by injection H as <-]);
      destruct (bool_decide _); by injection H as <-.
  - intros Hr. destruct r as [dirty dg]. simpl in *. subst dirty.
    by destruct (_check_call_file_clean_at _ _ _ _ _ _ H).
Qed.

(** The loop over the declared sources, whatever it finds: every digest
    it hands back is the digest of a settled entry, and every source is
    either handed back or clean. *)
Lemma check_call_files_pass c n l : ∀ acc w acc' w',
  for_each l (check_one_call_file c n) acc w = (Ok acc', w') →
  ∃ new, acc' = acc ++ new ∧
    (∀ s dg, (s, dg) ∈ new → ∃ e, settled s w' e ∧ e.2 = dg) ∧
    (∀ s, s ∈ l → (∃ dg, (s, dg) ∈ new) ∨ ∃ dg, clean_at c n s w' dg).
Proof.
  induction l as [|f l IH]; intros acc w acc' w' H; simpl in H.
  - injection H as <- <-. exists []. rewrite app_nil_r. split; [done|].
    split; [intros s dg Hin|intros s Hin]; by apply elem_of_nil in Hin.
  - unfold bind at 1 in H.
    destruct (check_one_call_file c n f acc w) as [[acc1|e] wa] eqn:E1;
      [|done].
    unfold check_one_call_file, bind in E1.
    destruct (_check_call_file c n f w) as [[r|e] wa'] eqn:Ep; [|done].
    assert (wa' = wa ∧ acc1 = acc ++ (if r.1 then [(f, r.2)] else []))
      as [-> ->].
    { destruct r.1; injection E1 as <- <-; [done|]. by rewrite app_nil_r. }
    clear E1.
    destruct (_check_call_file_settles _ _ _ _ _ _ Ep) as [(e & Hs & He) Hcl].
    destruct (IH _ _ _ _ H) as (new' & -> & Hdg & Hall).
    pose proof (preserves_for_each keeps_clean l (check_one_call_file c n)
                  (acc ++ (if r.1 then [(f, r.2)] else []))) as Hk.
    unfold check_one_call_file in Hk.
    specialize (Hk ltac:(intros ? ?;
      repeat first [ preserves_step | apply _check_call_file_keeps ]) wa).
    fold (check_one_call_file c n) in Hk.
    rewrite H in Hk. simpl in Hk. destruct Hk as [Hks Hkc].
    exists ((if r.1 then [(f, r.2)] else []) ++ new').
    split; [by rewrite app_assoc|]. split.
    + intros s dg Hin. apply elem_of_app in Hin as [Hin|Hin]; [|auto].
      destruct r.1; [|by apply elem_of_nil in Hin].
      apply list_elem_of_singleton in Hin as [= -> ->].
      exists e. auto.
    + intros s Hin. apply elem_of_cons in Hin as [->|Hin].
      * destruct r.1 eqn:Hr.
        -- left. exists r.2. apply elem_of_app. left.
           by apply list_elem_of_singleton.
        -- right. exists r.2. apply Hkc. by apply Hcl.
      * destruct (Hall s Hin) as [[dg Hd]|Hc]; [|by right].
        left. exists dg. apply elem_of_app. by right.
Qed.

(** *** The records [cache] writes *)

Lemma upsert3_record_eq s n c dg cf :
  call_file_record (upsert3 s n c dg cf) s n c = Some dg.
Proof. apply upsert3_lookup. Qed.

Lemma upsert3_record_ne s n c dg cf s' n' c' :
  (s', n', c') ≠ (s, n, c) →
  call_file_record (upsert3 s n c dg cf) s' n' c' = call_file_record cf s' n' c'.
Proof.
  intros Hne. unfold call_file_record, upsert3.
  destruct (decide (s' = s)) as [->|Hs]; [|by rewrite lookup_insert_ne].
  rewrite lookup_insert_eq. simpl.
  destruct (decide (n' = n)) as [->|Hn].
  - rewrite lookup_insert_eq. simpl.
    rewrite lookup_insert_ne by congruence.
    destruct (cf !! s) as [datas|]; simpl; [|done].
    by destruct (datas !! n).
  - rewrite lookup_insert_ne by done.
    by destruct (cf !! s).
Qed.

Lemma record_digests_other c n dgs : ∀ cf s' n' c',
  (n', c') ≠ (n, c) →
  call_file_record (record_digests c n dgs cf) s' n' c'
    = call_file_record cf s' n' c'.
Proof.
  induction dgs as [|[s dg] l IH]; intros cf s' n' c' Hne; simpl; [done|].
  rewrite IH by done. apply upsert3_record_ne. congruence.
Qed.

Lemma record_digests_absent c n dgs : ∀ cf s,
  (∀ dg, (s, dg) ∉ dgs) →
  call_file_record (record_digests c n dgs cf) s n c
    = call_file_record cf s n c.
Proof.
  induction dgs as [|[s0 dg0] l IH]; intros cf s Hno; simpl; [done|].
  rewrite IH.
  - apply upsert3_record_ne. intros [= -> ]. apply (Hno dg0). left.
  - intros dg Hin. apply (Hno dg). by right.
Qed.

Lemma record_digests_present c n dgs : ∀ cf s dg,
  (s, dg) ∈ dgs →
  (∀ dg', (s, dg') ∈ dgs → dg' = dg) →
  call_file_record (record_digests c n dgs cf) s n c = Some dg.
Proof.
  induction dgs as [|[s0 dg0] l IH]; intros cf s dg Hin Hall; simpl.
  - by apply elem_of_nil in Hin.
  - destruct (decide (s ∈ l.*1)) as [Hl|Hl].
    + apply list_elem_of_fmap in Hl as ([s1 dg1] & -> & Hl). simpl in *.
      assert (dg1 = dg) as -> by (apply Hall; by right).
      apply IH; [done|]. intros dg' H'. apply Hall. by right.
    + rewrite record_digests_absent.
      * apply elem_of_cons in Hin as [[= <- <-]|Hin].
        -- apply upsert3_record_eq.
        -- exfalso. apply Hl. apply list_elem_of_fmap. by exists (s, dg).
      * intros dg' H'. apply Hl. apply list_elem_of_fmap. by exists (s, dg').
Qed.

(** *** A body that registers nothing *)

Lemma walk_frames_same_db frames i dsts :
  preserves same_db (walk_frames frames i [] dsts).
Proof.
  revert i. induction frames as [|[l|] frames IH]; intros i; simpl.
  - apply preserves_raise; apply _.
  - apply preserves_bind; [apply _| |auto].
    unfold add_to_frame, update_frame. simpl.
    repeat first [ preserves_step | done ].
  - apply IH.
Qed.

Lemma run_action_same_db a :
  registered_srcs a = [] → preserves same_db (run_action a).
Proof.
  induction a as [v|e|srcs dsts k IH|f st k IH|f k IH|t k IH]; simpl;
    intros Hreg.
  - apply preserves_ret; apply _.
  - apply preserves_raise; apply _.
  - apply app_eq_nil in Hreg as [-> Hreg].
    apply preserves_bind; [apply _| |intros _; auto].
    unfold add_external_dependencies_to_call.
    apply preserves_catch; [apply _| |intros []; preserves_step].
    apply preserves_bind; [apply _|preserves_step|].
    intros st. apply walk_frames_same_db.
  - apply preserves_bind; [apply _| |intros _; auto].
    apply preserves_modify. done.
  - apply preserves_bind; [apply _| |intros _; auto].
    apply preserves_modify. done.
  - apply preserves_bind; [apply _| |intros _; auto].
    apply preserves_modify. done.
Qed.

(** The role partition reads nothing of the world. *)
Lemma partition_roles_any annotations bound w w' :
  partition_roles annotations bound w'
    = ((partition_roles annotations bound w).1, w').
Proof.
  unfold partition_roles.
  generalize (@None role, (∅ : gset value), (∅ : gset value)).
  induction annotations as [|a l IH]; intros acc; simpl; [done|].
  unfold bind at 1 3.
  assert (∀ (m : M (option role * gset value * gset value)) w0,
            (∀ w1 w2, m w2 = ((m w1).1, w2)) → m w0 = ((m w).1, w0)) as Hm
    by (intros m w0 H; apply H).
  match goal with |- context [bool_decide ?P] => destruct (bool_decide P) end.
  { simpl. apply IH. }
  destruct (is_src a.2).
  { destruct (bound !! a.1) as [v|]; [|done].
    unfold bind, lift. destruct (set_update _ _); [|done]. simpl. apply IH. }
  destruct (is_dst a.2).
  { destruct (bound !! a.1) as [v|]; [|done].
    unfold bind, lift. destruct (set_update _ _); [|done]. simpl. apply IH. }
  simpl. apply IH.
Qed.
Lemma cached_result_any return_type srcs dsts p w w' :
  fs w' = fs w →
  cached_result return_type srcs dsts p w'
    = ((cached_result return_type srcs dsts p w).1, w').
Proof.
  intros Hfs. rewrite !cached_result_spec. unfold file_at. rewrite Hfs.
  destruct (has_result p); [|done].
  by destruct (iterate (return_dsts_of return_type (old_result p))).
Qed.

(** Whether the request reaches [prepare] does not depend on the world. *)
Lemma request_prepare_any n d b srcs dsts w p w1 w' :
  request_prepare n d b srcs dsts w = (Ok p, w1) →
  request_prepare n d b srcs dsts w'
    = prepare n d b (file_names srcs) (file_names dsts) w'.
Proof.
  unfold request_prepare. by destruct (forallb _ _).
Qed.

Lemma call_steps f bound w0 return_type srcs dsts w :
  (partition_roles (fn_annotations f) bound w0).1
    = Ok (return_type, srcs, dsts) →
  call f bound w =
    (p <- request_prepare (fn_name f) (fn_digest f) bound srcs dsts ;;
     c <- cached_result return_type srcs dsts p ;;
     match c with
     | Some r => ret r
     | None => recompute f bound return_type srcs dsts p
     end) w.
Proof.
  intros H. unfold call. unfold bind at 1.
  by rewrite (partition_roles_any _ _ w0 w), H.
Qed.

(** What the first [prepare] of a call and the [cache] that follows the
    body leave for a declared source: it is clean for the call, as long
    as its records were not pruned with a changed function. *)
Lemma declared_source_clean_after_cache
    n d b srcs dsts w p w1 wc i w3 v es ed s :
  prepare n d b srcs dsts w = (Ok p, w1) →
  db wc = db w1 →
  cache (function_dirty p) n d (call_id p) b v (call_file_digests p)
        es ed (external_digests p) wc = (Ok tt, w3) →
  (_check_call n b w3).1 = Ok (Some i, v) →
  s ∈ srcs →
  fs w3 !! s = fs w !! s → now w3 = now w →
  function_dirty p = false ∨ call_id p = None →
  ∃ dg, clean_at (KInt i) (KStr n) s w3 dg.
Proof.
  intros Hp Hdb Hcache Hcall Hs Hfs Hnow Hold.
  pose proof (prepare_frame n d b srcs dsts w) as Hframe.
  rewrite Hp in Hframe. simpl in Hframe.
  apply prepare_steps in Hp as (Efd & Ec & wa & E1 & E2).
  assert ((_check_function n d wc).1 = Ok (function_dirty p)) as Efd'.
  { rewrite _check_function_lookup in *. simpl in *.
    by rewrite Hdb, (pf_functions _ _ Hframe). }
  assert ((_check_call n b wc).1 = Ok (call_id p, old_result p)) as Ec'.
  { rewrite _check_call_lookup in *. simpl in *.
    by rewrite Hdb, (pf_function_calls _ _ Hframe). }
  destruct (cache_after_checks _ _ _ _ _ _ v (call_file_digests p) es ed
              (external_digests p) _ Efd' Ec')
    as (i' & w3' & E & Hi & _ & Hc3 & _ & _ & Hfiles & Hcf & _).
  rewrite Hcache in E. injection E as <-.
  rewrite Hcall in Hc3. injection Hc3 as <-.
  unfold _check_call_files in E1.
  destruct (check_call_files_pass _ _ _ _ _ _ _ E1) as (new & Hnew & Hdg & Hall).
  simpl in Hnew. subst new.
  pose proof (_check_external_files_keeps (KStr n)
                (key_of_call_id (call_id p)) wa) as [Hks Hkc].
  rewrite E2 in Hks, Hkc. simpl in Hks, Hkc.
  assert (∀ e, settled s wa e → settled s w3 e) as Hmove.
  { intros e He. apply Hks in He. apply (settled_same _ w1);
      [| |by rewrite Hnow, (pf_now _ _ Hframe)|done].
    - by rewrite Hfiles, Hdb.
    - by rewrite Hfs, (pf_fs _ _ Hframe). }
  assert (∀ base,
    call_file_record
      (record_digests (KStr n) (KInt i) (external_digests p) base)
      s (KStr n) (KInt i)
    = call_file_record base s (KStr n) (KInt i)) as Houter.
  { intros base. apply record_digests_other. congruence. }
  destruct (decide (s ∈ (call_file_digests p).*1)) as [Hin|Hout].
  - apply list_elem_of_fmap in Hin as ([s' dg] & Heq & Hin).
    simpl in Heq. subst s'.
    destruct (Hdg _ _ Hin) as (e & He & <-).
    exists e.2. split; [done|]. split; [exists e; auto|].
    change (call_file_record (_call_files (db w3)) s (KStr n) (KInt i)
            = Some e.2).
    rewrite Hcf, Houter. apply record_digests_present; [done|].
    intros dg' Hin'. destruct (Hdg _ _ Hin') as (e' & He' & <-).
    by rewrite (settled_functional _ _ _ _ He He').
  - destruct (Hall s) as [[dg Hin]|[dg Hclean]].
    { by apply elem_of_elements. }
    { exfalso. apply Hout. apply list_elem_of_fmap. by exists (s, dg). }
    destruct (call_id p) as [j|] eqn:Hj; [|by destruct Hclean as [? _]].
    destruct Hold as [Hfd|?]; [|done].
    assert (i = j) as -> by (by apply Hi).
    apply Hkc in Hclean. destruct Hclean as (_ & (e & He & <-) & Hrec).
    exists e.2. split; [done|]. split.
    + exists e. split; [|done].
      apply (settled_same _ w1);
      [| |by rewrite Hnow, (pf_now _ _ Hframe)|done].
      * by rewrite Hfiles, Hdb.
      * by rewrite Hfs, (pf_fs _ _ Hframe).
    + change (call_file_record (_call_files (db w3)) s (KStr n) (KInt j)
              = Some e.2).
      rewrite Hcf, Houter, Hfd, record_digests_absent, Hdb; [done|].
      intros dg' Hin'. apply Hout. apply list_elem_of_fmap.
      by exists (s, dg').
Qed.

(** X15: calling twice runs the function once. Take a call that returned,
    whose body registered no external dependency. If the sources it
    returned are on disk as the call found them, with the clock where it
    was, and their records were not pruned with a changed function (the
    function was clean, or the call was not recorded yet), and if the
    destinations it returned exist, then the same call made again returns
    the same triple and logs no run. *)
Theorem call_again_returns_cached f bound w r w' :
  call f bound w = (Ok r, w') →
  registered_srcs (fn_body f bound) = [] →
  registered_dsts (fn_body f bound) = [] →
  (∀ s, s ∈ r.1.2 →
     file_at w' s = file_at w s ∧ now w' = now w ∧
     ((_check_function (fn_name f) (fn_digest f) w).1 = Ok false ∨
      (_check_call (fn_name f) bound w).1 = Ok (None, VNone))) →
  (∀ t, t ∈ r.2 → is_Some (file_at w' t)) →
  ∃ w'', call f bound w' = (Ok r, w'') ∧ runs w'' = runs w'.
Proof.
  intros Hcall Hrs Hrd Hsrcs Hdsts.
  destruct (partition_roles (fn_annotations f) bound w)
    as [[[[rt srcs] dsts]|e] w0] eqn:Hroles.
  2: { unfold call in Hcall. by rewrite (bind_raise _ _ _ _ _ Hroles) in Hcall. }
  assert ((partition_roles (fn_annotations f) bound w).1
          = Ok (rt, srcs, dsts)) as Hroles' by (by rewrite Hroles).
  rewrite (call_steps _ _ _ _ _ _ _ Hroles') in Hcall.
  rewrite (call_steps _ _ _ _ _ _ w' Hroles').
  clear Hroles w0.
  set (n := fn_name f) in *. set (d := fn_digest f) in *.
  destruct (request_prepare n d bound srcs dsts w) as [[p|e] w1] eqn:Hreq.
  2: { by rewrite (bind_raise _ _ _ _ _ Hreq) in Hcall. }
  rewrite (bind_ok _ _ _ _ _ Hreq) in Hcall.
  pose proof (fun w' => request_prepare_any n d bound srcs dsts w p w1 w' Hreq)
    as Hany.
  destruct (request_prepare_names _ _ _ _ _ _ _ _ Hreq) as [Hprep Hnames].
  set (ns := file_names srcs) in *. set (nd := file_names dsts) in *.
  pose proof (prepare_frame n d bound ns nd w) as Hframe.
  rewrite Hprep in Hframe. simpl in Hframe.
  pose proof (cached_result_spec rt srcs dsts p w1) as Hspec.
  destruct (cached_result rt srcs dsts p w1) as [[c|e] wc] eqn:Hc.
  2: { by rewrite (bind_raise _ _ _ _ _ Hc) in Hcall. }
  rewrite (bind_ok _ _ _ _ _ Hc) in Hcall.
  assert (wc = w1) as ->.
  { destruct (has_result p); [|by injection Hspec].
    destruct (iterate (return_dsts_of rt (old_result p))); by injection Hspec. }
  destruct c as [r0|].
  - (* the first call returned the cached triple *)
    injection Hcall as <- <-.
    assert (has_result p = true) as Hres.
    { destruct (has_result p); [done|]. by injection Hspec. }
    destruct (prepare_stable n d bound ns nd w p w1 Hprep Hres)
      as (w2 & Hprep2 & Hdb2).
    pose proof (prepare_frame n d bound ns nd w1) as Hframe2.
    rewrite Hprep2 in Hframe2. simpl in Hframe2.
    exists w2. split; [|apply Hframe2].
    rewrite <- Hany in Hprep2.
    rewrite (bind_ok _ _ _ _ _ Hprep2).
    unfold bind.
    by rewrite (cached_result_any rt srcs dsts p w1 w2 (pf_fs _ _ Hframe2)), Hc.
  - (* the first call ran the function *)
    rewrite recompute_entered in Hcall. unfold run_and_cache in Hcall.
    destruct (run_action (fn_body f bound) (entry_world f p w1))
      as [[v|e] w2] eqn:Hrun.
    2: { unfold bind at 1, catch at 1 in Hcall. by rewrite Hrun in Hcall. }
    assert (catch (run_action (fn_body f bound))
              (fun e => modify (set_stack (drop 1)) ;;; raise e)
              (entry_world f p w1) = (Ok v, w2)) as Ecatch.
    { unfold catch. by rewrite Hrun. }
    rewrite (bind_ok _ _ _ _ _ Ecatch) in Hcall.
    destruct (pop_frame_spec (locals_at_entry f p) w2) as (l & Epop & Hl).
    rewrite (bind_ok _ _ _ _ _ Epop) in Hcall.
    destruct (run_action_top _ _ _ _ _ (eq_refl : head (stack (entry_world f p w1))
                = Some (CallFrame (locals_at_entry f p))) Hrun)
      as (l' & Hl' & Hreg).
    rewrite (Hl _ Hl') in *. clear l Hl. rename l' into l.
    rewrite Hrs, Hrd in Hreg.
    destruct Hreg as (_ & _ & Hes & Hed & new & Hdg & Hnew).
    assert (new = []) as ->.
    { destruct new as [|sd new]; [done|].
      apply Forall_cons in Hnew as [Hsd _]. by apply elem_of_nil in Hsd. }
    rewrite app_nil_r in Hdg. simpl in Hes, Hed, Hdg.
    assert (l_external_srcs l = ∅) as Hes' by (rewrite Hes; set_solver).
    assert (l_external_dsts l = ∅) as Hed' by (rewrite Hed; set_solver).
    pose proof (run_action_same_db _ Hrs (entry_world f p w1)) as Hdb.
    rewrite Hrun in Hdb. unfold same_db in Hdb. simpl in Hdb.
    set (wc := set_stack (drop 1) w2) in *.
    assert (db wc = db w1) as Hdbc by done.
    rewrite Hdg in Hcall.
    destruct (cache (function_dirty p) n d (call_id p) bound v
                (call_file_digests p) (l_external_srcs l) (l_external_dsts l)
                (external_digests p) wc) as [[[]|e] w3] eqn:Ecache.
    2: { by rewrite (bind_raise _ _ _ _ _ Ecache) in Hcall. }
    rewrite (bind_ok _ _ _ _ _ Ecache) in Hcall.
    destruct (set_update (dsts ∪ objects (l_external_dsts l))
                (return_dsts_of rt v)) as [all_dsts|e] eqn:Hup;
      unfold bind, lift, ret in Hcall; [|done].
    injection Hcall as <- <-. simpl in Hsrcs, Hdsts.
    unfold set_update in Hup.
    destruct (iterate (return_dsts_of rt v)) as [rd|e] eqn:Hrdo; [|done].
    destruct (forallb hashable rd); [|done].
    injection Hup as <-.
    (* the tables after [cache] *)
    pose proof Hprep as Hsteps.
    apply prepare_steps in Hsteps as (Efd & Ec & _).
    assert ((_check_function n d wc).1 = Ok (function_dirty p)) as Efd'.
    { rewrite _check_function_lookup in *. simpl in *.
      by rewrite Hdb, (pf_functions _ _ Hframe). }
    assert ((_check_call n bound wc).1 = Ok (call_id p, old_result p)) as Ec'.
    { rewrite _check_call_lookup in *. simpl in *.
      by rewrite Hdb, (pf_function_calls _ _ Hframe). }
    destruct (cache_after_checks _ _ _ _ _ _ v (call_file_digests p)
                (l_external_srcs l) (l_external_dsts l)
                (external_digests p) _ Efd' Ec')
      as (i & w3' & E & Hi & Hfd3 & Hc3 & Hxs & Hxd & _ & _ & Hdo).
    rewrite Ecache in E. injection E as <-.
    (* the second [prepare] *)
    assert (∀ s, s ∈ elements ns →
              ∃ dg, clean_at (KInt i) (KStr n) s w3 dg) as Hall.
    { intros s Hs. apply elem_of_elements in Hs.
      assert (VStr s ∈ srcs) as Hs' by (by apply elem_of_file_names).
      destruct (Hsrcs (VStr s)) as (Hfs & Hnow & Hold); [set_solver|].
      apply (declared_source_clean_after_cache n d bound ns nd w p w1 wc
               i w3 v (l_external_srcs l) (l_external_dsts l) s);
        try done.
      destruct Hold as [Hold|Hold].
      - left. rewrite Hold in Efd. by injection Efd.
      - right. rewrite Hold in Ec. by injection Ec. }
    destruct (check_call_files_of_clean (KInt i) (KStr n) (elements ns) []
                w3 Hall) as (w4 & E1 & Hdb4 & Hf4).
    assert (prepare n d bound ns nd w3
            = (Ok (Prepared false (Some i) v [] false (l_external_srcs l)
                     (l_external_dsts l) []), w4)) as Hprep2.
    { apply prepare_steps. simpl. split; [done|]. split; [done|].
      exists w4. split; [done|].
      rewrite _check_external_files_cases, Hdb4, Hxs.
      rewrite Hes', elements_empty. simpl. by rewrite Hdb4, Hxd. }
    exists w4. split; [|apply Hf4].
    rewrite <- Hany in Hprep2.
    rewrite (bind_ok _ _ _ _ _ Hprep2).
    unfold bind. rewrite cached_result_spec. simpl.
    rewrite Hrdo. rewrite bool_decide_true; [done|].
    apply Forall_forall. intros t Ht.
    assert (is_Some (file_at w3 t)) as Ht3.
    { apply Hdsts. rewrite !elem_of_app, !elem_of_elements in Ht.
      set_solver. }
    unfold file_at in *. by rewrite (pf_fs _ _ Hf4).
Qed.

(** An instance: the second [wc(ctx, "a.c")] of scenario S2. *)
Lemma call_again_returns_cached_wc :
  ∃ w'',
    call (wc_fn 10) wc_args after_first_wc
      = (Ok (VInt 10, {[VStr "a.c"]}, ∅), w'') ∧
    runs w'' = runs after_first_wc.
Proof.
  refine (call_again_returns_cached (wc_fn 10) wc_args one_source_world
            (VInt 10, {[VStr "a.c"]}, ∅) after_first_wc _ _ _ _ _).
  - vm_compute; reflexivity.
  - reflexivity.
  - reflexivity.
  - intros s Hs. simpl in Hs. apply elem_of_singleton in Hs as ->.
    split; [vm_compute; reflexivity|]. split; [vm_compute; reflexivity|].
    right. vm_compute; reflexivity.
  - intros t Ht. simpl in Ht. by apply elem_of_empty in Ht.
Defined.

(** ** A changed function and its declared sources *)

Lemma check_call_files_unrecorded c n l s : ∀ acc w acc' w',
  for_each l (check_one_call_file c n) acc w = (Ok acc', w') →
  (_call_files (db w) !! s) ≫= (fun datas => datas !! n) = None →
  s ∈ l ∨ s ∈ acc.*1 → s ∈ acc'.*1.
Proof.
  induction l as [|f l IH]; intros acc w acc' w' H Hnone Hin; simpl in H.
  - injection H as <- _. destruct Hin as [Hin|]; [|done].
    by apply elem_of_nil in Hin.
  - unfold bind at 1 in H.
    destruct (check_one_call_file c n f acc w) as [[acc1|e] wa] eqn:E1;
      [|done].
    pose proof (_check_call_file_frame c n f w) as Hf.
    unfold check_one_call_file, bind in E1.
    destruct (_check_call_file c n f w) as [[r|e] wa'] eqn:Ep; [|done].
    simpl in Hf.
    assert (wa' = wa) as -> by (destruct r.1; by injection E1).
    assert ((_call_files (db wa) !! s) ≫= (fun datas => datas !! n) = None)
      as Hnone'.
    { destruct (_call_files (db wa) !! s) as [datas|] eqn:Ecf; [|done].
      pose proof (pf_call_files _ _ Hf) as Hsub.
      rewrite map_subseteq_spec in Hsub.
      by rewrite (Hsub _ _ Ecf) in Hnone. }
    apply (IH _ _ _ _ H Hnone').
    destruct (decide (s = f)) as [->|Hne].
    + right. assert (r.1 = true) as Hr.
      { destruct r as [[] dg]; [done|].
        apply _check_call_file_clean in Ep as (_ & e & _ & _ & Hl).
        destruct (_call_files (db wa) !! f) as [datas|]; [|done].
        simpl in *. by rewrite Hnone' in Hl. }
      rewrite Hr in E1. injection E1 as <-.
      rewrite fmap_app. apply elem_of_app. right. simpl. left.
    + destruct Hin as [Hin|Hin].
      * left. apply elem_of_cons in Hin as [|]; done.
      * right. destruct r.1; injection E1 as <-; [|done].
        rewrite fmap_app. apply elem_of_app. by left.
Qed.

Lemma prune_call_files_record name cf s :
  (prune_call_files name cf !! s) ≫= (fun datas => datas !! name) = None.
Proof.
  destruct (prune_call_files name cf !! s) as [m|] eqn:E; [|done].
  apply prune_call_files_lookup in E as (v & _ & -> & _). simpl.
  apply lookup_delete_eq.
Qed.

Lemma upsert3_second_level {V} (s : string) (n c : pykey) (dg : V) cf s' n' :
  (s', n') ≠ (s, n) →
  (upsert3 s n c dg cf !! s') ≫= (fun datas => datas !! n')
    = (cf !! s') ≫= (fun datas => datas !! n').
Proof.
  intros Hne. unfold upsert3.
  destruct (decide (s' = s)) as [->|Hs]; [|by rewrite lookup_insert_ne].
  rewrite lookup_insert_eq. simpl. rewrite lookup_insert_ne by congruence.
  by destruct (cf !! s).
Qed.

Lemma record_digests_second_level c n dgs : ∀ cf s' n',
  (n' ≠ n ∨ s' ∉ dgs.*1) →
  (record_digests c n dgs cf !! s') ≫= (fun datas => datas !! n')
    = (cf !! s') ≫= (fun datas => datas !! n').
Proof.
  induction dgs as [|[s dg] l IH]; intros cf s' n' Hne; simpl; [done|].
  rewrite IH.
  - apply upsert3_second_level. intros [= -> ->].
    destruct Hne as [?|Hne]; [done|]. apply Hne. simpl. left.
  - destruct Hne as [?|Hne]; [by left|]. right. intros Hin. apply Hne.
    simpl. by right.
Qed.

Lemma cache_dirty n d c b r cfd es ed eg w :
  ∃ w2, cache true n d c b r cfd es ed eg w = (Ok tt, w2) ∧
    _call_files (db w2) =
      record_digests (KStr n) (KInt 0) eg
        (record_digests (KInt 0) (KStr n) cfd
           (prune_call_files (KStr n) (_call_files (db w)))).
Proof.
  assert (∃ w1, (_update_function n d ;;; _update_call n c b r) w
                = (Ok 0, w1) ∧
            _call_files (db w1)
              = prune_call_files (KStr n) (_call_files (db w)))
    as (w1 & E1 & Hcf1).
  { eexists. split.
    - unfold bind at 1. unfold _update_function at 1.
      unfold bind at 1, clear_function at 1. unfold bind at 1, gets at 1.
      unfold bind at 1, modify at 1. unfold ret at 1, modify at 1.
      unfold _update_call, bind, gets. cbn [db set_db _function_calls].
      rewrite lookup_delete_eq. reflexivity.
    - done. }
  unfold cache.
  assert (∀ {A B C} (m1 : M A) (m2 : M B) (k : B → M C) w,
            (m1 ;;; x <- m2 ;; k x) w = (x <- (m1 ;;; m2) ;; k x) w) as Hassoc.
  { intros A B C m1 m2 k w0. unfold bind. by destruct (m1 w0) as [[]]. }
  rewrite Hassoc, (bind_ok _ _ _ _ _ E1).
  unfold _update_call_files. unfold bind at 1.
  rewrite update_call_files_loop.
  unfold _update_external_files. unfold bind at 1, modify at 1.
  rewrite update_call_files_loop.
  eexists. split; [reflexivity|]. simpl. by rewrite Hcf1.
Qed.

(** X16: a changed function drops the records of its declared sources.
    [cache] for a dirty function prunes the function's records from
    [_call_files] before it writes the submitted digests, so a declared
    source that was unchanged, and for that reason not among the submitted
    digests, has no record afterwards: the next [prepare] that returns
    for the function hands back its digest, which makes that call dirty
    once more. *)
Theorem cache_of_changed_function_forgets_sources
    n d c b r cfd es ed eg w srcs dsts b' p w3 s :
  s ∈ srcs → s ∉ cfd.*1 →
  prepare n d b' srcs dsts (cache true n d c b r cfd es ed eg w).2
    = (Ok p, w3) →
  s ∈ (call_file_digests p).*1 ∧ has_result p = false.
Proof.
  intros Hs Hout Hp.
  assert (s ∈ (call_file_digests p).*1) as Hin.
  { apply prepare_steps in Hp as (_ & _ & wa & E1 & _).
    unfold _check_call_files in E1.
    apply (check_call_files_unrecorded _ _ _ s _ _ _ _ E1).
    - destruct (cache_dirty n d c b r cfd es ed eg w) as (w2 & -> & Hcf).
      simpl. rewrite Hcf.
      rewrite record_digests_second_level by (left; congruence).
      rewrite record_digests_second_level by (by right).
      apply prune_call_files_record.
    - left. by apply elem_of_elements. }
  split; [done|].
  unfold has_result. destruct (call_file_digests p); [|by rewrite !orb_true_r].
  by apply elem_of_nil in Hin.
Qed.

(** An instance: [wc(ctx, "a.c")] after the source of [wc] was edited and
    the call was made again: the call after that is dirty. *)
Lemma cache_of_changed_function_forgets_a_c :
  (prepare "m.wc" "edited source of wc" wc_args {["a.c"]} ∅
     after_edited_wc).1
    = Ok (Prepared false (Some 0) (VInt 10) [("a.c", "d1")] false ∅ ∅ []) ∧
  has_result (Prepared false (Some 0) (VInt 10) [("a.c", "d1")] false ∅ ∅ [])
    = false.
Proof.
  split; [vm_compute; reflexivity|].
  refine (proj2
    (cache_of_changed_function_forgets_sources "m.wc"
       "edited source of wc" (Some 0) wc_args (VInt 10) [] ∅ ∅ []
       after_first_wc {["a.c"]} ∅ wc_args
       (Prepared false (Some 0) (VInt 10) [("a.c", "d1")] false ∅ ∅ [])
       (prepare "m.wc" "edited source of wc" wc_args {["a.c"]} ∅
          after_edited_wc).2 "a.c" _ _ _)).
  - by apply elem_of_singleton.
  - apply not_elem_of_nil.
  - vm_compute; reflexivity.
Defined.
(** ** The keys of the external-dependency tables *)

#[global] Instance keeps_keyed_preorder : PreOrder keeps_keyed.
Proof. split; unfold keeps_keyed; [intros w|intros w1 w2 w3]; tauto. Qed.

Lemma probe_frame_keeps_keyed w w' : probe_frame w w' → keeps_keyed w w'.
Proof.
  intros H Hk k. rewrite (pf_external_srcs _ _ H), (pf_external_dsts _ _ H).
  apply Hk.
Qed.

Lemma clear_function_keeps_keyed name :
  preserves keeps_keyed (clear_function name).
Proof.
  intros w Hk k [[v Hv]|[v Hv]]; simpl in Hv;
    apply lookup_delete_Some in Hv as [_ Hv]; apply Hk; eauto.
Qed.

Lemma cache_keeps_keyed fd n d c b r cf es ed eg :
  preserves keeps_keyed (cache fd n d c b r cf es ed eg).
Proof.
  unfold cache, _update_function, _update_call, store_calls,
    _update_call_files, _update_external_files, _update_call_file.
  repeat first [ preserves_step
               | apply clear_function_keeps_keyed
               | by intros ? ].
  intros Hk k. simpl. unfold upsert2.
  match goal with
  | |- context [<[KInt ?i := _]> _] =>
      destruct (decide (k = KInt i)) as [->|Hne]; [by eauto|]
  end.
  rewrite !lookup_insert_ne by done. apply Hk.
Qed.

Lemma serve_keeps_keyed r w : keeps_keyed w (serve r w).
Proof.
  destruct r; simpl.
  - apply probe_frame_keeps_keyed, prepare_frame.
  - apply cache_keeps_keyed.
  - apply clear_function_keeps_keyed.
  - apply probe_frame_keeps_keyed, clear_file_frame.
  - by intros ?.
Qed.

Lemma serve_all_keeps_keyed rs w : keeps_keyed w (serve_all rs w).
Proof.
  revert w. induction rs as [|r rs IH]; intros w; simpl.
  - done.
  - etrans; [apply serve_keeps_keyed|apply IH].
Qed.

(** X17: on every history of the backend, [clear_function] leaves the two
    external-dependency tables exactly as they are. [cache] files the
    external sets under the call index first, so from an empty backend,
    after any requests and any changes of the files and the clock, no
    first-level key of the two tables is a function name, and the two
    deletions of [clear_function] under the name remove nothing. *)
Theorem clear_function_never_clears_external_tables rs files time name :
  let w := serve_all rs (initial_world files time) in
  keyed_by_call_index (db w) ∧
  _external_srcs (db (clear_function name w).2) = _external_srcs (db w) ∧
  _external_dsts (db (clear_function name w).2) = _external_dsts (db w).
Proof.
  intros w.
  assert (keyed_by_call_index (db w)) as Hk.
  { apply serve_all_keeps_keyed. intros k [[v Hv]|[v Hv]]; simpl in Hv;
      by rewrite lookup_empty in Hv. }
  split; [done|]. simpl. split.
  - apply delete_id. destruct (_external_srcs (db w) !! KStr name) eqn:E;
      [|done].
    destruct (Hk (KStr name)) as [i Hi]; [left; eauto|done].
  - apply delete_id. destruct (_external_dsts (db w) !! KStr name) eqn:E;
      [|done].
    destruct (Hk (KStr name)) as [i Hi]; [right; eauto|done].
Qed.

(** ** Cache hits *)

(** X18: a cache hit is sound. When [Database.call] returns without
    running the function, the digest on record for the function is its
    present digest, the result is one that the call list holds for these
    very arguments, every source and every destination of the returned
    triple is on disk, and the call has left the file system and the four
    per-function tables as they were. *)
Theorem cache_hit_is_sound f bound w r w' :
  call f bound w = (Ok r, w') →
  runs w' = runs w →
  _functions (db w) !! fn_name f = Some (fn_digest f) ∧
  (∃ datas i, _function_calls (db w) !! fn_name f = Some datas ∧
              datas !! i = Some (bound, r.1.1)) ∧
  (∀ s, s ∈ r.1.2 → is_Some (file_at w s)) ∧
  (∀ t, t ∈ r.2 → is_Some (file_at w t)) ∧
  fs w' = fs w ∧
  registry_frame w w'.
Proof.
  intros Hcall Hruns.
  destruct (partition_roles (fn_annotations f) bound w)
    as [[[[rt srcs] dsts]|e] w0] eqn:Hroles.
  2: { unfold call in Hcall. by rewrite (bind_raise _ _ _ _ _ Hroles) in Hcall. }
  assert ((partition_roles (fn_annotations f) bound w).1
          = Ok (rt, srcs, dsts)) as Hroles' by (by rewrite Hroles).
  rewrite (call_steps _ _ _ _ _ _ _ Hroles') in Hcall.
  clear Hroles Hroles' w0.
  set (n := fn_name f) in *. set (d := fn_digest f) in *.
  destruct (request_prepare n d bound srcs dsts w) as [[p|e] w1] eqn:Hreq.
  2: { by rewrite (bind_raise _ _ _ _ _ Hreq) in Hcall. }
  rewrite (bind_ok _ _ _ _ _ Hreq) in Hcall.
  destruct (request_prepare_names _ _ _ _ _ _ _ _ Hreq) as [Hprep Hnames].
  remember (file_names srcs) as ns eqn:Hns.
  remember (file_names dsts) as nd eqn:Hnd.
  pose proof (prepare_frame n d bound ns nd w) as Hframe.
  rewrite Hprep in Hframe. simpl in Hframe.
  unfold bind in Hcall. rewrite cached_result_spec in Hcall.
  assert (recompute f bound rt srcs dsts p w1 ≠ (Ok r, w')) as Hdirty.
  { intros H. pose proof (recompute_runs f bound rt srcs dsts p w1) as Hr.
    rewrite H in Hr. simpl in Hr.
    rewrite Hruns, (pf_runs _ _ Hframe) in Hr.
    apply (f_equal length) in Hr. rewrite length_app in Hr. simpl in Hr. lia. }
  destruct (has_result p) eqn:Hres; [|done].
  destruct (iterate (return_dsts_of rt (old_result p))) as [rd|e] eqn:Hrd;
    [|done].
  case_bool_decide as Hex; [|done].
  injection Hcall as <- <-. simpl.
  apply has_result_true in Hres as (Hfd & Hid & Hcfd & Hxg & Hxd).
  apply prepare_steps in Hprep as (Efd & Ec & wa & E1 & E2).
  split; [|split; [|split; [|split; [|split]]]].
  - rewrite _check_function_lookup, Hfd in Efd. simpl in Efd.
    destruct (_functions (db w) !! n) as [od|]; [|done].
    injection Efd as Efd. apply negb_false_iff, bool_decide_eq_true in Efd.
    by subst.
  - rewrite _check_call_lookup in Ec. simpl in Ec.
    destruct (_function_calls (db w) !! n) as [datas|]; simpl in Ec.
    + destruct (find_call bound datas 0) as [[i res]|] eqn:Ef.
      * injection Ec as _ <-. apply find_call_lookup in Ef as (j & _ & Hj).
        eauto.
      * injection Ec as Ec _. by rewrite <- Ec in Hid.
    + injection Ec as Ec _. by rewrite <- Ec in Hid.
  - pose proof (_check_call_files_frame (key_of_call_id (call_id p)) (KStr n)
                  (elements ns) w) as Hfa.
    rewrite E1 in Hfa. simpl in Hfa.
    intros x Hx. rewrite <- Hnames in Hx.
    assert (∃ s, x = VStr s ∧ s ∈ ns ∪ external_srcs p) as (s & -> & Hs).
    { apply elem_of_union in Hx as [Hx|Hx];
        apply elem_of_objects in Hx as (s & -> & Hs); exists s; set_solver. }
    change (is_Some (fs w !! s)).
    apply elem_of_union in Hs as [Hs|Hs].
    + destruct (fs w !! s) eqn:Hfs; [by eauto|].
      pose proof (_check_call_files_missing (key_of_call_id (call_id p))
                    (KStr n) (elements ns) [] w s) as Hm.
      unfold _check_call_files in E1. rewrite E1 in Hm.
      by specialize (Hm ltac:(by apply elem_of_elements) Hfs).
    + destruct (_check_external_files_spec (KStr n)
                  (key_of_call_id (call_id p)) wa)
        as (dirty & dg & w2 & E2' & Hdirty').
      rewrite E2 in E2'. injection E2' as <- Hxs _ _ _.
      destruct (fs w !! s) eqn:Hfs; [by eauto|].
      rewrite Hxd in Hdirty'. destruct Hdirty' as [_ Hd].
      discriminate Hd. exists s. rewrite <- Hxs.
      by rewrite (pf_fs _ _ Hfa).
  - intros t Ht. rewrite Forall_forall in Hex.
    assert (is_Some (file_at w1 t)) as Ht1.
    { apply Hex. rewrite !elem_of_app, !elem_of_elements. set_solver. }
    unfold file_at in *. by rewrite <- (pf_fs _ _ Hframe).
  - apply Hframe.
  - by apply probe_frame_registry_frame.
Qed.

(** An instance: the second [wc(ctx, "a.c")] of scenario S2. *)
Lemma cache_hit_is_sound_wc :
  _functions (db after_first_wc) !! "m.wc" = Some "source of wc" ∧
  (∃ datas i, _function_calls (db after_first_wc) !! "m.wc" = Some datas ∧
              datas !! i = Some (wc_args, VInt 10)) ∧
  (∀ s, s ∈ ({[VStr "a.c"]} : gset value) →
        is_Some (file_at after_first_wc s)) ∧
  (∀ t, t ∈ (∅ : gset value) → is_Some (file_at after_first_wc t)) ∧
  fs (call (wc_fn 10) wc_args after_first_wc).2 = fs after_first_wc ∧
  registry_frame after_first_wc (call (wc_fn 10) wc_args after_first_wc).2.
Proof.
  refine (cache_hit_is_sound (wc_fn 10) wc_args after_first_wc
            (VInt 10, {[VStr "a.c"]}, ∅) _ _ _);
    vm_compute; reflexivity.
Defined.

(** ** What a save leaves in the directory *)

Section save_footprint.
Variable pickle : backend → bytes.

(** X19: a save that runs to its end cleans up after itself. The file
    under [path] holds the pickled tables, the names [path.tmp] and
    [path.old] are gone (a stale [path.old] from an interrupted save
    included), and every other name of the directory holds what it
    held. *)
Theorem save_leaves_no_temporaries self path d :
  ∃ d', save pickle self path d = (Ok tt, d') ∧
    contents d' !! path = Some (pickle self) ∧
    contents d' !! (path +:+ ".tmp") = None ∧
    contents d' !! (path +:+ ".old") = None ∧
    ∀ k, k ≠ path → k ≠ path +:+ ".tmp" → k ≠ path +:+ ".old" →
         contents d' !! k = contents d !! k.
Proof.
  pose proof (save_spec pickle self path d) as H. cbn zeta in H.
  eexists. split; [exact H|]. cbn [contents]. clear H.
  pose proof (tmp_ne_path path) as Htp.
  pose proof (old_ne_path path) as Hop.
  pose proof (tmp_ne_old path) as Hto.
  set (tmp := path +:+ ".tmp") in *. set (old := path +:+ ".old") in *.
  set (c := contents d).
  set (moved := if bool_decide (is_Some (<[tmp := pickle self]> c !! path))
                then rename_entry path old (<[tmp := pickle self]> c)
                else <[tmp := pickle self]> c).
  assert (moved !! tmp = Some (pickle self)) as Hmt.
  { unfold moved. case_bool_decide.
    - rewrite rename_entry_lookup_other by done. apply lookup_insert_eq.
    - apply lookup_insert_eq. }
  assert (∀ k, k ≠ path → k ≠ tmp → k ≠ old → moved !! k = c !! k) as Hmk.
  { intros k H1 H2 H3. unfold moved. case_bool_decide.
    - rewrite rename_entry_lookup_other by done. by rewrite lookup_insert_ne.
    - by rewrite lookup_insert_ne. }
  set (renamed := rename_entry tmp path moved).
  assert (renamed !! path = Some (pickle self)) as Hrp
    by (by apply rename_entry_lookup_dst).
  assert (renamed !! tmp = None) as Hrt.
  { unfold renamed, rename_entry. rewrite Hmt.
    rewrite lookup_insert_ne by done. apply lookup_delete_eq. }
  assert (∀ k, k ≠ path → k ≠ tmp → renamed !! k = moved !! k) as Hrk.
  { intros k H1 H2. unfold renamed. by apply rename_entry_lookup_other. }
  assert (<[tmp := pickle self]> c !! path = c !! path) as Hwp
    by (by rewrite lookup_insert_ne).
  assert ((if bool_decide (is_Some (c !! path))
           then rename_entry path old (<[tmp:=pickle self]> c)
           else <[tmp:=pickle self]> c) = moved) as ->.
  { unfold moved. by rewrite Hwp. }
  fold renamed.
  case_bool_decide as Hold.
  - rewrite !lookup_delete_ne by done. rewrite lookup_delete_eq.
    repeat split; try done.
    intros k H1 H2 H3. rewrite lookup_delete_ne by done.
    rewrite Hrk by done. by apply Hmk.
  - repeat split; try done.
    + by apply eq_None_not_Some.
    + intros k H1 H2 H3. rewrite Hrk by done. by apply Hmk.
Qed.

End save_footprint.
(** ** Forcing a rerun *)

Lemma prepare_raises_missing n d b srcs dsts w s :
  s ∈ srcs → fs w !! s = None →
  (prepare n d b srcs dsts w).1 = Raise OSError.
Proof.
  intros Hs Hfs. unfold prepare.
  unfold bind at 1. rewrite _check_function_lookup. lazy beta iota.
  unfold bind at 1. rewrite _check_call_lookup. lazy beta iota.
  unfold bind at 1.
  match goal with |- context [_check_call_files ?c ?k ?l w] =>
    pose proof (_check_call_files_missing c k l [] w s) as Hm;
    unfold _check_call_files;
    destruct (for_each l (check_one_call_file c k) [] w) as [[x|e] w1]
  end.
  - by specialize (Hm ltac:(by apply elem_of_elements) Hfs).
  - simpl in *.
    specialize (Hm ltac:(by apply elem_of_elements) Hfs). by injection Hm as ->.
Qed.

Lemma request_prepare_raises_missing n d b srcs dsts w x :
  x ∈ srcs → file_at w x = None →
  (request_prepare n d b srcs dsts w).1 = Raise OSError.
Proof.
  intros Hx Hfs. unfold request_prepare.
  destruct (forallb _ _) eqn:Hall; [|done].
  rewrite forallb_forall in Hall.
  assert (bool_decide (is_Some (filename_of x)) = true) as Hn.
  { apply Hall. apply list_elem_of_In. by apply elem_of_elements. }
  apply bool_decide_eq_true in Hn as [s Hn].
  destruct x; simpl in Hn; try done. injection Hn as ->.
  apply (prepare_raises_missing _ _ _ _ _ _ s); [|done].
  by apply elem_of_file_names.
Qed.

(** X20: a call whose declared source is not on disk raises [OSError]
    out of [prepare], before the user function is run and before
    anything is recorded for the call. *)
Theorem call_raises_on_missing_source f bound w return_type srcs dsts s :
  partition_roles (fn_annotations f) bound w
    = (Ok (return_type, srcs, dsts), w) →
  VStr s ∈ srcs → fs w !! s = None →
  (call f bound w).1 = Raise OSError ∧
  runs (call f bound w).2 = runs w ∧
  registry_frame w (call f bound w).2.
Proof.
  intros Hroles Hs Hfs.
  assert ((partition_roles (fn_annotations f) bound w).1
          = Ok (return_type, srcs, dsts)) as Hroles' by (by rewrite Hroles).
  pose proof (request_prepare_raises_missing (fn_name f) (fn_digest f) bound
                srcs dsts w (VStr s) Hs Hfs) as Hraise.
  pose proof (request_prepare_frame (fn_name f) (fn_digest f) bound srcs dsts w)
    as Hframe.
  destruct (request_prepare (fn_name f) (fn_digest f) bound srcs dsts w)
    as [[p|e] w1] eqn:Hprep; simpl in Hraise, Hframe; [done|].
  injection Hraise as ->.
  rewrite (call_steps _ _ _ _ _ _ _ Hroles'), (bind_raise _ _ _ _ _ Hprep).
  simpl. split; [done|]. split; [apply Hframe|].
  by apply probe_frame_registry_frame.
Qed.

(** An instance: [wc(ctx, "gone.c")] next to ["a.c"] only. *)
Lemma call_raises_on_missing_source_gone :
  (call (wc_fn 10) gone_args one_source_world).1 = Raise OSError ∧
  runs (call (wc_fn 10) gone_args one_source_world).2
    = runs one_source_world ∧
  registry_frame one_source_world
    (call (wc_fn 10) gone_args one_source_world).2.
Proof.
  refine (call_raises_on_missing_source (wc_fn 10) gone_args one_source_world
            None {[VStr "gone.c"]} ∅ "gone.c" _ _ _).
  - vm_compute; reflexivity.
  - by apply elem_of_singleton.
  - vm_compute; reflexivity.
Defined.

Lemma clear_function_tables name w :
  _functions (db (clear_function name w).2) = delete name (_functions (db w)) ∧
  _function_calls (db (clear_function name w).2)
    = delete name (_function_calls (db w)).
Proof. done. Qed.

(** X21: [clear_function] forces the function to run again. The next
    [prepare] for the cleared name, whatever the arguments and the digest,
    finds the function dirty and no recorded call, so the first test of
    [Database.call] fails. *)
Theorem clear_function_forces_rerun name d b srcs dsts w p w' :
  prepare name d b srcs dsts (clear_function name w).2 = (Ok p, w') →
  function_dirty p = true ∧ call_id p = None ∧ old_result p = VNone ∧
  has_result p = false.
Proof.
  intros Hp. apply prepare_steps in Hp as (Efd & Ec & _).
  destruct (clear_function_tables name w) as [Hf Hc].
  rewrite _check_function_lookup in Efd. rewrite _check_call_lookup in Ec.
  cbn [fst] in Efd, Ec. rewrite Hf, lookup_delete_eq in Efd.
  rewrite Hc, lookup_delete_eq in Ec. simpl in Ec.
  injection Efd as Hfd. injection Ec as Hid Hold.
  unfold has_result. by rewrite <- Hfd.
Qed.

(** An instance: [add(ctx, 2, 3)] after its function was cleared. *)
Lemma clear_function_forces_rerun_add :
  (prepare "m.add" "source of add" add_args ∅ ∅
     (clear_function "m.add" after_first_add).2).1
    = Ok (Prepared true None VNone [] false ∅ ∅ []) ∧
  has_result (Prepared true None VNone [] false ∅ ∅ []) = false.
Proof.
  split; [vm_compute; reflexivity|].
  refine (proj2 (proj2 (proj2
    (clear_function_forces_rerun "m.add" "source of add" add_args ∅ ∅
       after_first_add (Prepared true None VNone [] false ∅ ∅ [])
       (prepare "m.add" "source of add" add_args ∅ ∅
          (clear_function "m.add" after_first_add).2).2 _)))).
  vm_compute; reflexivity.
Defined.

(** X22: [clear_file] forces the calls that declare the file to run
    again. The next [prepare] that returns for a call with the cleared
    file among its declared sources hands back the digest of the file, so
    the first test of [Database.call] fails. *)
Theorem clear_file_forces_rerun n d b srcs dsts s w p w' :
  s ∈ srcs →
  prepare n d b srcs dsts (clear_file s w).2 = (Ok p, w') →
  s ∈ (call_file_digests p).*1 ∧ has_result p = false.
Proof.
  intros Hs Hp.
  assert (s ∈ (call_file_digests p).*1) as Hin.
  { apply prepare_steps in Hp as (_ & _ & wa & E1 & _).
    unfold _check_call_files in E1.
    apply (check_call_files_unrecorded _ _ _ s _ _ _ _ E1).
    - simpl. by rewrite lookup_delete_eq.
    - left. by apply elem_of_elements. }
  split; [done|].
  unfold has_result. destruct (call_file_digests p); [|by rewrite !orb_true_r].
  by apply elem_of_nil in Hin.
Qed.

(** An instance: [wc(ctx, "a.c")] after ["a.c"] was cleared. *)
Lemma clear_file_forces_rerun_a_c :
  (prepare "m.wc" "source of wc" wc_args {["a.c"]} ∅
     (clear_file "a.c" after_first_wc).2).1
    = Ok (Prepared false (Some 0) (VInt 10) [("a.c", "d1")] false ∅ ∅ []) ∧
  has_result (Prepared false (Some 0) (VInt 10) [("a.c", "d1")] false ∅ ∅ [])
    = false.
Proof.
  split; [vm_compute; reflexivity|].
  refine (proj2
    (clear_file_forces_rerun "m.wc" "source of wc" wc_args {["a.c"]} ∅
       "a.c" after_first_wc
       (Prepared false (Some 0) (VInt 10) [("a.c", "d1")] false ∅ ∅ [])
       (prepare "m.wc" "source of wc" wc_args {["a.c"]} ∅
          (clear_file "a.c" after_first_wc).2).2 _ _)).
  - by apply elem_of_singleton.
  - vm_compute; reflexivity.
Defined.

(** ** What a call leaves on record *)

(** X23: a call that returns leaves its result on record. Whether
    [Database.call] took the clean path or ran the function, and whatever
    the body did, afterwards the function is clean for its digest and
    [_check_call] finds the returned result for the bound arguments. *)
Theorem call_records_result f bound w r w' :
  call f bound w = (Ok r, w') →
  (_check_function (fn_name f) (fn_digest f) w').1 = Ok false ∧
  ∃ i, (_check_call (fn_name f) bound w').1 = Ok (Some i, r.1.1).
Proof.
  intros Hcall.
  destruct (partition_roles (fn_annotations f) bound w)
    as [[[[rt srcs] dsts]|e] w0] eqn:Hroles.
  2: { unfold call in Hcall. by rewrite (bind_raise _ _ _ _ _ Hroles) in Hcall. }
  assert ((partition_roles (fn_annotations f) bound w).1
          = Ok (rt, srcs, dsts)) as Hroles' by (by rewrite Hroles).
  rewrite (call_steps _ _ _ _ _ _ _ Hroles') in Hcall.
  clear Hroles Hroles' w0.
  set (n := fn_name f) in *. set (d := fn_digest f) in *.
  destruct (request_prepare n d bound srcs dsts w) as [[p|e] w1] eqn:Hreq.
  2: { by rewrite (bind_raise _ _ _ _ _ Hreq) in Hcall. }
  rewrite (bind_ok _ _ _ _ _ Hreq) in Hcall.
  destruct (request_prepare_names _ _ _ _ _ _ _ _ Hreq) as [Hprep _].
  pose proof (prepare_frame n d bound (file_names srcs) (file_names dsts) w)
    as Hframe.
  rewrite Hprep in Hframe. simpl in Hframe.
  apply prepare_steps in Hprep as (Efd & Ec & _).
  assert ((_check_function n d w1).1 = Ok (function_dirty p)) as Efd1.
  { rewrite _check_function_lookup in *. simpl in *.
    by rewrite (pf_functions _ _ Hframe). }
  assert ((_check_call n bound w1).1 = Ok (call_id p, old_result p)) as Ec1.
  { rewrite _check_call_lookup in *. simpl in *.
    by rewrite (pf_function_calls _ _ Hframe). }
  unfold bind at 1 in Hcall. rewrite cached_result_spec in Hcall.
  assert (∀ r0, (if has_result p then Some r0 else None) = Some r →
            r.1.1 = r0.1.1 →
            (old_result p = r0.1.1) →
            (_check_function n d w1).1 = Ok false ∧
            ∃ i, (_check_call n bound w1).1 = Ok (Some i, r.1.1)) as Hclean.
  { intros r0 Hr Hv Hold. destruct (has_result p) eqn:Hres; [|done].
    apply has_result_true in Hres as (Hfd & Hid & _).
    rewrite Hfd in Efd1. split; [done|].
    destruct (call_id p) as [i|]; [|done]. exists i.
    by rewrite Ec1, Hv, <- Hold. }
  assert (recompute f bound rt srcs dsts p w1 = (Ok r, w') →
            (_check_function n d w').1 = Ok false ∧
            ∃ i, (_check_call n bound w').1 = Ok (Some i, r.1.1)) as Hdirty.
  { clear Hclean Hcall. intros Hcall.
    rewrite recompute_entered in Hcall. unfold run_and_cache in Hcall.
    destruct (run_action (fn_body f bound) (entry_world f p w1))
      as [[v|e] w2] eqn:Hrun.
    2: { unfold bind at 1, catch at 1 in Hcall. by rewrite Hrun in Hcall. }
    assert (catch (run_action (fn_body f bound))
              (fun e => modify (set_stack (drop 1)) ;;; raise e)
              (entry_world f p w1) = (Ok v, w2)) as Ecatch.
    { unfold catch. by rewrite Hrun. }
    rewrite (bind_ok _ _ _ _ _ Ecatch) in Hcall.
    destruct (pop_frame_spec (locals_at_entry f p) w2) as (l & Epop & _).
    rewrite (bind_ok _ _ _ _ _ Epop) in Hcall.
    pose proof (run_action_registry_frame (fn_body f bound)
                  (entry_world f p w1)) as Hbody.
    rewrite Hrun in Hbody. simpl in Hbody.
    set (wc := set_stack (drop 1) w2) in *.
    assert ((_check_function n d wc).1 = Ok (function_dirty p)) as Efd'.
    { rewrite _check_function_lookup in *. simpl in *.
      by rewrite (rf_functions _ _ Hbody). }
    assert ((_check_call n bound wc).1 = Ok (call_id p, old_result p)) as Ec'.
    { rewrite _check_call_lookup in *. simpl in *.
      by rewrite (rf_function_calls _ _ Hbody). }
    destruct (cache_after_checks _ _ _ _ _ _ v (call_file_digests p)
                (l_external_srcs l) (l_external_dsts l)
                (l_external_digests l) _ Efd' Ec')
      as (i & w3 & E & _ & Hfd3 & Hc3 & _).
    rewrite (bind_ok _ _ _ _ _ E) in Hcall.
    destruct (set_update _ _) as [rd|e];
      unfold bind, lift, ret in Hcall; [|done].
    injection Hcall as <- <-. simpl. eauto. }
  destruct (has_result p) eqn:Hres; [|by apply Hdirty].
  destruct (iterate (return_dsts_of rt (old_result p))) as [rd|e]; [|done].
  destruct (bool_decide _); [|by apply Hdirty].
  injection Hcall as <- <-. by apply (Hclean _ eq_refl).
Qed.

(** An instance: the first [wc(ctx, "a.c")] of scenario S2. *)
Lemma call_records_result_wc :
  (_check_function "m.wc" "source of wc" after_first_wc).1 = Ok false ∧
  ∃ i, (_check_call "m.wc" wc_args after_first_wc).1 = Ok (Some i, VInt 10).
Proof.
  refine (call_records_result (wc_fn 10) wc_args one_source_world
            (VInt 10, {[VStr "a.c"]}, ∅) after_first_wc _).
  vm_compute; reflexivity.
Defined.

(** ** One function at a time *)

#[global] Instance registry_outside_preorder n : PreOrder (registry_outside n).
Proof.
  split.
  - by intros w g Hg.
  - intros w1 w2 w3 H12 H23 g Hg.
    destruct (H23 g Hg) as [-> ->]. by apply H12.
Qed.

Lemma registry_frame_outside n w w' :
  registry_frame w w' → registry_outside n w w'.
Proof. intros [Hf Hc _ _] g _. by rewrite Hf, Hc. Qed.

Lemma cache_registry_outside fd n d c b r cf es ed eg :
  preserves (registry_outside n) (cache fd n d c b r cf es ed eg).
Proof.
  unfold cache, _update_function, clear_function, _update_call, store_calls,
    _update_call_files, _update_external_files, _update_call_file.
  repeat first [ preserves_step
               | by intros g Hg; simpl; rewrite ?lookup_delete_ne,
                      ?lookup_insert_ne by done ].
Qed.

Lemma call_registry_outside f bound :
  preserves (registry_outside (fn_name f)) (call f bound).
Proof.
  intros w. unfold call.
  pose proof (partition_roles_pure (fn_annotations f) bound w) as Hpure.
  unfold bind at 1.
  destruct (partition_roles (fn_annotations f) bound w)
    as [[[[rt srcs] dsts]|e] w0]; simpl in Hpure; subst w0; [|done].
  simpl.
  pose proof (request_prepare_frame (fn_name f) (fn_digest f) bound srcs dsts
                w) as Hframe.
  unfold bind at 1.
  destruct (request_prepare (fn_name f) (fn_digest f) bound srcs dsts w)
    as [[p|e] w1]; simpl in Hframe.
  2: { by apply registry_frame_outside, probe_frame_registry_frame. }
  etrans; [by apply registry_frame_outside, probe_frame_registry_frame|].
  unfold bind at 1. rewrite cached_result_spec.
  assert (registry_outside (fn_name f) w1
            (recompute f bound rt srcs dsts p w1).2) as Hdirty.
  { rewrite recompute_entered. unfold run_and_cache.
    pose proof (run_action_registry_frame (fn_body f bound)
                  (entry_world f p w1)) as Hbody.
    unfold bind at 1, catch at 1.
    destruct (run_action (fn_body f bound) (entry_world f p w1))
      as [[v|e] w2]; simpl in Hbody.
    2: { apply registry_frame_outside. destruct Hbody. by split. }
    destruct (pop_frame_spec (locals_at_entry f p) w2) as (l & Epop & _).
    rewrite (bind_ok _ _ _ _ _ Epop).
    etrans; [apply registry_frame_outside;
             apply (RegistryFrame w1 (set_stack (drop 1) w2));
             apply Hbody|].
    pose proof (cache_registry_outside (function_dirty p) (fn_name f)
                  (fn_digest f) (call_id p) bound v (call_file_digests p)
                  (l_external_srcs l) (l_external_dsts l)
                  (l_external_digests l) (set_stack (drop 1) w2)) as Hc.
    unfold bind at 1.
    destruct (cache _ _ _ _ _ _ _ _ _ _ _) as [[[]|e] w3]; [|done].
    unfold bind, lift, ret. by destruct (set_update _ _). }
  destruct (has_result p); [|done].
  destruct (iterate (return_dsts_of rt (old_result p))); [|done].
  by destruct (bool_decide _).
Qed.

(** X24: a call touches the records of its own function only. Whatever
    [Database.call] does for a function (return the cached value, run
    the function, raise), [_check_function] and [_check_call] answer for
    every other function name as they did before the call. *)
Theorem call_leaves_other_functions f bound w g :
  g ≠ fn_name f →
  (∀ d, (_check_function g d (call f bound w).2).1
          = (_check_function g d w).1) ∧
  (∀ b, (_check_call g b (call f bound w).2).1 = (_check_call g b w).1).
Proof.
  intros Hg. destruct (call_registry_outside f bound w g Hg) as [Hf Hc].
  split.
  - intros d. rewrite !_check_function_lookup. simpl. by rewrite Hf.
  - intros b. rewrite !_check_call_lookup. simpl. by rewrite Hc.
Qed.

(** An instance: [wc(ctx, "a.c")] after [add(ctx, 2, 3)]. *)
Lemma call_leaves_other_functions_add :
  (∀ d, (_check_function "m.add" d
           (call (wc_fn 10) wc_args after_first_add).2).1
          = (_check_function "m.add" d after_first_add).1) ∧
  (∀ b, (_check_call "m.add" b (call (wc_fn 10) wc_args after_first_add).2).1
          = (_check_call "m.add" b after_first_add).1).
Proof.
  exact (call_leaves_other_functions (wc_fn 10) wc_args after_first_add
           "m.add" ltac:(discriminate)).
Defined.
(** ** The call lists over a build *)

Lemma find_call_None bound datas start :
  find_call bound datas start = None → bound ∉ datas.*1.
Proof.
  revert start. induction datas as [|[ob res] l IH]; intros start; simpl.
  - intros _. apply not_elem_of_nil.
  - case_bool_decide as Hb; [done|]. intros H.
    apply not_elem_of_cons. split; [done|]. by eapply IH.
Qed.

Lemma calls_wf_frame w w' :
  registry_frame w w' → calls_wf (db w) → calls_wf (db w').
Proof.
  intros [Hf Hc _ _] Hwf n datas. rewrite Hf, Hc. apply Hwf.
Qed.

Lemma calls_wf_insert d n datas (fns : gmap string string) :
  calls_wf d →
  datas ≠ [] → NoDup datas.*1 → is_Some (fns !! n) →
  (∀ g, g ≠ n → fns !! g = _functions d !! g) →
  ∀ g l, <[n := datas]> (_function_calls d) !! g = Some l →
    l ≠ [] ∧ NoDup l.*1 ∧ is_Some (fns !! g).
Proof.
  intros Hwf Hne Hnd Hfn Hother g l.
  destruct (decide (g = n)) as [->|Hg].
  - rewrite lookup_insert_eq. by intros [= <-].
  - rewrite lookup_insert_ne by done. intros Hl.
    rewrite (Hother g Hg). by apply Hwf.
Qed.

(** [cache], given the answers of the two checks in the world it starts
    from, keeps the call lists well formed. *)
Lemma cache_keeps_calls_wf fd n d c old b r cfd es ed eg w :
  (_check_function n d w).1 = Ok fd →
  (_check_call n b w).1 = Ok (c, old) →
  calls_wf (db w) →
  calls_wf (db (cache fd n d c b r cfd es ed eg w).2).
Proof.
  intros Hfd Hc Hwf.
  assert (∃ i w1,
    ((if fd then _update_function n d else ret tt) ;;;
     _update_call n c b r) w = (Ok i, w1) ∧ calls_wf (db w1))
    as (i & w1 & E1 & Hwf1).
  { destruct fd.
    - exists 0. eexists. split.
      + unfold bind at 1. unfold _update_function at 1.
        unfold bind at 1, clear_function at 1. unfold bind at 1, gets at 1.
        unfold bind at 1, modify at 1. unfold ret at 1, modify at 1.
        unfold _update_call, bind, gets. cbn [db set_db _function_calls].
        rewrite lookup_delete_eq. reflexivity.
      + intros g l. simpl. intros Hl.
        destruct (decide (g = n)) as [->|Hg].
        * rewrite lookup_insert_eq in Hl. injection Hl as <-.
          rewrite lookup_insert_eq. split; [done|]. split; [|by eauto].
          simpl. apply NoDup_singleton.
        * rewrite lookup_insert_ne, lookup_delete_ne in Hl by done.
          rewrite lookup_insert_ne, lookup_delete_ne by done.
          by apply Hwf.
    - assert (_functions (db w) !! n = Some d) as Hfn.
      { rewrite _check_function_lookup in Hfd. simpl in Hfd.
        destruct (_functions (db w) !! n) as [od|]; [|done].
        injection Hfd as Hfd. apply negb_false_iff, bool_decide_eq_true in Hfd.
        by subst. }
      rewrite _check_call_lookup in Hc. simpl in Hc.
      unfold bind at 1, ret at 1.
      unfold _update_call, bind, gets, store_calls, modify, ret.
      destruct (_function_calls (db w) !! n) as [datas|] eqn:Ed; simpl in Hc.
      + destruct (Hwf n datas Ed) as (Hne & Hnd & _).
        destruct (find_call b datas 0) as [[j res]|] eqn:Ef.
        * injection Hc as <- <-.
          pose proof (find_call_lt _ _ _ _ _ Ef) as Hlt. simpl in Hlt.
          apply find_call_lookup in Ef as (j' & -> & Hj). simpl in *.
          rewrite bool_decide_true by done.
          eexists _, _. split; [done|]. intros g l. simpl. revert g l.
          apply (calls_wf_insert (db w)); try done.
          -- intros Hnil. apply (f_equal length) in Hnil.
             rewrite length_insert in Hnil. by destruct datas.
          -- rewrite list_fmap_insert. simpl.
             rewrite list_insert_id; [done|].
             by rewrite list_lookup_fmap, Hj.
        * injection Hc as <- <-.
          eexists _, _. split; [done|]. intros g l. simpl. revert g l.
          apply (calls_wf_insert (db w)); try done.
          -- by destruct datas.
          -- rewrite fmap_app. simpl. apply NoDup_app. split; [done|].
             split; [|apply NoDup_singleton].
             intros x Hx Hx'. apply list_elem_of_singleton in Hx' as ->.
             by apply (find_call_None _ _ _ Ef).
      + injection Hc as <- <-.
        eexists _, _. split; [done|]. intros g l. simpl. revert g l.
        apply (calls_wf_insert (db w)); try done.
        simpl. apply NoDup_singleton. }
  unfold cache.
  assert (∀ {A B C} (m1 : M A) (m2 : M B) (k : B → M C) w,
            (m1 ;;; x <- m2 ;; k x) w = (x <- (m1 ;;; m2) ;; k x) w) as Hassoc.
  { intros A B C m1 m2 k w0. unfold bind. by destruct (m1 w0) as [[]]. }
  rewrite Hassoc, (bind_ok _ _ _ _ _ E1).
  unfold _update_call_files. unfold bind at 1.
  rewrite update_call_files_loop.
  unfold _update_external_files. unfold bind at 1, modify at 1.
  rewrite update_call_files_loop.
  simpl. exact Hwf1.
Qed.

Lemma call_keeps_calls_wf f bound w :
  calls_wf (db w) → calls_wf (db (call f bound w).2).
Proof.
  intros Hwf. unfold call.
  pose proof (partition_roles_pure (fn_annotations f) bound w) as Hpure.
  unfold bind at 1.
  destruct (partition_roles (fn_annotations f) bound w)
    as [[[[rt srcs] dsts]|e] w0]; simpl in Hpure; subst w0; [|done].
  simpl.
  set (n := fn_name f). set (d := fn_digest f).
  pose proof (request_prepare_frame n d bound srcs dsts w) as Hframe.
  unfold bind at 1.
  destruct (request_prepare n d bound srcs dsts w) as [[p|e] w1] eqn:Hreq;
    simpl in Hframe.
  2: { by eapply calls_wf_frame; [apply probe_frame_registry_frame|]. }
  assert (calls_wf (db w1)) as Hwf1.
  { by eapply calls_wf_frame; [apply probe_frame_registry_frame|]. }
  destruct (request_prepare_names _ _ _ _ _ _ _ _ Hreq) as [Hprep _].
  apply prepare_steps in Hprep as (Efd & Ec & _).
  unfold bind at 1. rewrite cached_result_spec.
  assert (calls_wf (db (recompute f bound rt srcs dsts p w1).2)) as Hdirty.
  { rewrite recompute_entered. unfold run_and_cache.
    pose proof (run_action_registry_frame (fn_body f bound)
                  (entry_world f p w1)) as Hbody.
    unfold bind at 1, catch at 1.
    destruct (run_action (fn_body f bound) (entry_world f p w1))
      as [[v|e] w2]; simpl in Hbody.
    2: { simpl. eapply calls_wf_frame; [|exact Hwf1].
         destruct Hbody. by split. }
    destruct (pop_frame_spec (locals_at_entry f p) w2) as (l & Epop & _).
    rewrite (bind_ok _ _ _ _ _ Epop).
    set (wc := set_stack (drop 1) w2).
    assert (registry_frame w wc) as Hreg.
    { etrans; [apply probe_frame_registry_frame, Hframe|].
      destruct Hbody. by split. }
    assert ((_check_function n d wc).1 = Ok (function_dirty p)) as Efd'.
    { rewrite _check_function_lookup in *. simpl in *.
      pose proof (rf_functions _ _ Hreg) as Hf. simpl in Hf.
      by rewrite Hf. }
    assert ((_check_call n bound wc).1 = Ok (call_id p, old_result p)) as Ec'.
    { rewrite _check_call_lookup in *. simpl in *.
      pose proof (rf_function_calls _ _ Hreg) as Hf. simpl in Hf.
      by rewrite Hf. }
    pose proof (cache_keeps_calls_wf (function_dirty p) n d (call_id p)
                  (old_result p) bound v (call_file_digests p)
                  (l_external_srcs l) (l_external_dsts l)
                  (l_external_digests l) wc Efd' Ec'
                  (calls_wf_frame _ _ Hreg Hwf)) as Hc.
    unfold bind at 1.
    destruct (cache _ _ _ _ _ _ _ _ _ _ _) as [[[]|e] w3]; [|done].
    unfold bind, lift, ret. by destruct (set_update _ _). }
  destruct (has_result p); [|done].
  destruct (iterate (return_dsts_of rt (old_result p))); [|done].
  by destruct (bool_decide _).
Qed.

Lemma run_step_keeps_calls_wf s w :
  calls_wf (db w) → calls_wf (db (run_step s w)).
Proof.
  intros Hwf. destruct s as [f bound|name|filename|files time]; simpl.
  - by apply call_keeps_calls_wf.
  - intros n datas Hd. simpl in *.
    apply lookup_delete_Some in Hd as [Hne Hd].
    rewrite lookup_delete_ne by done. by apply Hwf.
  - done.
  - done.
Qed.

Lemma run_session_keeps_calls_wf steps w :
  calls_wf (db w) → calls_wf (db (run_session steps w)).
Proof.
  revert w. induction steps as [|s steps IH]; intros w Hw; simpl; [done|].
  apply IH. by apply run_step_keeps_calls_wf.
Qed.

(** ** A changed source *)

(** A probe of a file whose content is not the recorded one, at a
    modification time that is not the recorded one or not more than a
    second old, reports the file changed, whatever the call, and records
    the new time and digest. *)
Lemma _check_call_file_changed c n s w st om od :
  fs w !! s = Some st →
  _files (db w) !! s = Some (om, od) →
  st_digest st ≠ od →
  PrimFloat.eqb (st_mtime st) om
    && more_than_one_second_past (now w) (st_mtime st) = false →
  ∃ w', _check_call_file c n s w = (Ok (true, st_digest st), w') ∧
        _files (db w') !! s = Some (st_mtime st, st_digest st).
Proof.
  intros Hfs Hfiles Hd Hshort.
  assert (∃ w', _add_file s w
                  = (Ok (true, (st_mtime st, st_digest st)), w') ∧
                _files (db w') !! s = Some (st_mtime st, st_digest st) ∧
                _call_files (db w') !! s = None) as (w' & Ea & Hf' & Hcf').
  { unfold more_than_one_second_past in Hshort.
    destruct w as [[fns calls files cf es ed] fsys t st0 tr]; simpl in *.
    unfold _add_file, bind, getmtime, digest, gets, time_time, store_file,
      clear_file, modify, ret; simpl.
    rewrite Hfs; simpl. rewrite Hfiles; simpl.
    destruct (PrimFloat.eqb (st_mtime st) om); simpl in *.
    - rewrite Hshort. simpl. rewrite Hfs; simpl.
      rewrite bool_decide_false by done. simpl.
      eexists. split; [done|]. simpl.
      by rewrite lookup_insert_eq, lookup_delete_eq.
    - rewrite Hfs; simpl. rewrite bool_decide_false by done. simpl.
      eexists. split; [done|]. simpl.
      by rewrite lookup_insert_eq, lookup_delete_eq. }
  exists w'. split; [|done].
  unfold _check_call_file. rewrite (bind_ok _ _ _ _ _ Ea). simpl.
  destruct c; [done| |]; unfold bind, gets; simpl; by rewrite Hcf'.
Qed.

Lemma check_call_files_changed c n l s st om od : ∀ acc w acc' w',
  for_each l (check_one_call_file c n) acc w = (Ok acc', w') →
  s ∈ l →
  fs w !! s = Some st →
  _files (db w) !! s = Some (om, od) →
  st_digest st ≠ od →
  PrimFloat.eqb (st_mtime st) om
    && more_than_one_second_past (now w) (st_mtime st) = false →
  (s, st_digest st) ∈ acc'.
Proof.
  induction l as [|f l IH]; intros acc w acc' w' H Hin Hfs Hfiles Hd Hshort.
  - by apply elem_of_nil in Hin.
  - simpl in H. unfold bind at 1 in H.
    destruct (check_one_call_file c n f acc w) as [[acc1|e] wa] eqn:E1;
      [|done].
    destruct (check_call_files_pass _ _ _ _ _ _ _ H) as (new & -> & _).
    unfold check_one_call_file in E1.
    destruct (decide (f = s)) as [->|Hne].
    + destruct (_check_call_file_changed c n s w st om od Hfs Hfiles Hd Hshort)
        as (w1 & Ep & _).
      rewrite (bind_ok _ _ _ _ _ Ep) in E1. simpl in E1.
      injection E1 as <- <-.
      apply elem_of_app. left. apply elem_of_app. right. left.
    + pose proof (_check_call_file_frame c n f w) as Hf.
      pose proof (_check_call_file_outside c n f w) as Hout.
      unfold bind in E1.
      destruct (_check_call_file c n f w) as [[r|e] wa'] eqn:Ep; [|done].
      simpl in Hf, Hout.
      assert (wa' = wa) as -> by (destruct r.1; by injection E1).
      destruct (Hout s) as [Hfiles' _]; [set_solver|].
      apply (IH _ _ _ _ H).
      * apply elem_of_cons in Hin as [->|Hin]; done.
      * by rewrite (pf_fs _ _ Hf).
      * by rewrite Hfiles'.
      * done.
      * by rewrite (pf_now _ _ Hf).
Qed.

(** X26: a changed source makes the call dirty. If a declared source is
    on disk with a content digest other than the recorded one, at a
    modification time that differs from the recorded one or is not more
    than a second old, then a [prepare] that returns hands back the
    file's present digest in [call_file_digests], so the first test of
    [Database.call] fails and the function is run again. *)
Theorem changed_source_makes_call_dirty n d b srcs dsts w p w1 s st om od :
  s ∈ srcs →
  fs w !! s = Some st →
  _files (db w) !! s = Some (om, od) →
  st_digest st ≠ od →
  PrimFloat.eqb (st_mtime st) om
    && more_than_one_second_past (now w) (st_mtime st) = false →
  prepare n d b srcs dsts w = (Ok p, w1) →
  (s, st_digest st) ∈ call_file_digests p ∧ has_result p = false.
Proof.
  intros Hs Hfs Hfiles Hd Hshort Hp.
  apply prepare_steps in Hp as (_ & _ & wa & E1 & _).
  unfold _check_call_files in E1.
  assert ((s, st_digest st) ∈ call_file_digests p) as Hin.
  { apply (check_call_files_changed _ _ _ s st om od _ _ _ _ E1); try done.
    by apply elem_of_elements. }
  split; [done|].
  unfold has_result. destruct (call_file_digests p); [|by rewrite !orb_true_r].
  by apply elem_of_nil in Hin.
Qed.

(** An instance: [wc(ctx, "a.c")] after ["a.c"] was edited. *)
Lemma changed_source_makes_call_dirty_a_c :
  ("a.c", "d2")
    ∈ call_file_digests
        (Prepared false (Some 0) (VInt 10) [("a.c", "d2")] false ∅ ∅ []) ∧
  has_result (Prepared false (Some 0) (VInt 10) [("a.c", "d2")] false ∅ ∅ [])
    = false.
Proof.
  refine (changed_source_makes_call_dirty "m.wc" "source of wc" wc_args
            {["a.c"]} ∅ source_edited
            (Prepared false (Some 0) (VInt 10) [("a.c", "d2")] false ∅ ∅ [])
            (prepare "m.wc" "source of wc" wc_args {["a.c"]} ∅
               source_edited).2
            "a.c" (FileStat 150 "d2") 100%float "d1" _ _ _ _ _ _).
  - by apply elem_of_singleton.
  - vm_compute; reflexivity.
  - vm_compute; reflexivity.
  - discriminate.
  - vm_compute; reflexivity.
  - vm_compute; reflexivity.
Defined.

(** ** Touched files *)

#[global] Instance keeps_fresh_preorder : PreOrder keeps_fresh.
Proof.
  split.
  - by intros w c n s H.
  - intros w1 w2 w3 H12 H23 c n s H. by apply H23, H12.
Qed.

(** A probe of a file whose recorded digest is the digest of its content
    reports it unchanged, whatever the modification times and the clock,
    and leaves the recorded digest and [_call_files] as they are. *)
Lemma _add_file_of_fresh s w e :
  fresh s w e →
  ∃ w' e', _add_file s w = (Ok (false, e), w') ∧
    fresh s w' e' ∧ e'.2 = e.2 ∧
    _call_files (db w') = _call_files (db w).
Proof.
  intros (st & Hfs & Hfiles & Hd).
  destruct w as [[fns calls files cf es ed] fsys t st0 tr]; simpl in *.
  destruct e as [om od]. simpl in *. subst od.
  unfold _add_file, bind, getmtime, digest, gets, time_time, store_file,
    clear_file, modify, ret; simpl.
  rewrite Hfs; simpl. rewrite Hfiles; simpl.
  assert (∀ tr', ∃ e',
    fresh s (World (Backend fns calls
                      (<[s := (st_mtime st, st_digest st)]> files) cf es ed)
               fsys t st0 tr') e' ∧ e'.2 = st_digest st) as Hstored.
  { intros tr'. exists (st_mtime st, st_digest st). split; [|done].
    exists st. simpl. by rewrite lookup_insert_eq. }
  destruct (PrimFloat.eqb (st_mtime st) om); simpl.
  - destruct (PrimFloat.ltb _ _); simpl.
    + eexists _, (om, st_digest st). split; [done|]. split; [|done].
      by exists st.
    + rewrite Hfs; simpl. rewrite bool_decide_true by done. simpl.
      destruct (Hstored (tr ++ [EvDigest s])) as (e' & He' & Hd').
      by eexists _, e'.
  - rewrite Hfs; simpl. rewrite bool_decide_true by done. simpl.
    destruct (Hstored (tr ++ [EvDigest s])) as (e' & He' & Hd').
    by eexists _, e'.
Qed.

Lemma _check_call_file_of_fresh c n s w :
  recorded_fresh c n s w →
  ∃ dg w', _check_call_file c n s w = (Ok (false, dg), w') ∧
           keeps_fresh w w'.
Proof.
  intros (Hc & e & Hfresh & Hrec).
  destruct (_add_file_of_fresh _ _ _ Hfresh) as (w' & e' & Ea & Hf' & He' & Hcf).
  exists e.2, w'. split.
  - apply _check_call_file_clean. split; [done|]. exists e.
    split; [done|]. split; [done|]. by rewrite Hcf.
  - pose proof (_add_file_frame s w) as Hframe.
    pose proof (_add_file_outside s w) as Hout.
    rewrite Ea in Hframe, Hout. simpl in Hframe, Hout.
    intros c' n' s' (Hc' & e0 & (st0 & H1 & H2 & H3) & Hrec').
    split; [done|].
    destruct (decide (s' = s)) as [->|Hne].
    + exists e'. split; [done|].
      destruct Hfresh as (st & _ & Hfiles & _).
      assert (e0 = e) as -> by congruence.
      unfold call_file_record in *. by rewrite Hcf, He'.
    + exists e0. split.
      * exists st0. destruct (Hout s') as [Hfiles' _]; [set_solver|].
        by rewrite (pf_fs _ _ Hframe), Hfiles'.
      * unfold call_file_record in *. by rewrite Hcf.
Qed.

Lemma check_call_files_of_fresh c n l : ∀ acc w,
  (∀ f, f ∈ l → recorded_fresh c n f w) →
  ∃ w1, for_each l (check_one_call_file c n) acc w = (Ok acc, w1) ∧
        keeps_fresh w w1 ∧ probe_frame w w1.
Proof.
  induction l as [|f l IH]; intros acc w Hall; simpl.
  - by exists w.
  - destruct (_check_call_file_of_fresh c n f w) as (dg & wa & Ep & Hk);
      [apply Hall; left|].
    pose proof (_check_call_file_frame c n f w) as Hf.
    rewrite Ep in Hf. simpl in Hf.
    destruct (IH acc wa) as (w1 & E & Hk1 & Hf1).
    { intros f' Hf'. apply Hk, Hall. by right. }
    exists w1. split; [|split; by etrans].
    unfold bind at 1, check_one_call_file at 1, bind at 1.
    by rewrite Ep.
Qed.

Lemma check_external_srcs_of_fresh c n l : ∀ acc w,
  (∀ f, f ∈ l → recorded_fresh c n f w) →
  ∃ w1, for_each l (check_one_external_src c n) acc w = (Ok acc, w1) ∧
        keeps_fresh w w1 ∧ probe_frame w w1.
Proof.
  induction l as [|f l IH]; intros acc w Hall; simpl.
  - by exists w.
  - destruct (_check_call_file_of_fresh c n f w) as (dg & wa & Ep & Hk);
      [apply Hall; left|].
    pose proof (_check_call_file_frame c n f w) as Hf.
    rewrite Ep in Hf. simpl in Hf.
    destruct (IH acc wa) as (w1 & E & Hk1 & Hf1).
    { intros f' Hf'. apply Hk, Hall. by right. }
    exists w1. split; [|split; by etrans].
    unfold bind at 1. rewrite check_one_external_src_cases, Ep. done.
Qed.

(** What a clean [prepare] found recorded, it finds recorded with the
    digest of the content again once the files carry the recorded
    digests. *)
Lemma clean_at_recorded_fresh c n s w dg files' t :
  clean_at c n s w dg →
  (∃ st e, files' !! s = Some st ∧ _files (db w) !! s = Some e ∧
           st_digest st = e.2) →
  recorded_fresh c n s (set_now t (set_fs (fun _ => files') w)).
Proof.
  intros (Hc & (e & (st0 & _ & Hfiles & _) & He) & Hrec)
         (st & e' & Hst & Hfiles' & Hd).
  assert (e' = e) as -> by congruence.
  split; [done|]. exists e. split.
  - by exists st.
  - unfold call_file_record. simpl. by rewrite He.
Qed.

(** X27: touching files does not make a clean call dirty. When [prepare]
    has reported a call clean, and afterwards the files change on disk
    and the clock moves in any way that leaves every declared source and
    every recorded external source with the content digest that the file
    registry holds for it, the next [prepare] reports the same tuple: the
    modification times alone never cause a rerun. *)
Theorem touched_sources_stay_clean n d b srcs dsts w p w1 files' t :
  prepare n d b srcs dsts w = (Ok p, w1) →
  has_result p = true →
  (∀ s, s ∈ srcs ∪ external_srcs p →
     ∃ st e, files' !! s = Some st ∧ _files (db w1) !! s = Some e ∧
             st_digest st = e.2) →
  ∃ w2,
    prepare n d b srcs dsts (set_now t (set_fs (fun _ => files') w1))
      = (Ok p, w2).
Proof.
  intros Hp Hres Hsame.
  pose proof (prepare_frame n d b srcs dsts w) as Hframe.
  rewrite Hp in Hframe. simpl in Hframe.
  apply has_result_true in Hres as (Hfd & Hid & Hcfd & Hxg & Hxd).
  apply prepare_steps in Hp as (Efd & Ec & wa & E1 & E2).
  destruct p as [fd [i|] old cfd xd xs xt xg]; simpl in *; [|done].
  subst fd cfd xg xd. clear Hid.
  unfold _check_call_files in E1.
  destruct (check_call_files_clean_pass _ _ _ _ _ _ E1) as [Hall1 _].
  pose proof (_check_external_files_frame (KStr n) (KInt i) wa) as Hfb.
  rewrite E2 in Hfb. simpl in Hfb.
  rewrite _check_external_files_cases in E2.
  assert ((∀ f, f ∈ elements srcs → ∃ dg, clean_at (KInt i) (KStr n) f w1 dg)
          ∧ match _external_srcs (db wa) !! KInt i
                    ≫= (fun m => m !! KStr n) with
            | Some sx =>
                xs = sx ∧
                ∀ f, f ∈ elements sx →
                     ∃ dg, clean_at (KStr n) (KInt i) f w1 dg
            | None => xs = ∅
            end
          ∧ xt = default ∅ (_external_dsts (db w1) !! KInt i
                              ≫= (fun m => m !! KStr n)))
    as (Hall1' & Hall2 & Hxt).
  { destruct (_external_srcs (db wa) !! KInt i ≫= _) as [sx|].
    - destruct (for_each (elements sx) _ _ wa) as [[[r1 r2]|e] wb] eqn:E3;
        [|done].
      simpl in E2. injection E2 as -> -> <- -> ->.
      destruct (check_external_srcs_clean_pass _ _ _ _ _ _ E3)
        as [Hall2 Hkeep].
      split; [|done]. intros f Hf. destruct (Hall1 f Hf) as [dg Hc].
      exists dg. by apply Hkeep.
    - by injection E2 as <- <- <-. }
  set (w1' := set_now t (set_fs (fun _ => files') w1)).
  assert (db w1' = db w1) as Hdb' by done.
  destruct (check_call_files_of_fresh (KInt i) (KStr n) (elements srcs) []
              w1') as (w1a & E1' & Hk1a & Hf1a).
  { intros f Hf. destruct (Hall1' f Hf) as [dg Hc].
    apply (clean_at_recorded_fresh _ _ _ _ dg); [done|].
    apply Hsame. apply elem_of_elements in Hf. set_solver. }
  assert (∃ w2,
    _check_external_files (KStr n) (KInt i) w1a
      = (Ok (false, xs, xt, []), w2)) as (w2 & E2').
  { rewrite _check_external_files_cases,
      (pf_external_srcs _ _ Hf1a), Hdb', (pf_external_srcs _ _ Hfb).
    destruct (_external_srcs (db wa) !! KInt i ≫= _) as [sx|].
    - destruct Hall2 as [-> Hall2].
      destruct (check_external_srcs_of_fresh (KStr n) (KInt i) (elements sx)
                  (false, []) w1a) as (w2 & E & _ & Hf2).
      { intros f Hf. apply Hk1a. destruct (Hall2 f Hf) as [dg Hc].
        apply (clean_at_recorded_fresh _ _ _ _ dg); [done|].
        apply Hsame. apply elem_of_elements in Hf. set_solver. }
      exists w2. rewrite E. simpl.
      by rewrite (pf_external_dsts _ _ Hf2), (pf_external_dsts _ _ Hf1a),
        Hdb', Hxt.
    - subst xs. exists w1a.
      by rewrite (pf_external_dsts _ _ Hf1a), Hdb', Hxt. }
  exists w2. apply prepare_steps. simpl.
  split; [|split].
  - rewrite _check_function_lookup in *. simpl in *.
    by rewrite (pf_functions _ _ Hframe).
  - rewrite _check_call_lookup in *. simpl in *.
    by rewrite (pf_function_calls _ _ Hframe).
  - exists w1a. by split.
Qed.

(** An instance: [wc(ctx, "a.c")] after ["a.c"] was touched, much later. *)
Lemma touched_sources_stay_clean_wc :
  ∃ w2,
    prepare "m.wc" "source of wc" wc_args {["a.c"]} ∅
      (set_now 5000 (set_fs (fun _ => touched_files)
         (prepare "m.wc" "source of wc" wc_args {["a.c"]} ∅
            after_first_wc).2))
      = (Ok (Prepared false (Some 0) (VInt 10) [] false ∅ ∅ []), w2).
Proof.
  refine (touched_sources_stay_clean "m.wc" "source of wc" wc_args
            {["a.c"]} ∅ after_first_wc
            (Prepared false (Some 0) (VInt 10) [] false ∅ ∅ []) _
            touched_files 5000 _ _ _).
  - vm_compute; reflexivity.
  - reflexivity.
  - intros s Hs. simpl in Hs.
    assert (s = "a.c") as -> by set_solver.
    exists (FileStat 999 "d1"), (100%float, "d1").
    split; [reflexivity|]. split; [vm_compute; reflexivity|reflexivity].
Defined.
